(** * museumcode: a shallow embedding of the photogrammetry pipeline

    The development follows the layout of the repository:

    - [Py]               the fragment of the Python runtime the code relies on
                         (exceptions, [str.upper]/[str.lower]/[str.endswith],
                         attribute lookup on a class or module, [try]/[except],
                         [f"{n}"] on integers);
    - [Util]             [util/util.py] ([MaskingOptions]);
    - [ProcessingTools]  [processing/processingTools.py] ([ptsToClockwiseRect]);
    - [ImageProcessing]  [processing/image_processing.py] ([build_masks],
                         [process_image], [get_exif_data], [findGray],
                         [get_color_card_from_image]);
    - [ModelHelpers]     [photogrammetry/ModelHelpers.py];
    - [MetashapeTools]   [photogrammetry/MetashapeTools.py] ([reorient_model],
                         [build_basic_model]).

    Python floats are modelled by exact rationals ([Q]): the code under study
    only multiplies by constants and compares, so rounding is left out.
    Strings are byte strings; case conversion is the ASCII one.

    The reconstruction engine, the imaging libraries and the file system are
    outside the repository.  Their objects are modelled by the attributes the
    code reads and writes, their results are parameters ([Engine], [FsEnv],
    [ExifTags], [World]), and every call the orchestration makes is recorded
    as an [Event].  Informational logging, console output and the timing
    statistics are left out; warnings are recorded. *)

From Stdlib Require Import ZArith QArith Qround List String Ascii Bool Arith Lia Lqa.
From Stdlib Require Import Permutation Sorted DecimalString.
From Stdlib Require DecimalPos DecimalZ.
Import ListNotations.

Set Implicit Arguments.

(* ================================================================== *)
(** * The Python runtime fragment *)
(* ================================================================== *)

Module Py.

(** The exceptions the modelled code can raise. *)
Inductive PyError : Type :=
| AttributeError
| TypeError
| KeyError
| IndexError
| ValueError
| OSError
| RuntimeError
| Nontermination. (* a loop of the source ran past the model's fuel *)

(** A computation either returns or raises. *)
Inductive result (A : Type) : Type :=
| Ok (a : A)
| Raise (e : PyError).

Arguments Ok {A} a.
Arguments Raise {A} e.

Definition bind {A B : Type} (m : result A) (k : A -> result B) : result B :=
  match m with
  | Ok a => k a
  | Raise e => Raise e
  end.

Definition of_option {A : Type} (e : PyError) (o : option A) : result A :=
  match o with
  | Some a => Ok a
  | None => Raise e
  end.

(** ** Strings *)

Definition upper_ascii (c : ascii) : ascii :=
  let n := nat_of_ascii c in
  if (97 <=? n)%nat && (n <=? 122)%nat then ascii_of_nat (n - 32) else c.

Definition lower_ascii (c : ascii) : ascii :=
  let n := nat_of_ascii c in
  if (65 <=? n)%nat && (n <=? 90)%nat then ascii_of_nat (n + 32) else c.

Fixpoint map_string (f : ascii -> ascii) (s : string) : string :=
  match s with
  | EmptyString => EmptyString
  | String c r => String (f c) (map_string f r)
  end.

(** [str.upper] and [str.lower]. *)
Definition upper : string -> string := map_string upper_ascii.
Definition lower : string -> string := map_string lower_ascii.

Fixpoint prefixb (p l : list ascii) : bool :=
  match p, l with
  | [], _ => true
  | _ :: _, [] => false
  | a :: p', b :: l' => Ascii.eqb a b && prefixb p' l'
  end.

(** [s.endswith(suffix)]: the reversed suffix starts the reversed string. *)
Definition endswith (s suffix : string) : bool :=
  prefixb (rev (list_ascii_of_string suffix)) (rev (list_ascii_of_string s)).

(** [f"{n}"] for an integer [n]. *)
Definition str_of_Z (n : Z) : string := NilZero.string_of_int (Z.to_int n).

(** Python's ASCII white space, as [str.split()] sees it. *)
Definition is_space (c : ascii) : bool :=
  let n := nat_of_ascii c in
  ((9 <=? n)%nat && (n <=? 13)%nat) || ((28 <=? n)%nat && (n <=? 32)%nat).

(** [s.split()]: the maximal runs of non-blank characters.  [cur] is the run
    being read, reversed. *)
Fixpoint split_from (cur : list ascii) (l : list ascii) : list string :=
  let flush (k : list string) :=
    match cur with
    | [] => k
    | _ :: _ => string_of_list_ascii (rev cur) :: k
    end in
  match l with
  | [] => flush []
  | c :: r => if is_space c then flush (split_from [] r) else split_from (c :: cur) r
  end.

Definition split (s : string) : list string :=
  split_from [] (list_ascii_of_string s).

(** [int(s)] on a decimal literal with an optional sign; anything else is a
    [ValueError]. *)
Definition int_of_str (s : string) : result Z :=
  match s with
  | String "+"%char r =>
      match NilZero.uint_of_string r with
      | Some u => Ok (Z.of_uint u)
      | None => Raise ValueError
      end
  | _ =>
      match NilZero.int_of_string s with
      | Some d => Ok (Z.of_int d)
      | None => Raise ValueError
      end
  end.

(** ** Attribute lookup on a class of integer constants *)

Definition PyClass : Type := list (string * Z).

Fixpoint getattr (cls : PyClass) (name : string) : result Z :=
  match cls with
  | [] => Raise AttributeError
  | (n, v) :: rest => if String.eqb n name then Ok v else getattr rest name
  end.

(** ** Attribute lookup on a module, and [try]/[except] *)

(** [module.name] on a module that binds [names] at top level. *)
Definition module_getattr (names : list string) (name : string) : result unit :=
  if existsb (String.eqb name) names then Ok tt else Raise AttributeError.

(** [try: body] / [except Exception as e: handler(e)].  Running out of fuel
    is no exception of the program and is not caught. *)
Definition try_except {A : Type} (body : result A) (handler : PyError -> result A)
  : result A :=
  match body with
  | Ok a => Ok a
  | Raise Nontermination => Raise Nontermination
  | Raise e => handler e
  end.

End Py.

Import Py.

Declare Scope py_scope.
Delimit Scope py_scope with py.
Notation "x <- m ;; k" := (Py.bind m (fun x => k))
  (at level 61, m at next level, right associativity) : py_scope.
Local Open Scope py_scope.

(* ================================================================== *)
(** * util/util.py *)
(* ================================================================== *)

Module Util.

(** [class MaskingOptions]: the constants of the class, in source order. *)
Definition MaskingOptions : PyClass :=
  [ ("NOMASKS"%string, 0%Z);
    ("MASK_CONTEXT_AWARE_DROPLET"%string, 1%Z);
    ("MASK_MAGIC_WAND_DROPLET"%string, 2%Z);
    ("MASK_CANNY"%string, 3%Z);
    ("MASK_THRESHOLDING"%string, 4%Z) ].

End Util.

(* ================================================================== *)
(** * The operating system, as far as the code consults it *)
(* ================================================================== *)

Module Os.

Record FsEnv : Type := {
  path_exists : string -> bool;           (* os.path.exists *)
  listdir : string -> result (list string);
    (* os.listdir: the entries, or the error it raises (FileNotFoundError
       for a missing directory, NotADirectoryError for a file) *)
  path_join : string -> string -> string; (* os.path.join *)
  path_stem : string -> string;           (* Path(p).stem *)
  path_ext : string -> string;            (* os.path.splitext(p)[1] *)
  decodable : string -> bool              (* the image library can read it *)
}.

End Os.

Import Os.

(* ================================================================== *)
(** * processing/processingTools.py *)
(* ================================================================== *)

Module ProcessingTools.

Local Open Scope Q_scope.

(** One row of the [(4,2)] array: [(x, y)]. *)
Definition Point : Type := (Q * Q)%type.

(** [pts.sum(axis=1)]: [x + y] per row. *)
Definition row_sum (p : Point) : Q := fst p + snd p.

(** [np.diff(pts, axis=1)]: [y - x] per row. *)
Definition row_diff (p : Point) : Q := snd p - fst p.

(** [np.argmin] on the non-empty array [v :: l]: the first index holding the
    least value. *)
Fixpoint argmin_ne (v : Q) (l : list Q) : nat :=
  match l with
  | [] => 0%nat
  | w :: r =>
      let j := argmin_ne w r in
      if Qle_bool v (nth j (w :: r) 0) then 0%nat else S j
  end.

(** [np.argmax] on the non-empty array [v :: l]: the first index holding the
    greatest value. *)
Fixpoint argmax_ne (v : Q) (l : list Q) : nat :=
  match l with
  | [] => 0%nat
  | w :: r =>
      let j := argmax_ne w r in
      if Qle_bool (nth j (w :: r) 0) v then 0%nat else S j
  end.

(** numpy refuses an empty sequence. *)
Definition argmin (l : list Q) : result nat :=
  match l with
  | [] => Raise ValueError
  | v :: r => Ok (argmin_ne v r)
  end.

Definition argmax (l : list Q) : result nat :=
  match l with
  | [] => Raise ValueError
  | v :: r => Ok (argmax_ne v r)
  end.

Definition origin : Point := (0, 0).

(** [ptsToClockwiseRect(pts)]: the four rows of [rect], in index order.  The
    source fills [rect[0]], [rect[2]], [rect[1]], [rect[3]]. *)
Definition ptsToClockwiseRect (pts : list Point) : result (list Point) :=
  let s := map row_sum pts in
  i0 <- argmin s ;;
  i2 <- argmax s ;;
  let d := map row_diff pts in
  i1 <- argmin d ;;
  i3 <- argmax d ;;
  Ok [nth i0 pts origin; nth i1 pts origin; nth i2 pts origin; nth i3 pts origin].

(** [l] without its element at index [i]. *)
Fixpoint remove_index {A : Type} (i : nat) (l : list A) : list A :=
  match l, i with
  | [], _ => []
  | _ :: r, O => r
  | a :: r, S i' => a :: remove_index i' r
  end.

(** The ordering as the specification words it, for comparison with
    [ptsToClockwiseRect]: top-left minimises [x+y], bottom-right maximises
    [x+y]; of the remaining two points, top-right minimises [x-y] and
    bottom-left maximises [x-y]. *)
Definition orderCorners_as_specified (pts : list Point) : result (list Point) :=
  let s := map row_sum pts in
  i0 <- argmin s ;;
  i2 <- argmax s ;;
  let rest := remove_index (Nat.min i0 i2) (remove_index (Nat.max i0 i2) pts) in
  let xmy := map (fun p : Point => fst p - snd p) rest in
  j1 <- argmin xmy ;;
  j3 <- argmax xmy ;;
  Ok [nth i0 pts origin; nth j1 rest origin; nth i2 pts origin; nth j3 rest origin].

(** The names the module binds at top level, in source order: the two
    imports and the two functions. *)
Definition module_names : list string :=
  ["np"; "cv2"; "ptsToClockwiseRect"; "perspectiveTransform"]%string.

End ProcessingTools.

(* ================================================================== *)
(** * processing/image_processing.py *)
(* ================================================================== *)

Module ImageProcessing.

Local Open Scope string_scope.

(** ** [build_masks] *)

(** What [build_masks_with_droplet] stands for here: one run of the external
    droplet over [imagefolder], its masks moved to [outputpath]. *)
Inductive MaskAction : Type :=
| DropletRun (imagefolder outputpath : string).

(** [build_masks(imagefolder, outputpath, mode, config)].  The comparison
    evaluates the class attribute [util.MaskingOptions.MASK_DROPLET] on every
    call. *)
Definition build_masks (imagefolder outputpath : string) (mode : Z)
  : result (list MaskAction) :=
  droplet <- getattr Util.MaskingOptions "MASK_DROPLET" ;;
  if (mode =? droplet)%Z then Ok [DropletRun imagefolder outputpath] else Ok [].

(** ** [process_image] *)

Record ProcessingConfig : Type := {
  Destination_Type : string
}.

Inductive FsAction : Type :=
| Mkdir (path : string)
| RawToTif (input outputname : string)
| RawToJpg (input outputname : string)
| ImageToJpg (input outputname : string).

Section Conversion.

Variable env : FsEnv.

Definition convert_CR2_to_TIF (input output : string)
  : list FsAction * result string :=
  let fn := path_stem env input in
  let outputname := path_join env output (fn ++ ".tif") in
  if decodable env input
  then ([RawToTif input outputname], Ok outputname)
  else ([], Raise OSError).

Definition convertToJPG (input output : string)
  : list FsAction * result string :=
  let fn := path_stem env input in
  let ext := upper (path_ext env input) in
  let outputname := path_join env output fn in
  if decodable env input
  then ([if ext =? ".CR2"
         then RawToJpg input (outputname ++ ".jpg")
         else ImageToJpg input (outputname ++ ".jpg")], Ok outputname)
  else ([], Raise OSError).

Definition process_image (filepath output : string) (config : ProcessingConfig)
  : list FsAction * result string :=
  let processedpath := "" in
  let made := if path_exists env output then [] else [Mkdir output] in
  let dest := upper (Destination_Type config) in
  let '(acts, r) :=
    if negb (endswith (upper filepath) dest) then
      if endswith (upper filepath) "CR2" then
        if dest =? ".TIF" then convert_CR2_to_TIF filepath output
        else if dest =? ".JPG" then convertToJPG filepath output
        else ([], Ok processedpath)
      else if endswith (upper filepath) "TIF" then
        if dest =? ".JPG" then convertToJPG filepath output
        else ([], Ok processedpath)
      else ([], Ok processedpath)
    else ([], Ok processedpath) in
  ((made ++ acts)%list, r).

End Conversion.

(** ** [get_exif_data] *)

(** A key of the returned mapping: a numeric tag code or a tag name. *)
Inductive Key : Type :=
| KCode (code : Z)
| KName (name : string).

Definition key_eqb (a b : Key) : bool :=
  match a, b with
  | KCode x, KCode y => (x =? y)%Z
  | KName x, KName y => (x =? y)%string
  | _, _ => false
  end.

(** The tables of [PIL.ExifTags] the function reads: [IFD] (code to name of
    the nested directories), [TAGS] and [GPSTAGS] (code to name).  They belong
    to the imaging library and are parameters here. *)
Record ExifTags : Type := {
  IFD : Z -> option string;
  TAGS : Z -> option string;
  GPSTAGS : Z -> option string
}.

Section Exif.

Variable V : Type.
Variable tables : ExifTags.

(** The object [pi.getexif()] returns: its top-level entries in iteration
    order, and [get_ifd]. *)
Record ExifObject : Type := {
  items : list (Z * V);
  get_ifd : Z -> list (Z * V)
}.

Definition Dict : Type := list (Key * V).

(** [d[k] = v]. *)
Fixpoint dict_set (d : Dict) (k : Key) (v : V) : Dict :=
  match d with
  | [] => [(k, v)]
  | (k', v') :: r =>
      if key_eqb k k' then (k, v) :: r else (k', v') :: dict_set r k v
  end.

(** [k in d]. *)
Definition dict_has (d : Dict) (k : Key) : bool :=
  existsb (fun e => key_eqb k (fst e)) d.

(** [d.get(k, default)]. *)
Fixpoint dict_get (d : Dict) (k : Key) (default : V) : V :=
  match d with
  | [] => default
  | (k', v') :: r => if key_eqb k k' then v' else dict_get r k default
  end.

Definition skiplist : list string := ["MakerNote"; "UserComment"].

(** A looked-up name that is [None] or empty is falsy for [or]. *)
Definition truthy_name (o : option string) : option string :=
  match o with
  | Some s => if s =? "" then None else Some s
  | None => None
  end.

(** [GPSTAGS.get(nk, None) or TAGS.get(nk, None) or nk]. *)
Definition nested_tag (nk : Z) : Key :=
  match truthy_name (GPSTAGS tables nk) with
  | Some s => KName s
  | None =>
      match truthy_name (TAGS tables nk) with
      | Some s => KName s
      | None => KCode nk
      end
  end.

(** [nested_tag in skiplist]. *)
Definition in_skiplist (k : Key) : bool :=
  match k with
  | KName s => existsb (String.eqb s) skiplist
  | KCode _ => false
  end.

(** The inner loop over [ifd_data.items()]. *)
Fixpoint flatten_ifd (exif : Dict) (ifd_data : list (Z * V)) : Dict :=
  match ifd_data with
  | [] => exif
  | (nk, nv) :: r =>
      let t := nested_tag nk in
      if in_skiplist t then flatten_ifd exif r
      else flatten_ifd (dict_set exif t nv) r
  end.

(** [ExifTags.TAGS.get(code, code)]. *)
Definition tagname (code : Z) : Key :=
  match TAGS tables code with
  | Some s => KName s
  | None => KCode code
  end.

(** The outer loop over [exif.items()].  The keys iterated are those the
    object held when the loop started; the value of a key is read when the
    loop reaches it. *)
Fixpoint flatten_items (e : ExifObject) (exif : Dict) (todo : list (Z * V)) : Dict :=
  match todo with
  | [] => exif
  | (code, val0) :: r =>
      let val := dict_get exif (KCode code) val0 in
      match IFD tables code with
      | Some _propname => flatten_items e (flatten_ifd exif (get_ifd e code)) r
      | None => flatten_items e (dict_set exif (tagname code) val) r
      end
  end.

Definition get_exif_data (e : ExifObject) : Dict :=
  let exif := map (fun cv => (KCode (fst cv), snd cv)) (items e) in
  flatten_items e exif (items e).

End Exif.

(** ** [findGray] *)

Section ColorCard.

Variable Pixel : Type.

(** A colour image as the array library holds it, of shape
    [(height, width, 3)]: [pixel r c] is the entry at row [r], column [c]. *)
Record Image : Type := {
  height : nat;
  width : nat;
  pixel : Z -> Z -> Pixel
}.

(** An index along an axis of length [n]: a negative index counts from the
    end, an index outside [-n .. n-1] is an [IndexError]. *)
Definition axis_index (n : nat) (i : Z) : result Z :=
  if ((0 <=? i) && (i <? Z.of_nat n))%Z then Ok i
  else if ((- Z.of_nat n <=? i) && (i <? 0))%Z then Ok (i + Z.of_nat n)%Z
  else Raise IndexError.

(** [findGray(colorcarddatacv2)].  [int(w/2)] and [int(w/8)] on sizes are
    the integer quotients. *)
Definition findGray (colorcarddatacv2 : Image) : result Pixel :=
  let h := Z.of_nat (height colorcarddatacv2) in
  let w := Z.of_nat (width colorcarddatacv2) in
  let midpoint := (w / 2, h / 2)%Z in
  let halfsquare := (w / 8)%Z in
  let graycoords :=
    (fst midpoint + 3 * halfsquare, snd midpoint - 3 * halfsquare)%Z in
  r <- axis_index (height colorcarddatacv2) (fst graycoords) ;;
  c <- axis_index (width colorcarddatacv2) (snd graycoords) ;;
  Ok (pixel colorcarddatacv2 r c).

(** ** [get_color_card_from_image] *)

(** What [detector.detectMarkers] returns: the four corners of each detected
    marker, and the marker ids ([None] when nothing was detected). *)
Record Detection : Type := {
  det_corners : list (list ProcessingTools.Point);
  det_ids : option (list Z)
}.

(** [np.where(ids == id)]: the indices holding [id], counted from [i]. *)
Fixpoint where_eq (ids : list Z) (id : Z) (i : nat) : list nat :=
  match ids with
  | [] => []
  | x :: r =>
      if (x =? id)%Z then i :: where_eq r id (S i) else where_eq r id (S i)
  end.

(** [np.squeeze(corners[np.squeeze(np.where(ids == id))])[k]]: the tuple of
    corners only takes a scalar index, that is, exactly one match. *)
Definition marker_corner (d : Detection) (ids : list Z) (id : Z) (k : nat)
  : result ProcessingTools.Point :=
  match where_eq ids id 0 with
  | [idindex] =>
      quad <- of_option IndexError (nth_error (det_corners d) idindex) ;;
      of_option IndexError (nth_error quad k)
  | _ => Raise TypeError
  end.

Variable Card : Type.

(** What the perspective warp called on the image and the four corners
    would return. *)
Variable warp : list ProcessingTools.Point -> Card.

(** [get_color_card_from_image], from the detector's answer on.  The value
    is Python's: [None] or the card. *)
Definition get_color_card_from_image (d : Detection) : result (option Card) :=
  ids <- of_option AttributeError (det_ids d) ;;
  try_except
    (topleft <- marker_corner d ids 2 0 ;;
     topright <- marker_corner d ids 3 1 ;;
     bottomright <- marker_corner d ids 0 2 ;;
     bottomleft <- marker_corner d ids 1 3 ;;
     _ <- module_getattr ProcessingTools.module_names "perspective_transform" ;;
     Ok (Some (warp [topleft; topright; bottomright; bottomleft])))
    (fun _ => Ok None).

End ColorCard.

End ImageProcessing.

(* ================================================================== *)
(** * The reconstruction engine's object model *)
(* ================================================================== *)

(** The scripts drive the engine through its document/chunk objects.  The
    objects are modelled by the attributes the scripts read and write; what
    the engine computes (alignment, detection, meshing, ...) is left to an
    [Engine] record of result functions, so every statement below holds for
    whatever the engine computes. *)

Module Metashape.

Local Open Scope Q_scope.

Record Vector : Type := mkVector { vx : Q; vy : Q; vz : Q }.

Definition Matrix : Type := list (list Q).

Inductive TargetType : Type :=
| CircularTarget
| CircularTarget12bit
| CircularTarget14bit
| CircularTarget16bit
| CircularTarget20bit
| CrossTarget.

(** [Metashape.TiePoints.Filter]'s criteria. *)
Inductive Criterion : Type :=
| ReprojectionError
| ReconstructionUncertainty
| ImageCount
| ProjectionAccuracy.

(** A tie point with the value each criterion assigns to it
    ([Filter.init] followed by [Filter.values]). *)
Record TiePoint : Type := {
  tp_id : nat;
  tp_value : Criterion -> Q
}.

Record Marker : Type := {
  marker_key : nat;
  marker_label : string;
  marker_position : Vector
}.

(** [==] on markers is identity of the engine object. *)
Definition marker_eqb (a b : Marker) : bool :=
  (marker_key a =? marker_key b)%nat.

Record Reference : Type := {
  distance : option Q;
  accuracy : option Q;
  enabled : bool
}.

Record Scalebar : Type := {
  point0 : Marker;
  point1 : Marker;
  reference : Reference
}.

(** A mesh: the face count of each connected component, and its textures
    (each by its size). *)
Record Model : Type := {
  components : list nat;
  textures : list Z
}.

Definition face_count (m : Model) : nat := list_sum (components m).

Record Accuracy : Type := {
  tiepoint_accuracy : Q;
  marker_projection_accuracy : Q;
  marker_location_accuracy : Vector
}.

Definition PointCloud : Type := nat.

Record Chunk : Type := {
  label : string;
  cameras : list string;
  masks : option string;
  point_cloud : option PointCloud;
  tie_points : list TiePoint;
  markers : list Marker;
  scalebars : list Scalebar;
  depth_maps : bool;
  model : option Model;
  transform : Matrix;
  region_center : Vector;
  chunk_accuracy : option Accuracy
}.

(** Attribute assignment. *)
Definition set_label (v : string) (c : Chunk) : Chunk :=
  Build_Chunk v (cameras c) (masks c) (point_cloud c) (tie_points c) (markers c)
    (scalebars c) (depth_maps c) (model c) (transform c) (region_center c)
    (chunk_accuracy c).
Definition set_cameras (v : list string) (c : Chunk) : Chunk :=
  Build_Chunk (label c) v (masks c) (point_cloud c) (tie_points c) (markers c)
    (scalebars c) (depth_maps c) (model c) (transform c) (region_center c)
    (chunk_accuracy c).
Definition set_masks (v : option string) (c : Chunk) : Chunk :=
  Build_Chunk (label c) (cameras c) v (point_cloud c) (tie_points c) (markers c)
    (scalebars c) (depth_maps c) (model c) (transform c) (region_center c)
    (chunk_accuracy c).
Definition set_point_cloud (v : option PointCloud) (c : Chunk) : Chunk :=
  Build_Chunk (label c) (cameras c) (masks c) v (tie_points c) (markers c)
    (scalebars c) (depth_maps c) (model c) (transform c) (region_center c)
    (chunk_accuracy c).
Definition set_tie_points (v : list TiePoint) (c : Chunk) : Chunk :=
  Build_Chunk (label c) (cameras c) (masks c) (point_cloud c) v (markers c)
    (scalebars c) (depth_maps c) (model c) (transform c) (region_center c)
    (chunk_accuracy c).
Definition set_markers (v : list Marker) (c : Chunk) : Chunk :=
  Build_Chunk (label c) (cameras c) (masks c) (point_cloud c) (tie_points c) v
    (scalebars c) (depth_maps c) (model c) (transform c) (region_center c)
    (chunk_accuracy c).
Definition set_scalebars (v : list Scalebar) (c : Chunk) : Chunk :=
  Build_Chunk (label c) (cameras c) (masks c) (point_cloud c) (tie_points c)
    (markers c) v (depth_maps c) (model c) (transform c) (region_center c)
    (chunk_accuracy c).
Definition set_depth_maps (v : bool) (c : Chunk) : Chunk :=
  Build_Chunk (label c) (cameras c) (masks c) (point_cloud c) (tie_points c)
    (markers c) (scalebars c) v (model c) (transform c) (region_center c)
    (chunk_accuracy c).
Definition set_model (v : option Model) (c : Chunk) : Chunk :=
  Build_Chunk (label c) (cameras c) (masks c) (point_cloud c) (tie_points c)
    (markers c) (scalebars c) (depth_maps c) v (transform c) (region_center c)
    (chunk_accuracy c).
Definition set_transform (v : Matrix) (c : Chunk) : Chunk :=
  Build_Chunk (label c) (cameras c) (masks c) (point_cloud c) (tie_points c)
    (markers c) (scalebars c) (depth_maps c) (model c) v (region_center c)
    (chunk_accuracy c).
Definition set_region_center (v : Vector) (c : Chunk) : Chunk :=
  Build_Chunk (label c) (cameras c) (masks c) (point_cloud c) (tie_points c)
    (markers c) (scalebars c) (depth_maps c) (model c) (transform c) v
    (chunk_accuracy c).
Definition set_chunk_accuracy_field (v : option Accuracy) (c : Chunk) : Chunk :=
  Build_Chunk (label c) (cameras c) (masks c) (point_cloud c) (tie_points c)
    (markers c) (scalebars c) (depth_maps c) (model c) (transform c)
    (region_center c) v.

(** What [doc.addChunk()] creates. *)
Definition identity_matrix : Matrix :=
  [[1; 0; 0; 0]; [0; 1; 0; 0]; [0; 0; 1; 0]; [0; 0; 0; 1]].

Definition empty_chunk : Chunk :=
  Build_Chunk ""%string [] None None [] [] [] false None identity_matrix
    (mkVector 0 0 0) None.

(** A document is the list [doc.chunks]. *)
Definition Document : Type := list Chunk.

(** What the engine computes.  Each function gives the new value of the
    attribute the call replaces. *)
Record Engine : Type := {
  eng_sqrt : Q -> Q;                                   (* math.sqrt *)
  eng_normalized : Vector -> Vector;                   (* Vector.normalize *)
  eng_aligned_cloud : Chunk -> option PointCloud;      (* alignCameras *)
  eng_aligned_points : Chunk -> list TiePoint;         (* alignCameras *)
  eng_detected : Chunk -> TargetType -> list Marker;   (* detectMarkers *)
  eng_refined : Chunk -> list Marker;                  (* refineMarkers *)
  eng_optimized : Chunk -> bool -> list TiePoint;      (* optimizeCameras *)
  eng_meshed : Chunk -> bool -> Z -> list nat;         (* buildModel *)
  eng_solved_transform : Chunk -> Matrix;              (* updateTransform *)
  eng_holes_closed : list nat -> list nat;             (* closeHoles *)
  eng_copied : Chunk -> Chunk;                         (* chunk.copy *)
  eng_decimated : Model -> Z -> Model;                 (* decimateModel *)
  eng_textured : Model -> Z -> list Z;                 (* buildTexture *)
  eng_region : Chunk -> Vector                         (* resetRegion *)
}.

(** One call into the engine (or one warning written to the log). *)
Inductive Event : Type :=
| EvWarning (msg : string)
| EvOpen (path : string)
| EvSave
| EvAddChunk
| EvAddPhotos (path : string)
| EvGenerateMasks (template : string)
| EvMatchPhotos (downscale : Z) (filter_mask : bool)
| EvAlignCameras
| EvRemoveMarkers
| EvDetectMarkers (target_type : TargetType)
| EvRefineMarkers
| EvOptimizeCameras (final_optimization : bool)
| EvSelectPoints (criterion : Criterion) (threshold : Q)
| EvRemoveSelectedPoints
| EvBuildDepthMaps (downscale : Z)
| EvBuildModel (custom : bool) (face_count_custom : Z)
| EvAddScalebar (key0 key1 : nat)
| EvSequentialScalebars
| EvUpdateTransform
| EvRemoveComponents (threshold : Z)
| EvCloseHoles
| EvCopyChunk
| EvDecimateModel (face_count : Z)
| EvBuildUV (page_count texture_size : Z)
| EvBuildTexture (texture_size : Z)
| EvSetTransform
| EvResetRegion
| EvExportModel (path : string) (embed_texture : bool).

(** ** Scripts: state, a log of engine calls, exceptions *)

(** A script acting on a state [S]: the calls it made, and either its value
    with the new state, or the exception that ended it. *)
Definition Act (S A : Type) : Type := S -> list Event * result (A * S).

Definition ret {S A : Type} (a : A) : Act S A :=
  fun s => ([], Ok (a, s)).

Definition bindA {S A B : Type} (m : Act S A) (k : A -> Act S B) : Act S B :=
  fun s =>
    match m s with
    | (ev, Ok (a, s')) => let '(ev', r) := k a s' in ((ev ++ ev')%list, r)
    | (ev, Raise e) => (ev, Raise e)
    end.

Definition emit {S : Type} (e : Event) : Act S unit :=
  fun s => ([e], Ok (tt, s)).

Definition get {S : Type} : Act S S :=
  fun s => ([], Ok (s, s)).

Definition modify {S : Type} (f : S -> S) : Act S unit :=
  fun s => ([], Ok (tt, f s)).

Definition raise {S A : Type} (e : PyError) : Act S A :=
  fun _ => ([], Raise e).

Definition lift {S A : Type} (r : result A) : Act S A :=
  fun s => match r with
           | Ok a => ([], Ok (a, s))
           | Raise e => ([], Raise e)
           end.

(** Replace the element at index [i]. *)
Fixpoint list_update {A : Type} (i : nat) (a : A) (l : list A) : list A :=
  match l, i with
  | [], _ => []
  | _ :: r, O => a :: r
  | x :: r, S i' => x :: list_update i' a r
  end.

(** Run a script on the chunk [doc.chunks[i]]. *)
Definition on_chunk {A : Type} (i : nat) (m : Act Chunk A) : Act Document A :=
  fun d =>
    match nth_error d i with
    | None => ([], Raise IndexError)
    | Some c =>
        match m c with
        | (ev, Ok (a, c')) => (ev, Ok (a, list_update i c' d))
        | (ev, Raise e) => (ev, Raise e)
        end
    end.

End Metashape.

Import Metashape.

Declare Scope act_scope.
Delimit Scope act_scope with act.
Notation "x <~ m ;; k" := (Metashape.bindA m (fun x => k))
  (at level 61, m at next level, right associativity) : act_scope.
Notation "m ;;; k" := (Metashape.bindA m (fun _ => k))
  (at level 61, right associativity) : act_scope.
Local Open Scope act_scope.

(* ================================================================== *)
(** * Configuration: config.json and MarkerPalettes.json *)
(* ================================================================== *)

Module Config.

Record ErrorThresholds : Type := {
  reconstruction_uncertainty : Q;
  reconstruction_uncertainty_max_selection : Q;
  projection_accuracy : Q;
  projection_accuracy_max_selection : Q;
  reprojection_error : Q;
  reprojection_max_selection : Q;
  reprojection_max_selection_per_iteration : Q
}.

(** The ["photogrammetry"] section.  The two keys the code probes with
    [in config.keys()] are optional. *)
Record Photogrammetry : Type := {
  output_path : string;
  mask_path : string;
  palette : option string;
  sparse_cloud_quality : Z;
  model_quality : Z;
  custom_face_count : option Z;
  low_res_poly_count : Z;
  texture_count : Z;
  texture_size : Z;
  export_as : string;
  error_thresholds : ErrorThresholds
}.

Record Axes : Type := {
  xpos : list Z;
  xneg : list Z;
  zpos : list Z;
  zneg : list Z
}.

(** One entry of a palette's scalebar list:
    [{"points": [pt1, pt2], "distance": x, "units": "cm"}]. *)
Record ScalebarDefinition : Type := {
  points : Z * Z;
  sb_distance : Q;
  units : string
}.

Record ScalebarScheme : Type := {
  scheme_type : string;
  bars : list ScalebarDefinition
}.

Record Palette : Type := {
  palette_type : string;
  axes : Axes;
  palette_scalebars : option ScalebarScheme
}.

(** [d[key]] on a dictionary with string keys. *)
Fixpoint lookup {A : Type} (key : string) (d : list (string * A)) : result A :=
  match d with
  | [] => Raise KeyError
  | (k, v) :: r => if String.eqb k key then Ok v else lookup key r
  end.

Definition Palettes : Type := list (string * Palette).

End Config.

Import Config.

(* ================================================================== *)
(** * photogrammetry/ModelHelpers.py *)
(* ================================================================== *)

Module ModelHelpers.

Local Open Scope string_scope.
Local Open Scope Q_scope.

(** [x > y] on floats. *)
Definition Qgtb (x y : Q) : bool := negb (Qle_bool x y).

Definition targetTypes : list (string * TargetType) :=
  [ ("Circular", CircularTarget);
    ("12bit", CircularTarget12bit);
    ("14bit", CircularTarget14bit);
    ("16bit", CircularTarget16bit);
    ("20bit", CircularTarget20bit);
    ("Cross", CrossTarget) ].

(** [for x in l: body(x)]. *)
Fixpoint for_each {S A : Type} (l : list A) (body : A -> Act S unit) : Act S unit :=
  match l with
  | [] => ret tt
  | x :: r => body x ;;; for_each r body
  end.

(** Apply [f] to the element at index [i]. *)
Fixpoint modify_nth {A : Type} (i : nat) (f : A -> A) (l : list A) : list A :=
  match l, i with
  | [], _ => []
  | x :: r, O => f x :: r
  | x :: r, S i' => x :: modify_nth i' f r
  end.

Definition set_chunk_accuracy : Act Chunk unit :=
  modify (set_chunk_accuracy_field
            (Some (Build_Accuracy (25 # 100) (5 # 10)
                     (mkVector (5 # 100000) (5 # 100000) (5 # 100000))))).

Definition convert_unit_to_meters (unit : string) (val : Q) : Q :=
  let unit := lower unit in
  if (unit =? "cm")%string then val * (1 # 100)
  else if (unit =? "mm")%string then val * (1 # 1000)
  else if (unit =? "km")%string then val * 100
  else val * 1.

(** ** [build_scalebars_from_list] *)

(** The loop over [chunk.markers] that looks for the two end points. *)
Fixpoint find_markers (ms : list Marker) (name1 name2 : string)
         (marker1 marker2 : option Marker) : option Marker * option Marker :=
  match ms with
  | [] => (marker1, marker2)
  | marker :: rest =>
      let '(marker1, marker2) :=
        if (marker_label marker =? name1)%string then (Some marker, marker2)
        else if (marker_label marker =? name2)%string then (marker1, Some marker)
        else (marker1, marker2) in
      match marker1, marker2 with
      | Some _, Some _ => (marker1, marker2)
      | _, _ => find_markers rest name1 name2 marker1 marker2
      end
  end.

(** The test of the loop over [chunk.scalebars], as written in the source. *)
Definition bar_matches (existingbar : Scalebar) (marker1 marker2 : Marker) : bool :=
  (marker_eqb (point0 existingbar) marker1 || marker_eqb (point0 existingbar) marker1)
  && (marker_eqb (point0 existingbar) marker2 || marker_eqb (point1 existingbar) marker2).

(** Index of the first existing bar that passes the test. *)
Fixpoint find_bar (bs : list Scalebar) (marker1 marker2 : Marker) (i : nat)
  : option nat :=
  match bs with
  | [] => None
  | existingbar :: rest =>
      if bar_matches existingbar marker1 marker2 then Some i
      else find_bar rest marker1 marker2 (S i)
  end.

(** What [chunk.addScalebar(marker1, marker2)] appends. *)
Definition new_scalebar (marker1 marker2 : Marker) : Scalebar :=
  Build_Scalebar marker1 marker2 (Build_Reference None None false).

Definition set_reference (d : Q) (sb : Scalebar) : Scalebar :=
  Build_Scalebar (point0 sb) (point1 sb)
    (Build_Reference (Some d) (Some (1 # 100000)) true).

(** The body of the loop over [scalebardefinitions]. *)
Definition apply_definition (definition : ScalebarDefinition) : Act Chunk unit :=
  chunk <~ get ;;
  let name1 := ("target " ++ str_of_Z (fst (points definition)))%string in
  let name2 := ("target " ++ str_of_Z (snd (points definition)))%string in
  match find_markers (markers chunk) name1 name2 None None with
  | (Some marker1, Some marker2) =>
      i <~ match find_bar (scalebars chunk) marker1 marker2 0 with
           | Some i => ret i
           | None =>
               emit (EvAddScalebar (marker_key marker1) (marker_key marker2)) ;;;
               modify (fun c => set_scalebars
                                  (scalebars c ++ [new_scalebar marker1 marker2])%list c) ;;;
               ret (List.length (scalebars chunk))
           end ;;
      modify (fun c =>
                set_scalebars
                  (modify_nth i
                     (set_reference
                        (convert_unit_to_meters (units definition)
                           (sb_distance definition)))
                     (scalebars c)) c)
  | _ => ret tt
  end.

Section WithEngine.

Variable eng : Engine.

Definition update_transform : Act Chunk unit :=
  emit EvUpdateTransform ;;;
  modify (fun c => set_transform (eng_solved_transform eng c) c).

Definition build_scalebars_from_list (scalebardefinitions : list ScalebarDefinition)
  : Act Chunk unit :=
  set_chunk_accuracy ;;;
  for_each scalebardefinitions apply_definition ;;;
  update_transform.

(** ** [cleanup_blobs] *)

(** [model.removeComponents(threshold)]: components of at most [threshold]
    faces go. *)
Definition remove_components (threshold : Z) (m : Model) : Model :=
  Build_Model (filter (fun n => (threshold <? Z.of_nat n)%Z) (components m))
    (textures m).

Definition cleanup_blobs : Act Chunk unit :=
  chunk <~ get ;;
  match model chunk with
  | Some m =>
      let threshold := Qfloor (inject_Z (Z.of_nat (face_count m)) * (6 # 10)) in
      emit (EvRemoveComponents threshold) ;;;
      modify (set_model (Some (remove_components threshold m)))
  | None => ret tt
  end.

(** ** [detect_markers] *)

Definition detect_markers (markertype : string) : Act Chunk unit :=
  set_chunk_accuracy ;;;
  chunk <~ get ;;
  (if (List.length (markers chunk) =? 0)%nat then ret tt
   else emit EvRemoveMarkers ;;; modify (set_markers [])) ;;;
  t <~ lift (lookup markertype targetTypes) ;;
  emit (EvDetectMarkers t) ;;;
  modify (fun c => set_markers (eng_detected eng c t) c) ;;;
  emit EvRefineMarkers ;;;
  modify (fun c => set_markers (eng_refined eng c) c).

(** ** [optimize_cameras] *)

Definition optimize_cameras (final_optimization : bool) : Act Chunk unit :=
  emit (EvOptimizeCameras final_optimization) ;;;
  modify (fun c => set_tie_points (eng_optimized eng c final_optimization) c).

(** ** [remove_above_error_threshold] *)

(** [errorvals.sort(reverse=True)]. *)
Fixpoint insert_desc (x : Q) (l : list Q) : list Q :=
  match l with
  | [] => [x]
  | y :: r => if Qle_bool y x then x :: l else y :: insert_desc x r
  end.

Definition sort_desc (l : list Q) : list Q := fold_right insert_desc [] l.

(** [errorfilter.selectPoints(v)] selects the points whose value lies above
    the threshold [v]; [tiepoints.removeSelectedPoints()] deletes them. *)
Definition selected (criterion : Criterion) (v : Q) (p : TiePoint) : bool :=
  Qgtb (tp_value p criterion) v.

Definition remove_selected (criterion : Criterion) (v : Q) (ps : list TiePoint)
  : list TiePoint :=
  filter (fun p => negb (selected criterion v p)) ps.

(** The loop [for i, v in enumerate(errorvals)], from index [i] on. *)
Fixpoint scan_errorvals (filtertype : Criterion) (max_error max_removal : Q)
         (errorvals : list Q) (i : nat) : Act Chunk bool :=
  match errorvals with
  | [] => ret false
  | v :: rest =>
      if Qgtb v max_error && Qle_bool (inject_Z (Z.of_nat i + 1)) max_removal
      then scan_errorvals filtertype max_error max_removal rest (S i)
      else
        emit (EvSelectPoints filtertype v) ;;;
        emit EvRemoveSelectedPoints ;;;
        modify (fun c => set_tie_points (remove_selected filtertype v (tie_points c)) c) ;;;
        ret (Qle_bool v max_error)
  end.

Definition remove_above_error_threshold (filtertype : Criterion)
           (max_error max_points : Q) : Act Chunk bool :=
  chunk <~ get ;;
  let tiepoints := tie_points chunk in
  let num_points := List.length tiepoints in
  let max_removal := inject_Z (Z.of_nat num_points) * max_points in
  let errorvals := sort_desc (map (fun p => tp_value p filtertype) tiepoints) in
  scan_errorvals filtertype max_error max_removal errorvals 0.

(** ** [refine_sparse_cloud] *)

(** The [while] loop of the reprojection phase.  The engine's optimisation
    decides how the errors evolve, so the loop is run on [fuel]. *)
Fixpoint reprojection_loop (fuel : nat) (thresholds : ErrorThresholds)
         (min_remaining_points : Q) (reachedgoal : bool) : Act Chunk unit :=
  chunk <~ get ;;
  let num_points := inject_Z (Z.of_nat (List.length (tie_points chunk))) in
  if Qgtb num_points min_remaining_points && negb reachedgoal then
    match fuel with
    | O => raise Nontermination
    | S fuel' =>
        reachedgoal <~ remove_above_error_threshold ReprojectionError
                         (reprojection_error thresholds)
                         (reprojection_max_selection_per_iteration thresholds) ;;
        optimize_cameras false ;;;
        reprojection_loop fuel' thresholds min_remaining_points reachedgoal
    end
  else ret tt.

Definition refine_sparse_cloud (fuel : nat) (config : Photogrammetry) : Act Chunk unit :=
  optimize_cameras false ;;;
  emit EvSave ;;;
  let thresholds := error_thresholds config in
  _ <~ remove_above_error_threshold ReconstructionUncertainty
         (reconstruction_uncertainty thresholds)
         (reconstruction_uncertainty_max_selection thresholds) ;;
  optimize_cameras false ;;;
  emit EvSave ;;;
  _ <~ remove_above_error_threshold ProjectionAccuracy
         (projection_accuracy thresholds)
         (projection_accuracy_max_selection thresholds) ;;
  optimize_cameras false ;;;
  emit EvSave ;;;
  chunk <~ get ;;
  let num_points := inject_Z (Z.of_nat (List.length (tie_points chunk))) in
  let min_remaining_points :=
    num_points - num_points * reprojection_max_selection thresholds in
  reprojection_loop fuel thresholds min_remaining_points false ;;;
  optimize_cameras true ;;;
  emit EvSave.

(** ** [find_axes_from_markers] *)

Variable palettes : Palettes.

(** [load_palettes()]: the content of [util/MarkerPalettes.json]. *)
Definition load_palettes : result Palettes := Ok palettes.

Definition vsub (a b : Vector) : Vector :=
  mkVector (vx a - vx b) (vy a - vy b) (vz a - vz b).

(** [Metashape.Vector.cross]. *)
Definition cross (a b : Vector) : Vector :=
  mkVector (vy a * vz b - vz a * vy b)
           (vz a * vx b - vx a * vz b)
           (vx a * vy b - vy a * vx b).

Definition mem_Z (n : Z) (l : list Z) : bool := existsb (Z.eqb n) l.

(** The loop over [chunk.markers] that fills [xaxis] and [zaxis]. *)
Fixpoint collect_axes (ms : list Marker) (a : Axes) (xaxis zaxis : list Vector)
  : result (list Vector * list Vector) :=
  match ms with
  | [] => Ok (xaxis, zaxis)
  | m :: rest =>
      (word <- of_option IndexError (nth_error (split (marker_label m)) 1) ;;
       lookforlabel <- int_of_str word ;;
       let '(xaxis, zaxis) :=
         if mem_Z lookforlabel (xpos a) || mem_Z lookforlabel (xneg a)
         then ((xaxis ++ [marker_position m])%list, zaxis)
         else if mem_Z lookforlabel (zpos a) || mem_Z lookforlabel (zneg a)
         then (xaxis, (zaxis ++ [marker_position m])%list)
         else (xaxis, zaxis) in
       if (2 <=? List.length xaxis)%nat && (2 <=? List.length zaxis)%nat
       then Ok (xaxis, zaxis)
       else collect_axes rest a xaxis zaxis)%py
  end.

(** The value is Python's: [None] after the bare [return], else the list
    [[ux, yaxis, uz]]. *)
Definition find_axes_from_markers (palette : string)
  : Act Chunk (option (list Vector)) :=
  pal <~ lift (ps <- load_palettes ;; lookup palette ps)%py ;;
  chunk <~ get ;;
  match markers chunk with
  | [] => ret None
  | _ :: _ =>
      xz <~ lift (collect_axes (markers chunk) (axes pal) [] []) ;;
      let '(xaxis, zaxis) := xz in
      x1 <~ lift (of_option IndexError (nth_error xaxis 1)) ;;
      x0 <~ lift (of_option IndexError (nth_error xaxis 0)) ;;
      let ux := vsub x1 x0 in
      z1 <~ lift (of_option IndexError (nth_error zaxis 1)) ;;
      z0 <~ lift (of_option IndexError (nth_error zaxis 0)) ;;
      let uz := vsub z1 z0 in
      let yaxis := cross uz ux in
      ret (Some [eng_normalized eng ux; eng_normalized eng yaxis;
                 eng_normalized eng uz])
  end.

(** ** [move_model_to_world_origin] and [align_markers_to_axes] *)

Definition dot (r c : list Q) : Q :=
  fold_right Qplus 0 (map (fun xy => fst xy * snd xy) (combine r c)).

Definition column (j : nat) (m : Matrix) : list Q :=
  map (fun r => nth j r 0) m.

Definition mat_mul (a b : Matrix) : Matrix :=
  map (fun r => map (fun j => dot r (column j b)) (seq 0 4)) a.

Definition entry (m : Matrix) (i j : nat) : Q := nth j (nth i m []) 0.

Definition reset_region : Act Chunk unit :=
  emit EvResetRegion ;;;
  modify (fun c => set_region_center (eng_region eng c) c).

(** [newtranslation.inv()]: the inverse of the translation by [c] is the
    translation by [-c]. *)
Definition translation_inv (c : Vector) : Matrix :=
  [[1; 0; 0; - vx c]; [0; 1; 0; - vy c]; [0; 0; 1; - vz c]; [0; 0; 0; 1]].

Definition move_model_to_world_origin : Act Chunk unit :=
  chunk <~ get ;;
  let regioncenter := region_center chunk in
  reset_region ;;;
  emit EvSetTransform ;;;
  modify (fun c => set_transform
                     (mat_mul (transform c) (translation_inv regioncenter)) c) ;;;
  reset_region.

Definition align_markers_to_axes (axes : list Vector) : Act Chunk unit :=
  chunk <~ get ;;
  let transmat := transform chunk in
  let scale :=
    eng_sqrt eng (entry transmat 0 0 * entry transmat 0 0
                  + entry transmat 0 1 * entry transmat 0 1
                  + entry transmat 0 2 * entry transmat 0 2) * 1000 in
  let scalematrix : Matrix :=
    [[scale; 0; 0; 0]; [0; scale; 0; 0]; [0; 0; scale; 0]; [0; 0; 0; 1]] in
  a0 <~ lift (of_option IndexError (nth_error axes 0)) ;;
  a1 <~ lift (of_option IndexError (nth_error axes 1)) ;;
  a2 <~ lift (of_option IndexError (nth_error axes 2)) ;;
  let newaxes : Matrix :=
    [[vx a0; vy a0; vz a0; 0]; [vx a1; vy a1; vz a1; 0];
     [vx a2; vy a2; vz a2; 0]; [0; 0; 0; 1]] in
  emit EvSetTransform ;;;
  modify (set_transform (mat_mul scalematrix newaxes)).

(** ** Helpers the orchestrator calls that this module does not define *)

(** Modelled from the spec: [close_holes] is called by the orchestrator and
    absent from the module; the specification has it close the mesh holes
    with the engine's native hole filling.  As [cleanup_blobs] does, it is
    taken to act only when the chunk has a mesh. *)
Definition close_holes : Act Chunk unit :=
  chunk <~ get ;;
  match model chunk with
  | Some m =>
      emit EvCloseHoles ;;;
      modify (set_model (Some (Build_Model (eng_holes_closed eng (components m))
                                 (textures m))))
  | None => ret tt
  end.

(** Modelled from the spec: [build_scalebars_from_sequential_targets] is
    absent from the module; the specification only names it as the
    sequential-target way of building the palette's scale bars.  [seq_bars]
    stands for the bars it leaves on the chunk. *)
Definition build_scalebars_from_sequential_targets
           (seq_bars : Chunk -> ScalebarScheme -> list Scalebar)
           (scheme : ScalebarScheme) : Act Chunk unit :=
  emit EvSequentialScalebars ;;;
  modify (fun c => set_scalebars (seq_bars c scheme) c).

End WithEngine.

End ModelHelpers.

(* ================================================================== *)
(** * photogrammetry/MetashapeTools.py *)
(* ================================================================== *)

Module MetashapeTools.

Local Open Scope string_scope.

(** What the run reads from outside the engine: the file system, the stored
    project (what [doc.open] loads), the palettes file, and two helpers the
    orchestrator calls in [ModelHelpers] that the module does not define:
    [seq_bars] (see [build_scalebars_from_sequential_targets]) and
    [get_export_filename], which the specification has compute the export
    file name from label, configuration and extension. *)
Record World : Type := {
  fs : FsEnv;
  stored : Document;
  palettes : Palettes;
  seq_bars : Chunk -> ScalebarScheme -> list Scalebar;
  get_export_filename : string -> Photogrammetry -> string -> string
}.

Section WithEngine.

Variable eng : Engine.
Variable w : World.

(** [len(x)] where [x] may be [None]. *)
Definition py_len {A : Type} (x : option (list A)) : result nat :=
  match x with
  | Some l => Ok (List.length l)
  | None => Raise TypeError
  end.

Definition reorient_model (config : Photogrammetry) : Act Chunk unit :=
  name <~ lift (of_option KeyError (palette config)) ;;
  axes <~ ModelHelpers.find_axes_from_markers eng (palettes w) name ;;
  n <~ lift (py_len axes) ;;
  if (n =? 0)%nat then
    emit (EvWarning "No axes on which to orient chunk")
  else
    ModelHelpers.align_markers_to_axes eng
      (match axes with Some l => l | None => [] end) ;;;
    ModelHelpers.move_model_to_world_origin eng.

Definition photo_extensions : list string := [".JPG"; ".TIFF"; ".TIF"].

Definition load_photos (projectdir photodir : string) : Act Chunk unit :=
  images <~ lift (listdir (fs w) photodir) ;;
  ModelHelpers.for_each images
    (fun i =>
       if existsb (String.eqb (upper (path_ext (fs w) i))) photo_extensions
       then
         emit (EvAddPhotos (path_join (fs w) photodir i)) ;;;
         modify (fun c => set_cameras
                            (cameras c ++ [path_join (fs w) photodir i])%list c)
       else ret tt).

Definition load_masks (maskpath : option string) (projectdir : string)
  : Act Chunk unit :=
  let missing :=
    match maskpath with
    | None => true
    | Some p => (p =? "") || negb (path_exists (fs w) (path_join (fs w) projectdir p))
    end in
  if missing then
    emit (EvWarning "Mask path doesn't exist or wasn't passed corectly")
  else
    let maskpath :=
      path_join (fs w) projectdir (match maskpath with Some p => p | None => "" end) in
    files <~ lift (listdir (fs w) maskpath) ;;
    match files with
    | [] => ret tt
    | first :: _ =>
        let ext := path_ext (fs w) first in
        let template := maskpath ++ "/" ++ "{filename}" ++ ext in
        emit (EvGenerateMasks template) ;;;
        modify (set_masks (Some template))
    end.

(** [label.replace(" ", "")]. *)
Fixpoint remove_spaces (s : string) : string :=
  match s with
  | EmptyString => EmptyString
  | String c r =>
      if Ascii.eqb c " "%char then remove_spaces r else String c (remove_spaces r)
  end.

(** [for c in doc.chunks: body(c)], by index. *)
Definition for_each_chunk (body : Act Chunk unit) : Act Document unit :=
  doc <~ get ;;
  ModelHelpers.for_each (seq 0 (List.length doc)) (fun i => on_chunk i body).

(** The body of the export loop. *)
Definition export_chunk (config : Photogrammetry) (outputpath : string)
  : Act Chunk unit :=
  (match palette config with
   | Some name => if negb (name =? "None") then reorient_model config else ret tt
   | None => ret tt
   end) ;;;
  c <~ get ;;
  let labelname := remove_spaces (label c) in
  let ext := export_as config in
  if negb (ext =? "none") then
    let outputtypes := if ext =? "all" then [".ply"; ".obj"] else [ext] in
    ModelHelpers.for_each outputtypes
      (fun extn =>
         let name := get_export_filename w labelname config extn in
         emit (EvExportModel (path_join (fs w) outputpath name ++ extn)
                 (extn =? "ply")))
  else ret tt.

(** The body of the texture loop. *)
Definition texture_chunk (config : Photogrammetry) : Act Chunk unit :=
  c <~ get ;;
  match model c with
  | None => raise AttributeError
  | Some m =>
      match textures m with
      | [] =>
          emit (EvBuildUV (texture_count config) (texture_size config)) ;;;
          emit (EvBuildTexture (texture_size config)) ;;;
          modify (set_model
                    (Some (Build_Model (components m)
                             (eng_textured eng m (texture_size config))))) ;;;
          emit EvSave
      | _ :: _ => ret tt
      end
  end.

(** [build_basic_model].  [fuel] bounds the refinement loop.  Creating the
    output directory is no engine call and leaves no event. *)
Definition build_basic_model (fuel : nat) (photodir projectname projectdir : string)
           (config : Photogrammetry) (decimate : bool) (maskoption : Z)
  : Act Document unit :=
  let projectpath := path_join (fs w) projectdir (projectname ++ ".psx") in
  let outputpath := path_join (fs w) projectdir (output_path config) in
  let maskpath := if negb (maskoption =? 0)%Z then Some (mask_path config) else None in
  palette <~ match palette config with
             | Some name =>
                 if negb (name =? "None")
                 then p <~ lift (ps <- ModelHelpers.load_palettes (palettes w) ;;
                                 lookup name ps)%py ;;
                      ret (Some p)
                 else ret None
             | None => ret None
             end ;;
  (* doc = Metashape.Document() *)
  modify (fun _ : Document => []) ;;;
  (if path_exists (fs w) projectpath
   then emit (EvOpen projectpath) ;;; modify (fun _ : Document => stored w)
   else ret tt) ;;;
  emit EvSave ;;;
  doc <~ get ;;
  (if (List.length doc =? 0)%nat
   then emit EvAddChunk ;;;
        modify (fun d : Document => (d ++ [set_label projectname empty_chunk])%list) ;;;
        emit EvSave
   else ret tt) ;;;
  (* build sparse cloud *)
  on_chunk 0
    (current_chunk <~ get ;;
     if (List.length (cameras current_chunk) =? 0)%nat
     then load_photos projectdir photodir ;;; load_masks maskpath projectdir
     else ret tt) ;;;
  on_chunk 0
    (current_chunk <~ get ;;
     match point_cloud current_chunk with
     | None =>
         emit (EvMatchPhotos (sparse_cloud_quality config)
                 (match maskpath with Some _ => true | None => false end)) ;;;
         emit EvAlignCameras ;;;
         modify (fun c => set_point_cloud (eng_aligned_cloud eng c)
                            (set_tie_points (eng_aligned_points eng c) c)) ;;;
         emit EvSave
     | Some _ => ret tt
     end) ;;;
  (* detect markers *)
  on_chunk 0
    (match palette with
     | Some p =>
         current_chunk <~ get ;;
         match markers current_chunk with
         | [] => ModelHelpers.detect_markers eng (palette_type p) ;;; emit EvSave
         | _ :: _ => ret tt
         end
     | None => ret tt
     end) ;;;
  on_chunk 0
    (current_chunk <~ get ;;
     match point_cloud current_chunk, model current_chunk with
     | Some _, None => ModelHelpers.refine_sparse_cloud eng fuel config ;;; emit EvSave
     | _, _ => ret tt
     end) ;;;
  (* build model *)
  on_chunk 0
    (current_chunk <~ get ;;
     match model current_chunk with
     | None =>
         let facecount := custom_face_count config in
         let targetfacecount :=
           match facecount with Some n => n | None => 200000%Z end in
         let custom := match facecount with Some _ => true | None => false end in
         emit (EvBuildDepthMaps (model_quality config)) ;;;
         modify (set_depth_maps true) ;;;
         emit (EvBuildModel custom targetfacecount) ;;;
         modify (fun c => set_model
                            (Some (Build_Model (eng_meshed eng c custom targetfacecount) []))
                            c) ;;;
         emit EvSave
     | Some _ => ret tt
     end) ;;;
  (* build scalebars *)
  on_chunk 0
    (match palette with
     | Some p =>
         current_chunk <~ get ;;
         match palette_scalebars p, scalebars current_chunk with
         | Some scheme, [] =>
             (if scheme_type scheme =? "explicit"
              then ModelHelpers.build_scalebars_from_list eng (bars scheme)
              else if scheme_type scheme =? "sequential"
              then ModelHelpers.build_scalebars_from_sequential_targets (seq_bars w) scheme
              else ret tt) ;;;
             emit EvSave
         | _, _ => ret tt
         end
     | None => ret tt
     end) ;;;
  (* remove blobs *)
  on_chunk 0 ModelHelpers.cleanup_blobs ;;;
  emit EvSave ;;;
  (* close holes *)
  on_chunk 0 (ModelHelpers.close_holes eng) ;;;
  emit EvSave ;;;
  (* decimate model *)
  doc <~ get ;;
  (if decimate && (List.length doc <? 2)%nat
   then
     current_chunk <~ on_chunk 0 get ;;
     emit EvCopyChunk ;;;
     let lowpoly := Z.quot (low_res_poly_count config) 1000 in
     let newchunk :=
       set_label (label current_chunk ++ " lowpoly " ++ str_of_Z lowpoly ++ "K")
         (eng_copied eng current_chunk) in
     modify (fun d : Document => (d ++ [newchunk])%list) ;;;
     on_chunk (List.length doc)
       (emit (EvDecimateModel (low_res_poly_count config)) ;;;
        c <~ get ;;
        match model c with
        | None => raise RuntimeError
        | Some m =>
            modify (set_model (Some (eng_decimated eng m (low_res_poly_count config))))
        end)
   else ret tt) ;;;
  (* build texture for each chunk *)
  for_each_chunk (texture_chunk config) ;;;
  (* reorient model and export *)
  for_each_chunk (export_chunk config outputpath).

End WithEngine.

End MetashapeTools.

(* ================================================================== *)
(** * Vocabulary of the statements *)
(* ================================================================== *)

(** ** EXIF flattening: what reaches the mapping under a key *)

Module ExifSpec.

Import ImageProcessing.

Section Contributions.

Variable V : Type.
Variable tables : ExifTags.

(** A nested entry reaches the mapping under [k] when its tag is [k] and is
    not on the skip list. *)
Definition lands (k : Key) (entry : Z * V) : bool :=
  negb (in_skiplist (nested_tag tables (fst entry)))
  && key_eqb k (nested_tag tables (fst entry)).

(** What one top-level entry contributes under the key [k]. *)
Definition contributes (e : ExifObject V) (k : Key) (entry : Z * V) : bool :=
  match IFD tables (fst entry) with
  | Some _ => existsb (lands k) (get_ifd e (fst entry))
  | None => key_eqb k (tagname tables (fst entry))
  end.

End Contributions.

(** What the imaging library's tables hold for the maker note:
    [ExifTags.IFD] has the member Makernote, of value 37500, among the nested
    directories, and [ExifTags.TAGS] gives the name MakerNote to the code
    37500 and to no other. *)
Definition makernote_is_directory (t : ExifTags) : Prop :=
  IFD t 37500 <> None
  /\ forall code : Z, TAGS t code = Some "MakerNote"%string -> code = 37500%Z.

End ExifSpec.

(** ** Tie-point values *)

(** The position [i + 1] the scan compares with the budget. *)
Definition position (i : nat) : Q := inject_Z (Z.of_nat i + 1).

(** Descending order. *)
Definition desc (a b : Q) : Prop := (b <= a)%Q.

(** The values a criterion gives to the points of a chunk. *)
Definition values (filtertype : Criterion) (c : Chunk) : list Q :=
  map (fun p => tp_value p filtertype) (tie_points c).

(** ** Stages of the build, and what a script may call *)

Inductive Stage : Type :=
| StLog          (* a warning written to the log *)
| StProject      (* open, save, add chunk *)
| StLoad         (* photos and masks *)
| StMatch        (* matching and alignment *)
| StMarkers
| StRefine       (* camera optimisation and tie-point removal *)
| StMesh         (* depth maps and mesh *)
| StScalebars
| StCleanup
| StHoles
| StDecimate     (* duplicate chunk and decimation *)
| StTexture      (* UV atlas and texture *)
| StReorient
| StExport.

Definition stage_of (e : Event) : Stage :=
  match e with
  | EvWarning _ => StLog
  | EvOpen _ | EvSave | EvAddChunk => StProject
  | EvAddPhotos _ | EvGenerateMasks _ => StLoad
  | EvMatchPhotos _ _ | EvAlignCameras => StMatch
  | EvRemoveMarkers | EvDetectMarkers _ | EvRefineMarkers => StMarkers
  | EvOptimizeCameras _ | EvSelectPoints _ _ | EvRemoveSelectedPoints => StRefine
  | EvBuildDepthMaps _ | EvBuildModel _ _ => StMesh
  | EvAddScalebar _ _ | EvSequentialScalebars | EvUpdateTransform => StScalebars
  | EvRemoveComponents _ => StCleanup
  | EvCloseHoles => StHoles
  | EvCopyChunk | EvDecimateModel _ => StDecimate
  | EvBuildUV _ _ | EvBuildTexture _ => StTexture
  | EvSetTransform | EvResetRegion => StReorient
  | EvExportModel _ _ => StExport
  end.

(** Every call of the trace belongs to a stage [ok] admits. *)
Definition confined_to (ok : Stage -> bool) (trace : list Event) : Prop :=
  Forall (fun e => ok (stage_of e) = true) trace.

(** [m], started in a state satisfying [P], only makes calls of the stages
    [ok] admits, and leaves a state satisfying [Q] when it returns. *)
Definition triple {S A : Type} (P : S -> Prop) (m : Act S A)
           (ok : Stage -> bool) (Q : A -> S -> Prop) : Prop :=
  forall s, P s ->
    Forall (fun e => ok (stage_of e) = true) (fst (m s))
    /\ forall a s', snd (m s) = Ok (a, s') -> Q a s'.

(** [m] only makes calls of the stages [ok] admits, whatever the state. *)
Definition emits_only {S A : Type} (ok : Stage -> bool) (m : Act S A) : Prop :=
  forall s, Forall (fun e => ok (stage_of e) = true) (fst (m s)).

(** The chunk has a mesh carrying a texture. *)
Definition textured (c : Chunk) : Prop :=
  exists m, model c = Some m /\ textures m <> [].

(** [c'] has the photos, point cloud and mesh of [c]. *)
Definition keeps_artifacts (c c' : Chunk) : Prop :=
  cameras c' = cameras c /\ point_cloud c' = point_cloud c /\ model c' = model c.

(** The palette a run works with is the configured one. *)
Definition configured (w : MetashapeTools.World) (config : Photogrammetry)
           (po : option Palette) : Prop :=
  forall p, po = Some p ->
    exists name, palette config = Some name /\ name <> "None"%string
                 /\ lookup name (MetashapeTools.palettes w) = Ok p.

(** No photo loading, matching, alignment, refinement, depth maps or mesh. *)
Definition no_rebuild (s : Stage) : bool :=
  match s with
  | StLoad | StMatch | StRefine | StMesh => false
  | _ => true
  end.

(** Neither those, nor a duplicate chunk, decimation, UV atlas or texture. *)
Definition no_rebuild_no_texture (s : Stage) : bool :=
  match s with
  | StLoad | StMatch | StRefine | StMesh | StDecimate | StTexture => false
  | _ => true
  end.

(** Only project open/save, blob cleanup, hole closing, reorientation and
    export, and the warnings these log. *)
Definition rerun_only (s : Stage) : bool :=
  match s with
  | StLog | StProject | StCleanup | StHoles | StReorient | StExport => true
  | _ => false
  end.

(* ================================================================== *)
(** * Sample data *)
(* ================================================================== *)

Definition demo_fs : FsEnv :=
  Build_FsEnv (fun _ => true) (fun _ => Ok []) (fun a b => (a ++ "/" ++ b)%string)
    (fun p => p) (fun _ => ""%string) (fun _ => true).

(** The unit square, clockwise from the origin (image coordinates). *)
Definition square : list ProcessingTools.Point :=
  [(0, 0); (10, 0); (10, 10); (0, 10)]%Q.

(** An excerpt of the library's tables: the nested directories of [IFD]
    (Exif, GPSInfo, Makernote, Interop), three names of [TAGS] and one of
    [GPSTAGS]. *)
Definition demo_tables : ImageProcessing.ExifTags :=
  ImageProcessing.Build_ExifTags
    (fun c => if (c =? 34665)%Z then Some "Exif"%string
              else if (c =? 34853)%Z then Some "GPSInfo"%string
              else if (c =? 37500)%Z then Some "Makernote"%string
              else if (c =? 40965)%Z then Some "Interop"%string
              else None)
    (fun c => if (c =? 271)%Z then Some "Make"%string
              else if (c =? 34853)%Z then Some "GPSInfo"%string
              else if (c =? 37500)%Z then Some "MakerNote"%string
              else None)
    (fun c => if (c =? 2)%Z then Some "GPSLatitude"%string else None).

(** A tag set with one nested directory (GPS, holding GPSLatitude), a
    top-level MakerNote and a top-level Make. *)
Definition demo_exif : ImageProcessing.ExifObject string :=
  ImageProcessing.Build_ExifObject
    [(34853%Z, "offset"%string); (37500%Z, "blob"%string);
     (271%Z, "Canon"%string)]
    (fun c => if (c =? 34853)%Z then [(2%Z, "41.88"%string)] else []).

(** A chunk whose tie points carry the given error values, in order. *)
Definition point_with (i : nat) (e : Q) : TiePoint :=
  Build_TiePoint i (fun _ => e).

Definition population (errors : list Q) : Chunk :=
  set_tie_points (map (fun ie => point_with (fst ie) (snd ie))
                    (combine (seq 0 (List.length errors)) errors))
    empty_chunk.

(** 100 points with errors 100, 99, ..., 1: five lie above 95. *)
Definition graded_errors : list Q :=
  map (fun i => inject_Z (Z.of_nat (100 - i))) (seq 0 100).

(** 100 points of which five share the error 9 and the others have error 1:
    five lie above 5. *)
Definition tied_errors : list Q :=
  (repeat 9 5 ++ repeat 1 95)%Q.

(** An engine that changes as little as an engine can. *)
Definition demo_engine : Engine :=
  Build_Engine
    (fun q => q) (fun v => v)
    (fun _ => Some 0%nat) (fun _ => [])
    (fun _ _ => []) (fun c => markers c)
    (fun c _ => tie_points c)
    (fun _ _ n => [Z.to_nat n])
    (fun c => transform c)
    (fun l => l)
    (fun c => c)
    (fun m n => Build_Model [Z.to_nat n] (textures m))
    (fun _ size => [size])
    (fun c => region_center c).

Definition demo_thresholds : ErrorThresholds :=
  Build_ErrorThresholds 10 (1 # 2) 3 (1 # 2) (3 # 10) (1 # 10) (1 # 10).

Definition demo_config (pal : option string) : Photogrammetry :=
  Build_Photogrammetry "out" "masks" pal 1 4 None 50000 1 4096 "none"
    demo_thresholds.

(** A chunk built to the end: photos, cloud, textured mesh. *)
Definition built_chunk (name : string) : Chunk :=
  set_label name
    (set_cameras ["a.jpg"%string; "b.jpg"%string]
       (set_point_cloud (Some 0%nat)
          (set_model (Some (Build_Model [900%nat; 100%nat] [4096%Z]))
             empty_chunk))).

Definition demo_palette : Palette :=
  Build_Palette "12bit" (Build_Axes [1%Z; 2%Z] [] [3%Z; 4%Z] []) None.

Definition demo_world (d : Document) : MetashapeTools.World :=
  MetashapeTools.Build_World demo_fs d [("demo"%string, demo_palette)]
    (fun c _ => scalebars c) (fun l _ _ => l).

Definition target (n : nat) : Marker :=
  Build_Marker n ("target " ++ str_of_Z (Z.of_nat n)) (mkVector 0 0 0).

Definition two_markers : Chunk := set_markers [target 1; target 2] empty_chunk.

Definition bar_1_2 : ScalebarDefinition :=
  Build_ScalebarDefinition (1, 2)%Z 10 "cm".

Definition bar_2_1 : ScalebarDefinition :=
  Build_ScalebarDefinition (2, 1)%Z 10 "cm".

(** The end points of each scale bar of a chunk, by marker key. *)
Definition bar_ends (c : Chunk) : list (nat * nat) :=
  map (fun b => (marker_key (point0 b), marker_key (point1 b))) (scalebars c).

(* ================================================================== *)
(** * Vocabulary of the further properties *)
(* ================================================================== *)

(** ** Calls of a script *)

(** Every call [m] makes, from whatever state, satisfies [P]. *)
Definition calls_only {S A : Type} (P : Event -> Prop) (m : Act S A) : Prop :=
  forall s, Forall P (fst (m s)).

(** [doc.save()] and the final camera optimisation, in a list of calls. *)
Definition is_save (e : Event) : bool :=
  match e with EvSave => true | _ => false end.

Definition is_final_optimization (e : Event) : bool :=
  match e with EvOptimizeCameras true => true | _ => false end.

(** ** Scale bars *)

(** The end points of a scale bar, by marker key. *)
Definition ends (b : Scalebar) : nat * nat :=
  (marker_key (point0 b), marker_key (point1 b)).

(** The existing-bar test of [build_scalebars_from_list], read on the end
    points of a bar. *)
Definition ends_match (marker1 marker2 : Marker) (e : nat * nat) : bool :=
  ((fst e =? marker_key marker1)%nat || (fst e =? marker_key marker1)%nat)
  && ((fst e =? marker_key marker2)%nat || (snd e =? marker_key marker2)%nat).

(** The label a definition gives to a target number. *)
Definition target_name (n : Z) : string := ("target " ++ str_of_Z n)%string.

(** The two markers a definition names, when the chunk has both. *)
Definition named_markers (c : Chunk) (d : ScalebarDefinition)
  : option (Marker * Marker) :=
  match ModelHelpers.find_markers (markers c) (target_name (fst (points d)))
          (target_name (snd (points d))) None None with
  | (Some marker1, Some marker2) => Some (marker1, marker2)
  | _ => None
  end.

(** The definition [d] finds a bar of [c] to reuse (or names markers [c]
    does not have). *)
Definition covered (c : Chunk) (d : ScalebarDefinition) : Prop :=
  match named_markers c d with
  | Some (marker1, marker2) =>
      existsb (ends_match marker1 marker2) (bar_ends c) = true
  | None => True
  end.

(** The [addScalebar] calls that add bars with the given end points. *)
Definition add_calls (added : list (nat * nat)) : list Event :=
  map (fun e => EvAddScalebar (fst e) (snd e)) added.

(** A definition the chunk cannot use: both points are the same target, or
    one of the targets is not among the chunk's markers. *)
Definition unusable (c : Chunk) (d : ScalebarDefinition) : Prop :=
  fst (points d) = snd (points d)
  \/ ~ In (target_name (fst (points d))) (map marker_label (markers c))
  \/ ~ In (target_name (snd (points d))) (map marker_label (markers c)).

(** ** Axes and transforms *)

(** The number a marker label carries: [int(label.split()[1])]. *)
Definition label_number (m : Marker) : result Z :=
  word <- of_option IndexError (nth_error (split (marker_label m)) 1) ;;
  int_of_str word.

(** The palette lists a target number on its x axis; on its z axis (and not
    on the x axis, which is tested first). *)
Definition on_x_axis (a : Axes) (n : Z) : bool :=
  ModelHelpers.mem_Z n (xpos a) || ModelHelpers.mem_Z n (xneg a).

Definition on_z_axis (a : Axes) (n : Z) : bool :=
  negb (on_x_axis a n)
  && (ModelHelpers.mem_Z n (zpos a) || ModelHelpers.mem_Z n (zneg a)).

(** The image of a point under a 4x4 transform (homogeneous coordinate 1). *)
Definition transform_point (m : Matrix) (v : Vector) : Vector :=
  let h := [vx v; vy v; vz v; 1%Q] in
  mkVector (ModelHelpers.dot (nth 0 m []) h) (ModelHelpers.dot (nth 1 m []) h)
    (ModelHelpers.dot (nth 2 m []) h).

(** Equality of vectors, coordinate by coordinate. *)
Definition Veq (a b : Vector) : Prop :=
  (vx a == vx b /\ vy a == vy b /\ vz a == vz b)%Q.

(** ** Photos and exports *)

(** The extension test of [load_photos]. *)
Definition is_photo (env : FsEnv) (i : string) : bool :=
  existsb (String.eqb (upper (path_ext env i))) MetashapeTools.photo_extensions.

(** The [exportModel] calls of a list of calls: path and [embed_texture]. *)
Definition exports (trace : list Event) : list (string * bool) :=
  flat_map (fun e => match e with
                     | EvExportModel path embed_texture => [(path, embed_texture)]
                     | _ => []
                     end) trace.

(** ** Masks *)

(** What mask generation and photo matching may be called with, given the
    mask option and whether the mask directory exists: masks are generated
    only when the option is on and the directory exists; photos are matched
    with [filter_mask] set exactly when the option is on. *)
Definition mask_use (maskoption : Z) (mask_dir_exists : bool) (e : Event) : Prop :=
  match e with
  | EvGenerateMasks _ => maskoption <> 0%Z /\ mask_dir_exists = true
  | EvMatchPhotos _ filter_mask => filter_mask = negb (maskoption =? 0)%Z
  | _ => True
  end.

(** A selection of tie points by reprojection error. *)
Definition selects_by_reprojection (e : Event) : bool :=
  match e with
  | EvSelectPoints ReprojectionError _ => true
  | _ => false
  end.

Definition is_optimization (e : Event) : bool :=
  match e with EvOptimizeCameras _ => true | _ => false end.

(** ** Further sample data *)

(** A 4000 x 3000 image (width x height). *)
Definition landscape_image : ImageProcessing.Image nat :=
  ImageProcessing.Build_Image 3000 4000 (fun r c => Z.to_nat (r + c)).

(** Four targets, two on each axis of [demo_palette], around a region
    centred at (1, 2, 3). *)
Definition axis_markers : Chunk :=
  set_region_center (mkVector 1 2 3)
    (set_markers
       [ Build_Marker 1 "target 1" (mkVector 0 0 0);
         Build_Marker 2 "target 2" (mkVector 2 0 0);
         Build_Marker 3 "target 3" (mkVector 0 0 0);
         Build_Marker 4 "target 4" (mkVector 0 0 5) ]
       empty_chunk).

(** [demo_palette] with the positive and negative lists of each axis
    exchanged. *)
Definition mirrored_palette : Palette :=
  Build_Palette "12bit" (Build_Axes [] [1%Z; 2%Z] [] [3%Z; 4%Z]) None.

(** Thresholds whose [reprojection_max_selection] is 0. *)
Definition no_reprojection_thresholds : ErrorThresholds :=
  Build_ErrorThresholds 10 (1 # 2) 3 (1 # 2) (3 # 10) 0 (1 # 10).

(* ================================================================== *)
(** * Proofs *)
(* ================================================================== *)

(* ================================================================== *)
(** * Proofs: util and image processing *)
(* ================================================================== *)

Section StringFacts.

Lemma list_ascii_of_map_string (f : ascii -> ascii) (s : string) :
  list_ascii_of_string (map_string f s) = map f (list_ascii_of_string s).
Proof.
  induction s as [| c r IH]; simpl.
  - reflexivity.
  - now rewrite IH.
Qed.

Lemma rev_upper (s : string) :
  rev (list_ascii_of_string (upper s))
  = map upper_ascii (rev (list_ascii_of_string s)).
Proof.
  unfold upper. rewrite list_ascii_of_map_string. now rewrite map_rev.
Qed.

Lemma prefixb_app (p l : list ascii) :
  prefixb p l = true -> exists t, l = (p ++ t)%list.
Proof.
  revert l. induction p as [| a p IH]; intros l H.
  - now exists l.
  - destruct l as [| b l]; simpl in H; [discriminate |].
    apply andb_true_iff in H. destruct H as [Hab Hp].
    apply Ascii.eqb_eq in Hab. subst b.
    destruct (IH _ Hp) as [t ->]. now exists t.
Qed.

Lemma endswith_rev (s suffix : string) :
  endswith s suffix = true ->
  exists t, rev (list_ascii_of_string s)
            = (rev (list_ascii_of_string suffix) ++ t)%list.
Proof. apply prefixb_app. Qed.

End StringFacts.

(** Every path that ends in the four-letter extension, in either case, has an
    upper-cased form ending in ".TIFF". *)
Lemma upper_tiff_rev (filepath : string) :
  endswith filepath ".TIFF" = true \/ endswith filepath ".tiff" = true ->
  exists t, rev (list_ascii_of_string (upper filepath))
            = ("F" :: "F" :: "I" :: "T" :: "." :: t)%char.
Proof.
  intros [H | H]; apply endswith_rev in H; destruct H as [t Ht];
    rewrite rev_upper, Ht; exists (map upper_ascii t); reflexivity.
Qed.

(** C10.  A source path ending in ".TIFF" or ".tiff", with the configured
    [Destination_Type] ".JPG", is converted by nothing: [process_image] only
    creates the output directory when it is missing and returns the empty
    string.  The upper-cased path ends in "IFF", so neither the "CR2" nor the
    "TIF" branch is taken. *)
Theorem process_image_four_letter_tiff :
  forall (env : FsEnv) (filepath output : string)
         (config : ImageProcessing.ProcessingConfig),
    ImageProcessing.Destination_Type config = ".JPG"%string ->
    endswith filepath ".TIFF" = true \/ endswith filepath ".tiff" = true ->
    ImageProcessing.process_image env filepath output config
    = (if path_exists env output then [] else [ImageProcessing.Mkdir output],
       Ok ""%string).
Proof.
  intros env filepath output config Hdest Hext.
  destruct (upper_tiff_rev filepath Hext) as [t Ht].
  unfold ImageProcessing.process_image. rewrite Hdest.
  unfold endswith. rewrite Ht. simpl.
  now rewrite app_nil_r.
Qed.

Lemma process_image_four_letter_tiff_witness :
  ImageProcessing.process_image demo_fs "scan01.tiff" "out"
    (ImageProcessing.Build_ProcessingConfig ".JPG")
  = ([], Ok ""%string).
Proof.
  apply (process_image_four_letter_tiff demo_fs "scan01.tiff" "out"
           (ImageProcessing.Build_ProcessingConfig ".JPG")).
  - reflexivity.
  - right. reflexivity.
Defined.

Lemma MaskingOptions_has_no_MASK_DROPLET :
  getattr Util.MaskingOptions "MASK_DROPLET" = Raise AttributeError.
Proof. reflexivity. Qed.

(** C8.  Whatever the mode, [build_masks] raises [AttributeError]: the
    comparison reads [MaskingOptions.MASK_DROPLET], a constant the class does
    not define, so neither the dispatch to the droplet routine nor the silent
    return is reached. *)
Theorem build_masks_raises_AttributeError :
  forall (imagefolder outputpath : string) (mode : Z),
    ImageProcessing.build_masks imagefolder outputpath mode = Raise AttributeError.
Proof.
  intros. unfold ImageProcessing.build_masks.
  now rewrite MaskingOptions_has_no_MASK_DROPLET.
Qed.

(* ================================================================== *)
(** * Proofs: EXIF flattening *)
(* ================================================================== *)

Section ExifFacts.

Import ImageProcessing ExifSpec.

Variable V : Type.
Variable tables : ExifTags.

Lemma key_eqb_eq (a b : Key) : key_eqb a b = true <-> a = b.
Proof.
  destruct a, b; simpl; split; intros H; try discriminate; try congruence.
  - apply Z.eqb_eq in H. now subst.
  - injection H as ->. apply Z.eqb_refl.
  - apply String.eqb_eq in H. now subst.
  - injection H as ->. apply String.eqb_refl.
Qed.

Lemma key_eqb_refl (a : Key) : key_eqb a a = true.
Proof. now apply key_eqb_eq. Qed.

Lemma dict_has_set (d : Dict V) (k k' : Key) (v : V) :
  dict_has (dict_set d k v) k' = key_eqb k' k || dict_has d k'.
Proof.
  unfold dict_has.
  induction d as [| [k0 v0] d IH]; simpl.
  - reflexivity.
  - destruct (key_eqb k k0) eqn:E; simpl.
    + apply key_eqb_eq in E. subst k0.
      now destruct (key_eqb k' k).
    + rewrite IH.
      destruct (key_eqb k' k0), (key_eqb k' k); reflexivity.
Qed.

Lemma dict_has_flatten_ifd (ifd_data : list (Z * V)) (d : Dict V) (k : Key) :
  dict_has (flatten_ifd tables d ifd_data) k
  = dict_has d k || existsb (lands tables k) ifd_data.
Proof.
  revert d. induction ifd_data as [| [nk nv] r IH]; intros d; simpl.
  - now rewrite orb_false_r.
  - unfold lands at 1. simpl.
    destruct (in_skiplist (nested_tag tables nk)); simpl.
    + apply IH.
    + rewrite IH, dict_has_set.
      now rewrite orb_assoc, (orb_comm (key_eqb _ _)).
Qed.

Lemma dict_has_flatten_items (e : ExifObject V) (todo : list (Z * V))
      (d : Dict V) (k : Key) :
  dict_has (flatten_items tables e d todo) k
  = dict_has d k || existsb (contributes tables e k) todo.
Proof.
  revert d. induction todo as [| [code val] r IH]; intros d; simpl.
  - now rewrite orb_false_r.
  - unfold contributes at 1. simpl.
    destruct (IFD tables code); rewrite IH.
    + now rewrite dict_has_flatten_ifd, orb_assoc.
    + rewrite dict_has_set.
      now rewrite orb_assoc, (orb_comm (key_eqb _ _)).
Qed.

Lemma initial_keys_are_codes (l : list (Z * V)) (name : string) :
  dict_has (map (fun cv => (KCode (fst cv), snd cv)) l) (KName name) = false.
Proof.
  unfold dict_has. induction l as [| [c v] l IH]; simpl; auto.
Qed.

Lemma dict_has_get_exif_data (e : ExifObject V) (name : string) :
  dict_has (get_exif_data tables e) (KName name)
  = existsb (contributes tables e (KName name)) (items e).
Proof.
  unfold get_exif_data.
  now rewrite dict_has_flatten_items, initial_keys_are_codes.
Qed.

Lemma skipped_never_lands (name : string) (entry : Z * V) :
  In name skiplist -> lands tables (KName name) entry = false.
Proof.
  intros Hin. unfold lands.
  destruct (key_eqb (KName name) (nested_tag tables (fst entry))) eqn:E.
  - apply key_eqb_eq in E. rewrite <- E. simpl.
    destruct Hin as [<- | [<- | []]]; reflexivity.
  - apply andb_false_r.
Qed.

(** A sub-tag of a nested directory becomes a key of the mapping under its
    name, unless the name is on the skip list. *)
Lemma nested_name_is_key (e : ExifObject V) (name : string)
      (code nk : Z) (val nv : V) :
  In (code, val) (items e) -> IFD tables code <> None ->
  In (nk, nv) (get_ifd e code) ->
  nested_tag tables nk = KName name ->
  in_skiplist (KName name) = false ->
  dict_has (get_exif_data tables e) (KName name) = true.
Proof.
  intros Hin Hifd Hnk Htag Hskip.
  rewrite dict_has_get_exif_data. apply existsb_exists.
  exists (code, val). split; [assumption |].
  unfold contributes. simpl.
  destruct (IFD tables code); [| congruence].
  apply existsb_exists. exists (nk, nv). split; [assumption |].
  unfold lands. cbn [fst]. rewrite Htag, Hskip. apply key_eqb_refl.
Qed.

(** The skip list is applied to the sub-tags of nested directories: a name
    on it is a key of the mapping exactly when a top-level entry that is no
    directory pointer carries that name. *)
Lemma skipped_name_is_key (e : ExifObject V) (name : string) :
  In name skiplist ->
  dict_has (get_exif_data tables e) (KName name) = true
  <-> exists code val,
        In (code, val) (items e) /\ IFD tables code = None
        /\ TAGS tables code = Some name.
Proof.
  intros Hskip. rewrite dict_has_get_exif_data. split.
  - intros H. apply existsb_exists in H. destruct H as [[code val] [Hin Hc]].
    unfold contributes in Hc. cbn [fst] in Hc.
    destruct (IFD tables code) eqn:Hifd.
    + apply existsb_exists in Hc. destruct Hc as [entry [_ Hl]].
      rewrite skipped_never_lands in Hl; [discriminate | assumption].
    + exists code, val. repeat split; try assumption.
      unfold tagname in Hc. apply key_eqb_eq in Hc.
      destruct (TAGS tables code); congruence.
  - intros [code [val [Hin [Hifd Htags]]]].
    apply existsb_exists. exists (code, val). split; [assumption |].
    unfold contributes, tagname. cbn [fst]. rewrite Hifd, Htags.
    apply key_eqb_refl.
Qed.

(** C7.  With the library's tables, where the maker note's code 37500 is a
    member of [IFD] and the only code [TAGS] names MakerNote: for every tag
    set that has a nested directory with a sub-tag named GPSLatitude, the
    flattened mapping has the key GPSLatitude and has no key MakerNote.
    This holds whether or not a top-level tag carries the maker note's code:
    such a tag takes the directory branch, which stores no name for it, and a
    sub-tag of that name is on the skip list. *)
Theorem get_exif_data_flattening :
  makernote_is_directory tables ->
  forall (e : ExifObject V) (code nk : Z) (val nv : V),
    In (code, val) (items e) -> IFD tables code <> None ->
    In (nk, nv) (get_ifd e code) ->
    nested_tag tables nk = KName "GPSLatitude" ->
    dict_has (get_exif_data tables e) (KName "GPSLatitude") = true
    /\ dict_has (get_exif_data tables e) (KName "MakerNote") = false.
Proof.
  intros [Hmember Honly] e code nk val nv Hin Hifd Hnk Htag. split.
  - now apply (@nested_name_is_key e "GPSLatitude"%string code nk val nv).
  - apply not_true_is_false. intros H.
    apply skipped_name_is_key in H; [| now left].
    destruct H as [mcode [mval [_ [Hnone Hname]]]].
    apply Honly in Hname. subst mcode. contradiction.
Qed.

End ExifFacts.

Lemma get_exif_data_flattening_witness :
  ImageProcessing.dict_has
    (ImageProcessing.get_exif_data demo_tables demo_exif)
    (ImageProcessing.KName "GPSLatitude") = true
  /\ ImageProcessing.dict_has
       (ImageProcessing.get_exif_data demo_tables demo_exif)
       (ImageProcessing.KName "MakerNote") = false.
Proof.
  apply (@get_exif_data_flattening string demo_tables) with
    (code := 34853%Z) (val := "offset"%string) (nk := 2%Z) (nv := "41.88"%string).
  - split; [discriminate |].
    intros code. cbn [ImageProcessing.TAGS demo_tables].
    destruct (code =? 271)%Z; [discriminate |].
    destruct (code =? 34853)%Z; [discriminate |].
    destruct (code =? 37500)%Z eqn:E; [| discriminate].
    intros _. now apply Z.eqb_eq.
  - left. reflexivity.
  - discriminate.
  - left. reflexivity.
  - reflexivity.
Defined.

(* ================================================================== *)
(** * Proofs: corner ordering *)
(* ================================================================== *)

Section CornerFacts.

Import ProcessingTools.
Local Open Scope Q_scope.

Lemma argmin_ne_spec (l : list Q) :
  forall v,
    (argmin_ne v l < List.length (v :: l))%nat
    /\ forall x, In x (v :: l) -> nth (argmin_ne v l) (v :: l) 0 <= x.
Proof.
  induction l as [| w r IH]; intros v.
  - split; [simpl; lia |].
    intros x [<- | []]. simpl. apply Qle_refl.
  - destruct (IH w) as [Hlt Hmin].
    cbn [argmin_ne].
    destruct (Qle_bool v (nth (argmin_ne w r) (w :: r) 0)) eqn:E.
    + split; [simpl; lia |].
      apply Qle_bool_iff in E.
      intros x [<- | Hx]; cbn [nth].
      * apply Qle_refl.
      * eapply Qle_trans; [exact E | now apply Hmin].
    + split; [simpl in *; lia |].
      assert (Hv : nth (argmin_ne w r) (w :: r) 0 < v).
      { apply Qnot_le_lt. intros H. apply Qle_bool_iff in H. congruence. }
      intros x [<- | Hx].
      * change (nth (argmin_ne w r) (w :: r) 0 <= v). now apply Qlt_le_weak.
      * change (nth (argmin_ne w r) (w :: r) 0 <= x). now apply Hmin.
Qed.

Lemma argmax_ne_spec (l : list Q) :
  forall v,
    (argmax_ne v l < List.length (v :: l))%nat
    /\ forall x, In x (v :: l) -> x <= nth (argmax_ne v l) (v :: l) 0.
Proof.
  induction l as [| w r IH]; intros v.
  - split; [simpl; lia |].
    intros x [<- | []]. simpl. apply Qle_refl.
  - destruct (IH w) as [Hlt Hmax].
    cbn [argmax_ne].
    destruct (Qle_bool (nth (argmax_ne w r) (w :: r) 0) v) eqn:E.
    + split; [simpl; lia |].
      apply Qle_bool_iff in E.
      intros x [<- | Hx]; cbn [nth].
      * apply Qle_refl.
      * eapply Qle_trans; [now apply Hmax | exact E].
    + split; [simpl in *; lia |].
      assert (Hv : v < nth (argmax_ne w r) (w :: r) 0).
      { apply Qnot_le_lt. intros H. apply Qle_bool_iff in H. congruence. }
      intros x [<- | Hx].
      * change (v <= nth (argmax_ne w r) (w :: r) 0). now apply Qlt_le_weak.
      * change (x <= nth (argmax_ne w r) (w :: r) 0). now apply Hmax.
Qed.

(** The row picked by an arg-extremum of a per-row score. *)
Lemma nth_map_score (score : Point -> Q) (pts : list Point) (i : nat) :
  (i < List.length pts)%nat ->
  nth i (map score pts) 0 = score (nth i pts origin).
Proof.
  intros Hi. rewrite (nth_indep _ 0 (score origin)).
  - apply map_nth.
  - now rewrite length_map.
Qed.

Lemma argmin_picks (score : Point -> Q) (p : Point) (pts : list Point) :
  exists i, argmin (map score (p :: pts)) = Ok i
            /\ In (nth i (p :: pts) origin) (p :: pts)
            /\ forall q, In q (p :: pts) -> score (nth i (p :: pts) origin) <= score q.
Proof.
  cbn [map argmin].
  destruct (argmin_ne_spec (map score pts) (score p)) as [Hlt Hmin].
  change (score p :: map score pts) with (map score (p :: pts)) in *.
  rewrite length_map in Hlt.
  eexists. split; [reflexivity |]. split.
  - now apply nth_In.
  - intros q Hq. rewrite <- nth_map_score by assumption.
    apply Hmin. now apply in_map.
Qed.

Lemma argmax_picks (score : Point -> Q) (p : Point) (pts : list Point) :
  exists i, argmax (map score (p :: pts)) = Ok i
            /\ In (nth i (p :: pts) origin) (p :: pts)
            /\ forall q, In q (p :: pts) -> score q <= score (nth i (p :: pts) origin).
Proof.
  cbn [map argmax].
  destruct (argmax_ne_spec (map score pts) (score p)) as [Hlt Hmax].
  change (score p :: map score pts) with (map score (p :: pts)) in *.
  rewrite length_map in Hlt.
  eexists. split; [reflexivity |]. split.
  - now apply nth_In.
  - intros q Hq. rewrite <- nth_map_score by assumption.
    apply Hmax. now apply in_map.
Qed.

(** C3, as amended.  For a non-empty point set the result is
    [top-left; top-right; bottom-right; bottom-left] where, over all the
    points, top-left minimises [x+y], bottom-right maximises [x+y], top-right
    minimises [y-x] (so it maximises [x-y]) and bottom-left maximises [y-x]. *)
Theorem ptsToClockwiseRect_extremes :
  forall pts : list Point,
    pts <> [] ->
    exists tl tr br bl : Point,
      ptsToClockwiseRect pts = Ok [tl; tr; br; bl]
      /\ In tl pts /\ In tr pts /\ In br pts /\ In bl pts
      /\ forall q, In q pts ->
           fst tl + snd tl <= fst q + snd q
           /\ fst q + snd q <= fst br + snd br
           /\ snd tr - fst tr <= snd q - fst q
           /\ snd q - fst q <= snd bl - fst bl.
Proof.
  intros [| p pts] Hne; [congruence |].
  destruct (argmin_picks row_sum p pts) as [i0 [E0 [I0 M0]]].
  destruct (argmax_picks row_sum p pts) as [i2 [E2 [I2 M2]]].
  destruct (argmin_picks row_diff p pts) as [i1 [E1 [I1 M1]]].
  destruct (argmax_picks row_diff p pts) as [i3 [E3 [I3 M3]]].
  exists (nth i0 (p :: pts) origin), (nth i1 (p :: pts) origin),
         (nth i2 (p :: pts) origin), (nth i3 (p :: pts) origin).
  split.
  - unfold ptsToClockwiseRect. rewrite E0, E2, E1, E3. reflexivity.
  - repeat (split; [assumption |]).
    intros q Hq. repeat split.
    + apply (M0 q Hq).
    + apply (M2 q Hq).
    + apply (M1 q Hq).
    + apply (M3 q Hq).
Qed.

End CornerFacts.

Lemma ptsToClockwiseRect_extremes_witness :
  exists tl tr br bl : ProcessingTools.Point,
    ProcessingTools.ptsToClockwiseRect square = Ok [tl; tr; br; bl]
    /\ In tl square /\ In tr square /\ In br square /\ In bl square
    /\ forall q, In q square ->
         (fst tl + snd tl <= fst q + snd q
          /\ fst q + snd q <= fst br + snd br
          /\ snd tr - fst tr <= snd q - fst q
          /\ snd q - fst q <= snd bl - fst bl)%Q.
Proof.
  apply (ptsToClockwiseRect_extremes (pts := square)). discriminate.
Defined.

(** On the square the source puts (10,0) second and (0,10) last.  Of the two
    points left once (0,0) and (10,10) are taken, (10,0) is the one with the
    larger [x - y], and the ordering as worded would put (0,10) second. *)
Lemma ptsToClockwiseRect_top_right_maximises_x_minus_y :
  ProcessingTools.ptsToClockwiseRect square
  = Ok [(0, 0); (10, 0); (10, 10); (0, 10)]%Q
  /\ (0 - 10 < 10 - 0)%Q
  /\ ProcessingTools.orderCorners_as_specified square
     = Ok [(0, 0); (0, 10); (10, 10); (10, 0)]%Q
  /\ ProcessingTools.ptsToClockwiseRect square
     <> ProcessingTools.orderCorners_as_specified square.
Proof.
  split; [reflexivity |]. split; [reflexivity |]. split; [reflexivity |].
  intros H. vm_compute in H. discriminate.
Qed.

(* ================================================================== *)
(** * Proofs: unit conversion *)
(* ================================================================== *)

Section UnitFacts.

Import ModelHelpers.
Local Open Scope Q_scope.

(** C5, as amended.  The unit is compared after lower-casing: "cm" gives
    [val * 0.01], "mm" gives [val * 0.001], "km" gives [val * 100], and a unit
    whose lower-case form is none of these gives [val] unchanged; in
    particular 250 cm is 2.5, 50 mm is 0.05 and 1 km is 100. *)
Theorem convert_unit_to_meters_cases :
  forall (unit : string) (val : Q),
    (lower unit = "cm"%string -> convert_unit_to_meters unit val == val * (1 # 100))
    /\ (lower unit = "mm"%string -> convert_unit_to_meters unit val == val * (1 # 1000))
    /\ (lower unit = "km"%string -> convert_unit_to_meters unit val == val * 100)
    /\ (lower unit <> "cm"%string -> lower unit <> "mm"%string ->
        lower unit <> "km"%string -> convert_unit_to_meters unit val == val)
    /\ convert_unit_to_meters "cm" 250 == 25 # 10
    /\ convert_unit_to_meters "mm" 50 == 5 # 100
    /\ convert_unit_to_meters "km" 1 == 100.
Proof.
  intros unit val. unfold convert_unit_to_meters.
  repeat split; try reflexivity.
  - intros ->. reflexivity.
  - intros ->. reflexivity.
  - intros ->. reflexivity.
  - intros Hcm Hmm Hkm.
    apply String.eqb_neq in Hcm, Hmm, Hkm. rewrite Hcm, Hmm, Hkm.
    apply Qmult_1_r.
Qed.

End UnitFacts.

Lemma convert_unit_to_meters_cases_witness :
  (ModelHelpers.convert_unit_to_meters "Cm" 250 == 250 * (1 # 100))%Q.
Proof.
  exact (proj1 (convert_unit_to_meters_cases "Cm" 250) eq_refl).
Defined.

Lemma convert_unit_to_meters_uppercase_unit :
  "CM"%string <> "cm"%string /\ "CM"%string <> "mm"%string
  /\ "CM"%string <> "km"%string
  /\ (ModelHelpers.convert_unit_to_meters "CM" 250 == 25 # 10)%Q
  /\ ~ (ModelHelpers.convert_unit_to_meters "CM" 250 == 250)%Q.
Proof.
  repeat split; try discriminate.
Qed.

(* ================================================================== *)
(** * Proofs: error-threshold removal *)
(* ================================================================== *)

Section ThresholdFacts.

Import ModelHelpers.
Local Open Scope Q_scope.

(** ** Comparisons *)

Lemma Qgtb_true (x y : Q) : Qgtb x y = true <-> y < x.
Proof.
  unfold Qgtb. rewrite negb_true_iff. split; intros H.
  - apply Qnot_le_lt. intros Hle. apply Qle_bool_iff in Hle. congruence.
  - destruct (Qle_bool x y) eqn:E; [| reflexivity].
    apply Qle_bool_iff in E. exfalso. now apply (Qlt_not_le y x).
Qed.

Lemma Qgtb_false (x y : Q) : Qgtb x y = false <-> x <= y.
Proof.
  unfold Qgtb. rewrite negb_false_iff. apply Qle_bool_iff.
Qed.

Lemma Qle_bool_false (x y : Q) : Qle_bool x y = false <-> y < x.
Proof.
  rewrite <- Qgtb_true. unfold Qgtb. now rewrite negb_true_iff.
Qed.

Lemma position_le (i j : nat) : (i < j)%nat -> position i <= inject_Z (Z.of_nat j).
Proof.
  intros H. unfold position. rewrite <- Zle_Qle. lia.
Qed.

(** ** The sort *)

Lemma insert_desc_perm (x : Q) (l : list Q) : Permutation (x :: l) (insert_desc x l).
Proof.
  induction l as [| y r IH]; simpl.
  - apply Permutation_refl.
  - destruct (Qle_bool y x).
    + apply Permutation_refl.
    + eapply perm_trans; [apply perm_swap |]. now apply perm_skip.
Qed.

Lemma sort_desc_perm (l : list Q) : Permutation l (sort_desc l).
Proof.
  induction l as [| x r IH]; simpl.
  - apply perm_nil.
  - eapply perm_trans; [apply perm_skip, IH |]. apply insert_desc_perm.
Qed.

Lemma insert_desc_sorted (x : Q) (l : list Q) :
  StronglySorted desc l -> StronglySorted desc (insert_desc x l).
Proof.
  induction 1 as [| y r Hs IH Hall]; simpl.
  - constructor; constructor.
  - destruct (Qle_bool y x) eqn:E.
    + apply Qle_bool_iff in E. constructor.
      * now constructor.
      * constructor; [exact E |].
        eapply Forall_impl; [| exact Hall].
        intros z Hz. unfold desc in *. eapply Qle_trans; eauto.
    + apply Qle_bool_false in E. constructor; [exact IH |].
      eapply Permutation_Forall; [apply insert_desc_perm |].
      constructor; [| exact Hall].
      unfold desc. now apply Qlt_le_weak.
Qed.

Lemma sort_desc_sorted (l : list Q) : StronglySorted desc (sort_desc l).
Proof.
  induction l as [| x r IH]; simpl.
  - constructor.
  - now apply insert_desc_sorted.
Qed.

Lemma sort_desc_length (l : list Q) : List.length (sort_desc l) = List.length l.
Proof. symmetry. apply Permutation_length, sort_desc_perm. Qed.

(** ** Counting over permutations *)

Lemma filter_length_perm (g : Q -> bool) (l l' : list Q) :
  Permutation l l' -> List.length (filter g l) = List.length (filter g l').
Proof.
  induction 1 as [| x l l' _ IH | x y l | l l' l'' _ IH1 _ IH2]; simpl.
  - reflexivity.
  - destruct (g x); simpl; congruence.
  - destruct (g x), (g y); reflexivity.
  - congruence.
Qed.

Lemma filter_length_map (A : Type) (val : A -> Q) (g : Q -> bool) (l : list A) :
  List.length (filter (fun p => g (val p)) l) = List.length (filter g (map val l)).
Proof.
  induction l as [| a l IH]; simpl; [reflexivity |].
  destruct (g (val a)); simpl; congruence.
Qed.

(** ** Shape of a descending list around a threshold *)

Lemma sorted_split (E : Q) (s : list Q) :
  StronglySorted desc s ->
  exists pre suf,
    s = (pre ++ suf)%list
    /\ Forall (fun x => E < x) pre
    /\ Forall (fun x => x <= E) suf.
Proof.
  induction 1 as [| a r Hs IH Hall].
  - exists [], []. repeat split; constructor.
  - destruct (Qlt_le_dec E a) as [Hgt | Hle].
    + destruct IH as [pre [suf [-> [Hpre Hsuf]]]].
      exists (a :: pre), suf. repeat split; [| assumption].
      now constructor.
    + exists [], (a :: r). repeat split; [constructor |].
      constructor; [assumption |].
      eapply Forall_impl; [| exact Hall].
      intros z Hz. unfold desc in Hz. eapply Qle_trans; eauto.
Qed.

Lemma filter_all (g : Q -> bool) (l : list Q) :
  Forall (fun x => g x = true) l -> filter g l = l.
Proof.
  induction 1 as [| x l Hx _ IH]; simpl; [reflexivity |].
  now rewrite Hx, IH.
Qed.

Lemma filter_none (g : Q -> bool) (l : list Q) :
  Forall (fun x => g x = false) l -> filter g l = [].
Proof.
  induction 1 as [| x l Hx _ IH]; simpl; [reflexivity |].
  now rewrite Hx, IH.
Qed.

Lemma above_count_split (E : Q) (pre suf : list Q) :
  Forall (fun x => E < x) pre -> Forall (fun x => x <= E) suf ->
  List.length (filter (fun x => Qgtb x E) (pre ++ suf)) = List.length pre.
Proof.
  intros Hpre Hsuf. rewrite filter_app, length_app.
  rewrite filter_all, filter_none; [simpl; lia | |].
  - eapply Forall_impl; [| exact Hsuf]. intros x Hx. now apply Qgtb_false.
  - eapply Forall_impl; [| exact Hpre]. intros x Hx. now apply Qgtb_true.
Qed.

(** ** The scan *)

Variable filtertype : Criterion.
Variables max_error max_removal : Q.

(** The scan passes over a run of values above the threshold as long as the
    budget lasts. *)
Lemma scan_passes (pre rest : list Q) (i : nat) (c : Chunk) :
  Forall (fun x => max_error < x) pre ->
  (pre = [] \/ inject_Z (Z.of_nat (i + List.length pre)) <= max_removal) ->
  scan_errorvals filtertype max_error max_removal (pre ++ rest)%list i c
  = scan_errorvals filtertype max_error max_removal rest (i + List.length pre) c.
Proof.
  revert i. induction pre as [| v pre IH]; intros i Hall Hb.
  - simpl. now rewrite Nat.add_0_r.
  - destruct Hb as [Hb | Hb]; [discriminate |].
    inversion Hall as [| ? ? Hv Hpre]; subst.
    cbn [app scan_errorvals].
    assert (Hgt : Qgtb v max_error = true) by now apply Qgtb_true.
    assert (Hpos : Qle_bool (inject_Z (Z.of_nat i + 1)) max_removal = true).
    { apply Qle_bool_iff. eapply Qle_trans; [| exact Hb].
      apply (position_le (i := i)). simpl. lia. }
    rewrite Hgt, Hpos. cbn [andb].
    rewrite IH; [| assumption |].
    + f_equal. simpl. lia.
    + right. replace (S i + List.length pre)%nat
        with (i + List.length (v :: pre))%nat by (simpl; lia).
      exact Hb.
Qed.

(** Where the scan stops, it selects above the stopping value, deletes, and
    reports whether the stopping value is within the error bound. *)
Lemma scan_stops (v : Q) (rest : list Q) (i : nat) (c : Chunk) :
  Qgtb v max_error && Qle_bool (inject_Z (Z.of_nat i + 1)) max_removal = false ->
  scan_errorvals filtertype max_error max_removal (v :: rest) i c
  = ([EvSelectPoints filtertype v; EvRemoveSelectedPoints],
     Ok (Qle_bool v max_error,
         set_tie_points (remove_selected filtertype v (tie_points c)) c)).
Proof.
  intros H. cbn [scan_errorvals]. rewrite H. reflexivity.
Qed.


Lemma sorted_app_cross (l1 l2 : list Q) :
  StronglySorted desc (l1 ++ l2)%list ->
  forall x y, In x l1 -> In y l2 -> y <= x.
Proof.
  induction l1 as [| a l1 IH]; intros Hs x y Hx Hy; [destruct Hx |].
  inversion Hs as [| ? ? Hs' Hall]; subst.
  destruct Hx as [<- | Hx].
  - rewrite Forall_forall in Hall. apply Hall, in_or_app. now right.
  - now apply IH.
Qed.

Lemma sorted_app_tail (l1 l2 : list Q) :
  StronglySorted desc (l1 ++ l2)%list -> StronglySorted desc l2.
Proof.
  induction l1 as [| a l1 IH]; intros Hs; [exact Hs |].
  inversion Hs; subst. now apply IH.
Qed.

Lemma sorted_head_max (v : Q) (l : list Q) :
  StronglySorted desc (v :: l) -> forall x, In x (v :: l) -> x <= v.
Proof.
  intros Hs x [<- | Hx]; [apply Qle_refl |].
  inversion Hs as [| ? ? _ Hall]; subst.
  rewrite Forall_forall in Hall. now apply Hall.
Qed.

(** ** The values of a chunk's points, sorted *)

Lemma value_in_sorted (c : Chunk) (p : TiePoint) :
  In p (tie_points c) -> In (tp_value p filtertype) (sort_desc (values filtertype c)).
Proof.
  intros Hp. eapply Permutation_in; [apply sort_desc_perm |].
  unfold values.
  now apply (in_map (fun q : TiePoint => tp_value q filtertype)).
Qed.

Lemma count_above (c : Chunk) (E : Q) :
  List.length (filter (fun p => Qgtb (tp_value p filtertype) E) (tie_points c))
  = List.length (filter (fun x => Qgtb x E) (sort_desc (values filtertype c))).
Proof.
  rewrite (filter_length_map (fun p => tp_value p filtertype) (fun x => Qgtb x E)).
  apply filter_length_perm, sort_desc_perm.
Qed.

Lemma remove_selected_keeps (v : Q) (ps : list TiePoint) :
  remove_selected filtertype v ps
  = filter (fun p => Qle_bool (tp_value p filtertype) v) ps.
Proof.
  unfold remove_selected, selected, Qgtb. apply filter_ext.
  intros p. apply negb_involutive.
Qed.

End ThresholdFacts.

Section RemovalFacts.

Import ModelHelpers.
Local Open Scope Q_scope.

Variable f : Criterion.
Variables max_error max_points : Q.
Variable c : Chunk.

Let pts := tie_points c.
Let n := List.length pts.
Let budget := inject_Z (Z.of_nat n) * max_points.
Let vals := sort_desc (values f c).
Let k := List.length (filter (fun p => Qgtb (tp_value p f) max_error) pts).

Lemma run_remove :
  remove_above_error_threshold f max_error max_points c
  = scan_errorvals f max_error budget vals 0 c.
Proof.
  unfold remove_above_error_threshold, bindA, get.
  fold (values f c). fold pts. fold n. fold budget. fold vals.
  now destruct (scan_errorvals f max_error budget vals 0 c).
Qed.

(** The values above [max_error] are the first [k] of the sorted values. *)
Lemma vals_shape :
  exists pre suf,
    vals = (pre ++ suf)%list
    /\ List.length pre = k
    /\ Forall (fun x => max_error < x) pre
    /\ Forall (fun x => x <= max_error) suf.
Proof.
  destruct (sorted_split max_error (sort_desc_sorted (values f c)))
    as [pre [suf [Hv [Hpre Hsuf]]]].
  exists pre, suf. repeat split; try assumption.
  unfold k, pts. rewrite count_above. fold vals. unfold vals at 1. rewrite Hv.
  symmetry. now apply above_count_split.
Qed.

Lemma vals_length : List.length vals = n.
Proof.
  unfold vals, values. now rewrite sort_desc_length, length_map.
Qed.

(** The scan runs off the end when every value is above the bound and the
    budget covers them all. *)
Lemma scan_exhausts :
  (forall p, In p pts -> max_error < tp_value p f) ->
  inject_Z (Z.of_nat n) <= budget ->
  remove_above_error_threshold f max_error max_points c = ([], Ok (false, c)).
Proof.
  intros Hall Hbudget. rewrite run_remove.
  rewrite <- (app_nil_r vals).
  rewrite scan_passes.
  - reflexivity.
  - apply Forall_forall. intros x Hx.
    apply (Permutation_in _ (Permutation_sym (sort_desc_perm (values f c)))) in Hx.
    unfold values in Hx. apply in_map_iff in Hx. destruct Hx as [p [<- Hp]].
    now apply Hall.
  - right. rewrite vals_length. exact Hbudget.
Qed.

(** Stop on the error condition. *)
Lemma error_stop :
  (k = 0%nat \/ inject_Z (Z.of_nat k) <= budget) -> (k < n)%nat ->
  nth k vals 0 <= max_error
  /\ remove_above_error_threshold f max_error max_points c
     = ([EvSelectPoints f (nth k vals 0); EvRemoveSelectedPoints],
        Ok (true,
            set_tie_points
              (filter (fun p => Qle_bool (tp_value p f) max_error) pts) c)).
Proof.
  intros Hk Hkn.
  destruct vals_shape as [pre [suf [Hv [Hlen [Hpre Hsuf]]]]].
  assert (Hn : List.length vals = n) by apply vals_length.
  destruct suf as [| v rest].
  { rewrite Hv, app_nil_r in Hn. lia. }
  assert (Hnth : nth k vals 0 = v).
  { rewrite Hv, app_nth2 by lia. now replace (k - List.length pre)%nat with 0%nat by lia. }
  assert (HvE : v <= max_error) by now inversion Hsuf.
  rewrite Hnth. split; [exact HvE |].
  rewrite run_remove, Hv, scan_passes; [| assumption |].
  - rewrite scan_stops.
    + apply Qle_bool_iff in HvE as HvE'. rewrite HvE'.
      rewrite remove_selected_keeps. fold pts.
      replace (filter (fun p => Qle_bool (tp_value p f) v) pts)
        with (filter (fun p => Qle_bool (tp_value p f) max_error) pts);
        [reflexivity |].
      symmetry. apply filter_ext_in. intros p Hp.
      pose proof (value_in_sorted f c p Hp) as Hin.
      fold vals in Hin. rewrite Hv in Hin.
      apply in_app_or in Hin. destruct Hin as [Hin | Hin].
      * rewrite Forall_forall in Hpre. specialize (Hpre _ Hin).
        assert (H1 : Qle_bool (tp_value p f) v = false).
        { apply Qle_bool_false. eapply Qle_lt_trans; eauto. }
        assert (H2 : Qle_bool (tp_value p f) max_error = false)
          by now apply Qle_bool_false.
        congruence.
      * assert (H1 : Qle_bool (tp_value p f) v = true).
        { apply Qle_bool_iff.
          apply (sorted_head_max (v := v) (l := rest)); [| exact Hin].
          apply (sorted_app_tail pre). rewrite <- Hv. apply sort_desc_sorted. }
        assert (H2 : Qle_bool (tp_value p f) max_error = true).
        { apply Qle_bool_iff. rewrite Forall_forall in Hsuf. now apply Hsuf. }
        congruence.
    + apply Qgtb_false in HvE. now rewrite HvE.
  - destruct Hk as [Hk | Hk].
    + left. apply length_zero_iff_nil. lia.
    + right. simpl. now rewrite Hlen.
Qed.


(** In a descending list, later is not larger. *)
Lemma sorted_nth_le (s : list Q) :
  StronglySorted desc s ->
  forall i j, (i <= j)%nat -> (j < List.length s)%nat -> nth j s 0 <= nth i s 0.
Proof.
  induction 1 as [| a r Hs IH Hall]; intros i j Hij Hj; [simpl in Hj; lia |].
  destruct j as [| j].
  - replace i with 0%nat by lia. apply Qle_refl.
  - destruct i as [| i]; cbn [nth].
    + rewrite Forall_forall in Hall. apply Hall, nth_In. simpl in Hj. lia.
    + apply IH; simpl in Hj; lia.
Qed.

(** Stop on the budget: [b] points fit the budget, more lie above the bound. *)
Lemma budget_stop (b : nat) :
  (b = 0%nat \/ inject_Z (Z.of_nat b) <= budget) ->
  budget < inject_Z (Z.of_nat (b + 1)) ->
  (b < k)%nat ->
  let v := nth b vals 0 in
  let removed := filter (fun p => Qgtb (tp_value p f) v) pts in
  max_error < v
  /\ remove_above_error_threshold f max_error max_points c
     = ([EvSelectPoints f v; EvRemoveSelectedPoints],
        Ok (false,
            set_tie_points (filter (fun p => Qle_bool (tp_value p f) v) pts) c))
  /\ (List.length removed <= b)%nat
  /\ (b = 0%nat \/ v < nth (b - 1) vals 0 -> List.length removed = b).
Proof.
  intros Hb Hover Hbk v removed.
  destruct vals_shape as [pre [suf [Hv [Hlen [Hpre Hsuf]]]]].
  pose proof (sort_desc_sorted (values f c)) as Hsorted. fold vals in Hsorted.
  assert (Hbn : (b < List.length vals)%nat).
  { rewrite Hv, length_app. lia. }
  destruct (nth_split vals 0 Hbn) as [l1 [l2 [Hsplit Hl1]]]. fold v in Hsplit.
  assert (HvE : max_error < v).
  { unfold v. rewrite Hv, app_nth1 by lia.
    rewrite Forall_forall in Hpre. apply Hpre, nth_In. lia. }
  assert (Hl1E : Forall (fun x => max_error < x) l1).
  { apply Forall_forall. intros x Hx.
    eapply Qlt_le_trans; [exact HvE |].
    apply (sorted_app_cross l1 (v :: l2)); [now rewrite <- Hsplit | exact Hx | now left]. }
  assert (Htail : forall x, In x (v :: l2) -> Qgtb x v = false).
  { intros x Hx. apply Qgtb_false.
    apply (sorted_head_max (v := v) (l := l2)); [| exact Hx].
    apply (sorted_app_tail l1). now rewrite <- Hsplit. }
  assert (Hcount : List.length removed
                   = List.length (filter (fun x => Qgtb x v) l1)).
  { unfold removed, pts. rewrite count_above. fold vals.
    rewrite Hsplit at 1. rewrite filter_app, length_app.
    rewrite (filter_none (fun x => Qgtb x v) (l := v :: l2)); [simpl; lia |].
    now apply Forall_forall. }
  split; [exact HvE |]. split; [| split].
  - rewrite run_remove, Hsplit, scan_passes; [| assumption |].
    + rewrite scan_stops.
      * apply Qle_bool_false in HvE as HvE'. rewrite HvE'.
        now rewrite remove_selected_keeps.
      * apply andb_false_iff. right. apply Qle_bool_false.
        replace (Z.of_nat (0 + List.length l1) + 1)%Z with (Z.of_nat (b + 1)) by lia.
        exact Hover.
    + destruct Hb as [Hb | Hb].
      * left. apply length_zero_iff_nil. lia.
      * right. simpl. now rewrite Hl1.
  - rewrite Hcount, <- Hl1. apply filter_length_le.
  - intros Hexact. rewrite Hcount, <- Hl1. f_equal. apply filter_all.
    apply Forall_forall. intros x Hx. apply Qgtb_true.
    destruct Hexact as [H0 | Hprev].
    + exfalso. rewrite H0 in Hl1. apply length_zero_iff_nil in Hl1.
      subst l1. destruct Hx.
    + eapply Qlt_le_trans; [exact Hprev |].
      destruct (In_nth l1 x 0 Hx) as [i [Hi Hnth]].
      rewrite <- Hnth.
      replace (nth i l1 0) with (nth i vals 0)
        by (rewrite Hsplit at 1; now rewrite app_nth1).
      apply sorted_nth_le; [exact Hsorted | lia | lia].
Qed.

End RemovalFacts.

(** C9.  When every tie point lies above [max_error] and the budget
    [num_points * max_points] covers the whole population, the scan runs off
    the end of the sorted values: nothing is selected or deleted, the chunk
    is unchanged and the result is [False]. *)
Theorem remove_above_error_threshold_exhaustive_scan :
  forall (chunk : Chunk) (filtertype : Criterion) (max_error max_points : Q),
    (forall p, In p (tie_points chunk) -> (max_error < tp_value p filtertype)%Q) ->
    (inject_Z (Z.of_nat (List.length (tie_points chunk)))
     <= inject_Z (Z.of_nat (List.length (tie_points chunk))) * max_points)%Q ->
    ModelHelpers.remove_above_error_threshold filtertype max_error max_points chunk
    = ([], Ok (false, chunk)).
Proof.
  intros chunk filtertype max_error max_points Hall Hbudget.
  now apply scan_exhausts.
Qed.

Lemma remove_above_error_threshold_exhaustive_scan_witness :
  ModelHelpers.remove_above_error_threshold ReprojectionError 5 1
    (population [7; 8; 9]%Q)
  = ([], Ok (false, population [7; 8; 9]%Q)).
Proof.
  apply (@remove_above_error_threshold_exhaustive_scan
           (population [7; 8; 9]%Q) ReprojectionError 5 1).
  - intros p Hp. simpl in Hp.
    destruct Hp as [<- | [<- | [<- | []]]]; reflexivity.
  - vm_compute. discriminate.
Defined.

(** C1, as amended.  With [vals] the error values sorted descending, [k] the
    number of points above [max_error] and [budget = num_points * max_points]:
    - if the [k] points fit the budget and some point is within the bound,
      the scan stops on the error condition, exactly the points above
      [max_error] are deleted and the result is [True];
    - if only [b < k] positions fit the budget, the scan stops at [vals[b]],
      the points strictly above that value are deleted (at most [b] of them,
      and exactly [b] when [vals[b-1]] is strictly larger) and the result is
      [False];
    - so for 100 points of which 5 lie above [max_error], [max_points = 0.10]
      deletes exactly those 5 and returns [True], and [max_points = 0.02]
      returns [False] after deleting the points strictly above the third
      largest value: the 2 largest when the second is strictly larger than
      the third. *)
Theorem remove_above_error_threshold_outcomes :
  forall (chunk : Chunk) (filtertype : Criterion) (max_error max_points : Q),
    let pts := tie_points chunk in
    let n := List.length pts in
    let budget := (inject_Z (Z.of_nat n) * max_points)%Q in
    let vals := ModelHelpers.sort_desc (map (fun p => tp_value p filtertype) pts) in
    let above (v : Q) :=
      filter (fun p => ModelHelpers.Qgtb (tp_value p filtertype) v) pts in
    let keep (v : Q) :=
      set_tie_points (filter (fun p => Qle_bool (tp_value p filtertype) v) pts) chunk in
    let k := List.length (above max_error) in
    let run :=
      ModelHelpers.remove_above_error_threshold filtertype max_error max_points chunk in
    (* the scan stops on the error condition *)
    ((k = 0%nat \/ (inject_Z (Z.of_nat k) <= budget)%Q) -> (k < n)%nat ->
     (nth k vals 0%Q <= max_error)%Q
     /\ run = ([EvSelectPoints filtertype (nth k vals 0%Q); EvRemoveSelectedPoints],
               Ok (true, keep max_error)))
    (* the scan stops on the budget, after [b] points *)
    /\ (forall b : nat,
          (b = 0%nat \/ (inject_Z (Z.of_nat b) <= budget)%Q) ->
          (budget < inject_Z (Z.of_nat (b + 1)))%Q -> (b < k)%nat ->
          (max_error < nth b vals 0%Q)%Q
          /\ run = ([EvSelectPoints filtertype (nth b vals 0%Q); EvRemoveSelectedPoints],
                    Ok (false, keep (nth b vals 0%Q)))
          /\ (List.length (above (nth b vals 0%Q)) <= b)%nat
          /\ (b = 0%nat \/ (nth b vals 0%Q < nth (b - 1) vals 0%Q)%Q ->
              List.length (above (nth b vals 0%Q)) = b))
    (* 100 points, 5 of them above [max_error] *)
    /\ (n = 100%nat -> k = 5%nat ->
        ((max_points == 1 # 10)%Q ->
         run = ([EvSelectPoints filtertype (nth 5 vals 0%Q); EvRemoveSelectedPoints],
                Ok (true, keep max_error)))
        /\ ((max_points == 2 # 100)%Q ->
            run = ([EvSelectPoints filtertype (nth 2 vals 0%Q); EvRemoveSelectedPoints],
                   Ok (false, keep (nth 2 vals 0%Q)))
            /\ (List.length (above (nth 2 vals 0%Q)) <= 2)%nat
            /\ ((nth 2 vals 0%Q < nth 1 vals 0%Q)%Q ->
                List.length (above (nth 2 vals 0%Q)) = 2%nat))).
Proof.
  intros chunk filtertype max_error max_points pts n budget vals above keep k run.
  split; [| split].
  - intros Hk Hkn.
    apply (@error_stop filtertype max_error max_points chunk Hk Hkn).
  - intros b Hb Hover Hbk.
    apply (@budget_stop filtertype max_error max_points chunk b Hb Hover Hbk).
  - intros Hn Hk. split.
    + intros HF.
      assert (Hfit : (inject_Z (Z.of_nat k) <= budget)%Q).
      { unfold budget. rewrite Hn, Hk, HF. vm_compute. discriminate. }
      assert (Hkn : (k < n)%nat) by lia.
      destruct (@error_stop filtertype max_error max_points chunk (or_intror Hfit) Hkn)
        as [_ Hrun].
      change (run = ([EvSelectPoints filtertype (nth k vals 0%Q);
                      EvRemoveSelectedPoints], Ok (true, keep max_error))) in Hrun.
      now rewrite Hk in Hrun.
    + intros HF.
      assert (Hfit : (inject_Z (Z.of_nat 2) <= budget)%Q).
      { unfold budget. rewrite Hn, HF. vm_compute. discriminate. }
      assert (Hover : (budget < inject_Z (Z.of_nat (2 + 1)))%Q).
      { unfold budget. rewrite Hn, HF. reflexivity. }
      assert (Hbk : (2 < k)%nat) by lia.
      destruct (@budget_stop filtertype max_error max_points chunk 2
                  (or_intror Hfit) Hover Hbk) as [_ [Hrun [Hle Hexact]]].
      split; [exact Hrun |]. split; [exact Hle |].
      intros Hprev. apply Hexact. now right.
Qed.

Lemma remove_above_error_threshold_outcomes_witness :
  ModelHelpers.remove_above_error_threshold ReprojectionError 95 (1 # 10)
    (population graded_errors)
  = ([EvSelectPoints ReprojectionError 95; EvRemoveSelectedPoints],
     Ok (true,
         set_tie_points (skipn 5 (tie_points (population graded_errors)))
           (population graded_errors)))
  /\ ModelHelpers.remove_above_error_threshold ReprojectionError 95 (2 # 100)
       (population graded_errors)
     = ([EvSelectPoints ReprojectionError 98; EvRemoveSelectedPoints],
        Ok (false,
            set_tie_points (skipn 2 (tie_points (population graded_errors)))
              (population graded_errors))).
Proof.
  destruct (remove_above_error_threshold_outcomes
              (population graded_errors) ReprojectionError 95 (1 # 10))
    as [_ [_ H]].
  destruct (H eq_refl eq_refl) as [H1 _].
  destruct (remove_above_error_threshold_outcomes
              (population graded_errors) ReprojectionError 95 (2 # 100))
    as [_ [_ H']].
  destruct (H' eq_refl eq_refl) as [_ H2].
  destruct (H2 (Qeq_refl _)) as [H3 _].
  split.
  - etransitivity; [exact (H1 (Qeq_refl _)) | vm_compute; reflexivity].
  - etransitivity; [exact H3 | vm_compute; reflexivity].
Defined.

(** With ties at the budget boundary nothing lies above the stopping value:
    five points exceed [max_error], the budget is two points, and no point
    is deleted. *)
Lemma remove_above_error_threshold_ties_remove_nothing :
  List.length (tie_points (population tied_errors)) = 100%nat
  /\ List.length
       (filter (fun p => ModelHelpers.Qgtb (tp_value p ReprojectionError) 5)
          (tie_points (population tied_errors))) = 5%nat
  /\ ModelHelpers.remove_above_error_threshold ReprojectionError 5 (2 # 100)
       (population tied_errors)
     = ([EvSelectPoints ReprojectionError 9; EvRemoveSelectedPoints],
        Ok (false, population tied_errors)).
Proof.
  repeat split; vm_compute; reflexivity.
Qed.

(* ================================================================== *)
(** * Proofs: the build orchestrator *)
(* ================================================================== *)

(** ** Rules for [triple] *)

Section Rules.

Variables S : Type.
Variable ok : Stage -> bool.

Lemma triple_ret (A : Type) (P : S -> Prop) (a : A) :
  triple P (ret a) ok (fun a' s => a' = a /\ P s).
Proof.
  intros s Hs. split; [constructor |].
  intros a' s' H. injection H as <- <-. now split.
Qed.

Lemma triple_conseq (A : Type) (P P' : S -> Prop) (Q Q' : A -> S -> Prop)
      (m : Act S A) :
  triple P' m ok Q' ->
  (forall s, P s -> P' s) -> (forall a s, Q' a s -> Q a s) ->
  triple P m ok Q.
Proof.
  intros H HP HQ s Hs. destruct (H s (HP s Hs)) as [Hev Hpost].
  split; [exact Hev |]. intros a s' E. apply HQ. now apply Hpost.
Qed.

Lemma triple_bind (A B : Type) (P : S -> Prop) (Q : A -> S -> Prop)
      (R : B -> S -> Prop) (m : Act S A) (k : A -> Act S B) :
  triple P m ok Q -> (forall a, triple (Q a) (k a) ok R) ->
  triple P (bindA m k) ok R.
Proof.
  intros Hm Hk s Hs. unfold bindA.
  destruct (Hm s Hs) as [Hev Hpost].
  destruct (m s) as [ev [[a s'] | e]]; cbn [fst snd] in *.
  - specialize (Hk a s' (Hpost a s' eq_refl)). destruct Hk as [Hev' Hpost'].
    destruct (k a s') as [ev' r]; cbn [fst snd] in *.
    split; [now apply Forall_app | exact Hpost'].
  - split; [exact Hev | discriminate].
Qed.

Lemma triple_emit (P : S -> Prop) (e : Event) :
  ok (stage_of e) = true -> triple P (emit e) ok (fun _ s => P s).
Proof.
  intros He s Hs. split.
  - constructor; [exact He | constructor].
  - intros a s' H. injection H as _ <-. exact Hs.
Qed.

Lemma triple_get (P : S -> Prop) :
  triple P get ok (fun a s => a = s /\ P s).
Proof.
  intros s Hs. split; [constructor |].
  intros a s' H. injection H as <- <-. now split.
Qed.

Lemma triple_modify (P : S -> Prop) (Q : unit -> S -> Prop) (f : S -> S) :
  (forall s, P s -> Q tt (f s)) -> triple P (modify f) ok Q.
Proof.
  intros H s Hs. split; [constructor |].
  intros a s' E. injection E as <- <-. now apply H.
Qed.

Lemma triple_raise (A : Type) (P : S -> Prop) (Q : A -> S -> Prop) (e : PyError) :
  triple P (raise e) ok Q.
Proof.
  intros s Hs. split; [constructor | discriminate].
Qed.

Lemma triple_lift (A : Type) (P : S -> Prop) (r : result A) :
  triple P (lift r) ok (fun a s => r = Ok a /\ P s).
Proof.
  intros s Hs. destruct r as [a | e]; simpl.
  - split; [constructor |]. intros a' s' H. injection H as <- <-. now split.
  - split; [constructor | discriminate].
Qed.

Lemma triple_false (A : Type) (m : Act S A) (Q : A -> S -> Prop) :
  triple (fun _ => False) m ok Q.
Proof. intros s []. Qed.

(** A loop keeps what its body keeps. *)
Lemma triple_for_each (A : Type) (I : S -> Prop) (l : list A)
      (body : A -> Act S unit) :
  (forall x, In x l -> triple I (body x) ok (fun _ s => I s)) ->
  triple I (ModelHelpers.for_each l body) ok (fun _ s => I s).
Proof.
  induction l as [| x r IH]; intros Hbody; cbn [ModelHelpers.for_each].
  - intros s Hs. split; [constructor |].
    intros a s' H. injection H as _ <-. exact Hs.
  - eapply triple_bind.
    + apply Hbody. now left.
    + intros u. apply IH. intros y Hy. apply Hbody. now right.
Qed.

End Rules.

Lemma triple_on_chunk (A : Type) (ok : Stage -> bool) (i : nat)
      (P : Document -> Prop) (Q : A -> Document -> Prop) (m : Act Chunk A) :
  (forall d c, P d -> nth_error d i = Some c ->
     triple (eq c) m ok (fun a c' => Q a (list_update i c' d))) ->
  triple P (on_chunk i m) ok Q.
Proof.
  intros H d Hd. unfold on_chunk.
  destruct (nth_error d i) as [c |] eqn:E.
  - destruct (H d c Hd E c eq_refl) as [Hev Hpost].
    destruct (m c) as [ev [[a c'] | e]]; cbn [fst snd] in *.
    + split; [exact Hev |]. intros a' s' H'. injection H' as <- <-.
      now apply Hpost.
    + split; [exact Hev | discriminate].
  - split; [constructor | discriminate].
Qed.

(** ** Rules for [emits_only] *)

Section EmitRules.

Variable S : Type.
Variable ok : Stage -> bool.

Lemma eo_ret (A : Type) (a : A) : emits_only ok (ret (S := S) a).
Proof. intros s. constructor. Qed.

Lemma eo_get : emits_only ok (get (S := S)).
Proof. intros s. constructor. Qed.

Lemma eo_modify (f : S -> S) : emits_only ok (modify f).
Proof. intros s. constructor. Qed.

Lemma eo_raise (A : Type) (e : PyError) : emits_only ok (raise (S := S) (A := A) e).
Proof. intros s. constructor. Qed.

Lemma eo_lift (A : Type) (r : result A) : emits_only ok (lift (S := S) r).
Proof. intros s. destruct r; constructor. Qed.

Lemma eo_emit (e : Event) : ok (stage_of e) = true -> emits_only ok (emit (S := S) e).
Proof. intros H s. constructor; [exact H | constructor]. Qed.

Lemma eo_bind (A B : Type) (m : Act S A) (k : A -> Act S B) :
  emits_only ok m -> (forall a, emits_only ok (k a)) -> emits_only ok (bindA m k).
Proof.
  intros Hm Hk s. unfold bindA. specialize (Hm s).
  destruct (m s) as [ev [[a s'] | e]]; cbn [fst] in *; [| exact Hm].
  specialize (Hk a s'). destruct (k a s') as [ev' r]; cbn [fst] in *.
  now apply Forall_app.
Qed.

Lemma eo_for_each (A : Type) (l : list A) (body : A -> Act S unit) :
  (forall x, emits_only ok (body x)) -> emits_only ok (ModelHelpers.for_each l body).
Proof.
  intros Hbody. induction l as [| x r IH]; cbn [ModelHelpers.for_each].
  - apply eo_ret.
  - apply eo_bind; [apply Hbody | intros u; exact IH].
Qed.

Lemma eo_triple (A : Type) (P : S -> Prop) (m : Act S A) :
  emits_only ok m -> triple P m ok (fun _ _ => True).
Proof. intros H s _. split; [apply H | trivial]. Qed.

End EmitRules.

Lemma eo_on_chunk (A : Type) (ok : Stage -> bool) (i : nat) (m : Act Chunk A) :
  emits_only ok m -> emits_only ok (on_chunk i m).
Proof.
  intros H d. unfold on_chunk. destruct (nth_error d i) as [c |]; [| constructor].
  specialize (H c). now destruct (m c) as [ev [[a c'] | e]].
Qed.

Lemma eo_for_each_chunk (ok : Stage -> bool) (body : Act Chunk unit) :
  emits_only ok body -> emits_only ok (MetashapeTools.for_each_chunk body).
Proof.
  intros H. unfold MetashapeTools.for_each_chunk.
  apply eo_bind; [apply eo_get | intros doc].
  apply eo_for_each. intros i. now apply eo_on_chunk.
Qed.

Ltac emits :=
  repeat first
    [ apply eo_ret | apply eo_get | apply eo_modify | apply eo_raise
    | apply eo_lift | apply eo_emit; assumption || reflexivity
    | apply eo_bind; [| intro] | apply eo_for_each; intro
    | apply eo_on_chunk ].

Section StageFacts.

Variable eng : Engine.
Variable w : MetashapeTools.World.
Variable ok : Stage -> bool.

Import ModelHelpers MetashapeTools.

(** *** Reorientation and export *)

Hypothesis ok_log : ok StLog = true.
Hypothesis ok_reorient : ok StReorient = true.
Hypothesis ok_export : ok StExport = true.

Lemma eo_find_axes (name : string) :
  emits_only ok (find_axes_from_markers eng (palettes w) name).
Proof.
  unfold find_axes_from_markers.
  apply eo_bind; [apply eo_lift | intros pal].
  apply eo_bind; [apply eo_get | intros chunk].
  destruct (markers chunk); [apply eo_ret |].
  apply eo_bind; [apply eo_lift | intros [xaxis zaxis]].
  emits.
Qed.

Lemma eo_reorient (config : Photogrammetry) :
  emits_only ok (reorient_model eng w config).
Proof.
  unfold reorient_model.
  apply eo_bind; [apply eo_lift | intros name].
  apply eo_bind; [apply eo_find_axes | intros axes].
  apply eo_bind; [apply eo_lift | intros n].
  destruct (n =? 0)%nat.
  - now apply eo_emit.
  - unfold align_markers_to_axes, move_model_to_world_origin, reset_region.
    emits.
Qed.

Lemma eo_export_chunk (config : Photogrammetry) (outputpath : string) :
  emits_only ok (export_chunk eng w config outputpath).
Proof.
  unfold export_chunk.
  apply eo_bind.
  - destruct (palette config) as [name |]; [| apply eo_ret].
    destruct (negb (name =? "None")%string); [apply eo_reorient | apply eo_ret].
  - intros u. apply eo_bind; [apply eo_get | intros c].
    destruct (negb (export_as config =? "none")%string); [| apply eo_ret].
    apply eo_for_each. intros extn. now apply eo_emit.
Qed.

End StageFacts.

Section ChunkStages.

Variable eng : Engine.
Variable ok : Stage -> bool.

Import ModelHelpers MetashapeTools.

Lemma keeps_refl (c : Chunk) : keeps_artifacts c c.
Proof. now repeat split. Qed.

Lemma keeps_trans (a b c : Chunk) :
  keeps_artifacts a b -> keeps_artifacts b c -> keeps_artifacts a c.
Proof.
  unfold keeps_artifacts. intros [H1 [H2 H3]] [H4 [H5 H6]].
  repeat split; congruence.
Qed.

Lemma keeps_textured (c c' : Chunk) :
  keeps_artifacts c c' -> textured c -> textured c'.
Proof.
  intros [_ [_ Hm]] [m [H1 H2]]. exists m. split; congruence.
Qed.

(** *** Marker detection *)

Lemma detect_markers_frame (markertype : string) (c : Chunk) :
  ok StMarkers = true ->
  triple (eq c) (detect_markers eng markertype) ok
         (fun _ c' => keeps_artifacts c c' /\ scalebars c' = scalebars c).
Proof.
  intros Hok s <-.
  unfold detect_markers, set_chunk_accuracy, bindA, modify, get, emit, lift.
  cbn [markers set_chunk_accuracy_field].
  destruct (markers c) as [| mk mks]; cbn [List.length Nat.eqb ret app];
    destruct (lookup markertype targetTypes) as [t | e]; cbn [fst snd app].
  - split; [repeat constructor; exact Hok |].
    intros a s' H. injection H as _ <-. now repeat split.
  - split; [constructor | discriminate].
  - split; [repeat constructor; exact Hok |].
    intros a s' H. injection H as _ <-. now repeat split.
  - split; [repeat constructor; exact Hok | discriminate].
Qed.

(** *** Scale bars *)

Lemma apply_definition_frame (definition : ScalebarDefinition) (c : Chunk) :
  ok StScalebars = true ->
  triple (keeps_artifacts c) (apply_definition definition) ok
         (fun _ c' => keeps_artifacts c c').
Proof.
  intros Hok s Hs.
  unfold apply_definition, bindA, get, modify, emit, ret.
  destruct (find_markers (markers s) _ _ None None) as [[m1 |] [m2 |]];
    cbn [fst snd app];
    try (split; [constructor | intros a s' H; injection H as _ <-; exact Hs]).
  destruct (find_bar (scalebars s) m1 m2 0) as [i |]; cbn [fst snd app].
  - split; [constructor |].
    intros a s' H. injection H as _ <-. exact Hs.
  - split; [repeat constructor; exact Hok |].
    intros a s' H. injection H as _ <-. exact Hs.
Qed.

Lemma build_scalebars_from_list_frame (defs : list ScalebarDefinition) (c : Chunk) :
  ok StScalebars = true ->
  triple (eq c) (build_scalebars_from_list eng defs) ok
         (fun _ c' => keeps_artifacts c c').
Proof.
  intros Hok. unfold build_scalebars_from_list.
  eapply triple_bind with (Q := fun _ c' => keeps_artifacts c c').
  { apply triple_modify. intros s <-. now repeat split. }
  intros u. eapply triple_bind with (Q := fun _ c' => keeps_artifacts c c').
  { apply triple_for_each. intros d _. now apply apply_definition_frame. }
  intros u'. unfold update_transform.
  eapply triple_bind with (Q := fun _ c' => keeps_artifacts c c').
  { now apply triple_emit. }
  intros u''. apply triple_modify. intros s Hs. exact Hs.
Qed.

Lemma sequential_scalebars_frame
      (seq_bars : Chunk -> ScalebarScheme -> list Scalebar)
      (scheme : ScalebarScheme) (c : Chunk) :
  ok StScalebars = true ->
  triple (eq c) (build_scalebars_from_sequential_targets seq_bars scheme) ok
         (fun _ c' => keeps_artifacts c c').
Proof.
  intros Hok s <-.
  unfold build_scalebars_from_sequential_targets, bindA, emit, modify.
  cbn [fst snd app]. split; [repeat constructor; exact Hok |].
  intros a s' H. injection H as _ <-. now repeat split.
Qed.

(** *** Blob cleanup and hole closing keep the textures *)

Lemma cleanup_blobs_frame (c : Chunk) :
  ok StCleanup = true ->
  triple (eq c) cleanup_blobs ok
         (fun _ c' => textured c -> textured c').
Proof.
  intros Hok s <-. unfold cleanup_blobs, bindA, get, emit, modify, ret.
  destruct (model c) as [m |] eqn:Em; cbn [fst snd app].
  - split; [repeat constructor; exact Hok |].
    intros a s' H. injection H as _ <-.
    intros [m' [H1 H2]]. rewrite Em in H1. injection H1 as <-.
    eexists. split; [reflexivity | exact H2].
  - split; [constructor |]. intros a s' H. injection H as _ <-. auto.
Qed.

Lemma close_holes_frame (c : Chunk) :
  ok StHoles = true ->
  triple (eq c) (close_holes eng) ok
         (fun _ c' => textured c -> textured c').
Proof.
  intros Hok s <-. unfold close_holes, bindA, get, emit, modify, ret.
  destruct (model c) as [m |] eqn:Em; cbn [fst snd app].
  - split; [repeat constructor; exact Hok |].
    intros a s' H. injection H as _ <-.
    intros [m' [H1 H2]]. rewrite Em in H1. injection H1 as <-.
    eexists. split; [reflexivity | exact H2].
  - split; [constructor |]. intros a s' H. injection H as _ <-. auto.
Qed.

(** *** Textures *)

Lemma texture_chunk_skips (config : Photogrammetry) (c : Chunk) :
  textured c -> texture_chunk eng config c = ([], Ok (tt, c)).
Proof.
  intros [m [Hm Ht]]. unfold texture_chunk, bindA, get. rewrite Hm.
  destruct (textures m); [congruence | reflexivity].
Qed.

Lemma eo_texture_chunk (config : Photogrammetry) :
  ok StTexture = true -> ok StProject = true ->
  emits_only ok (texture_chunk eng config).
Proof.
  intros H1 H2. unfold texture_chunk.
  apply eo_bind; [apply eo_get | intros c].
  destruct (model c) as [m |]; [| apply eo_raise].
  destruct (textures m); emits.
Qed.

Lemma list_update_same (A : Type) (d : list A) (i : nat) (a : A) :
  nth_error d i = Some a -> list_update i a d = d.
Proof.
  revert i. induction d as [| x d IH]; intros [| i] H; simpl in *;
    try discriminate.
  - now injection H as ->.
  - now rewrite IH.
Qed.

Lemma texture_loop_skips (config : Photogrammetry) (d : Document) (l : list nat) :
  Forall textured d -> (forall i, In i l -> (i < List.length d)%nat) ->
  for_each l (fun i => on_chunk i (texture_chunk eng config)) d = ([], Ok (tt, d)).
Proof.
  intros Hd. induction l as [| i l IH]; intros Hl; cbn [for_each].
  - reflexivity.
  - unfold bindA, on_chunk at 1.
    destruct (nth_error d i) as [c |] eqn:E.
    + rewrite texture_chunk_skips.
      * rewrite (list_update_same _ _ E), IH; [reflexivity |].
        intros j Hj. apply Hl. now right.
      * rewrite Forall_forall in Hd. eapply Hd, nth_error_In, E.
    + apply nth_error_None in E. specialize (Hl i (or_introl eq_refl)). lia.
Qed.

Lemma texture_all_skips (config : Photogrammetry) (d : Document) :
  Forall textured d ->
  for_each_chunk (texture_chunk eng config) d = ([], Ok (tt, d)).
Proof.
  intros Hd. unfold for_each_chunk, bindA, get.
  rewrite texture_loop_skips; [reflexivity | exact Hd |].
  intros i Hi. apply in_seq in Hi. lia.
Qed.

End ChunkStages.

(** ** Stepping through a script from a known state *)

Section Stepping.

Variables S : Type.
Variable ok : Stage -> bool.

Lemma step_states (A : Type) (P : S -> Prop) (m : Act S A) (Q : A -> S -> Prop) :
  (forall s, P s -> triple (eq s) m ok Q) -> triple P m ok Q.
Proof. intros H s Hs. now apply (H s Hs s). Qed.

Lemma step_bind (A B : Type) (s : S) (m : Act S A) (k : A -> Act S B)
      (R : A -> S -> Prop) (Q : B -> S -> Prop) :
  triple (eq s) m ok R ->
  (forall a s', R a s' -> triple (eq s') (k a) ok Q) ->
  triple (eq s) (bindA m k) ok Q.
Proof.
  intros Hm Hk. eapply triple_bind; [exact Hm |].
  intros a. apply step_states. intros s' Hs'. now apply Hk.
Qed.

Lemma step_get (B : Type) (s : S) (k : S -> Act S B) (Q : B -> S -> Prop) :
  triple (eq s) (k s) ok Q -> triple (eq s) (bindA get k) ok Q.
Proof.
  intros H. eapply step_bind; [apply triple_get |].
  intros a s' [-> <-]. exact H.
Qed.

Lemma step_modify (B : Type) (s : S) (f : S -> S) (k : unit -> Act S B)
      (Q : B -> S -> Prop) :
  triple (eq (f s)) (k tt) ok Q -> triple (eq s) (bindA (modify f) k) ok Q.
Proof.
  intros H. eapply step_bind with (R := fun _ s' => s' = f s).
  - apply triple_modify. now intros s' <-.
  - intros [] s' ->. exact H.
Qed.

Lemma step_emit (B : Type) (s : S) (e : Event) (k : unit -> Act S B)
      (Q : B -> S -> Prop) :
  ok (stage_of e) = true ->
  triple (eq s) (k tt) ok Q -> triple (eq s) (bindA (emit e) k) ok Q.
Proof.
  intros He H. eapply step_bind; [now apply triple_emit |].
  intros [] s' <-. exact H.
Qed.

Lemma step_ret (A B : Type) (s : S) (a : A) (k : A -> Act S B)
      (Q : B -> S -> Prop) :
  triple (eq s) (k a) ok Q -> triple (eq s) (bindA (ret a) k) ok Q.
Proof.
  intros H. eapply step_bind; [apply triple_ret |].
  intros a' s' [-> <-]. exact H.
Qed.

Lemma step_emits_only (A : Type) (P : S -> Prop) (m : Act S A) :
  emits_only ok m -> triple P m ok (fun _ _ => True).
Proof. apply eo_triple. Qed.

End Stepping.

Lemma step_first_chunk (A B : Type) (ok : Stage -> bool) (c : Chunk)
      (rest : list Chunk) (m : Act Chunk A) (k : A -> Act Document B)
      (R : A -> Chunk -> Prop) (Q : B -> Document -> Prop) :
  triple (eq c) m ok R ->
  (forall a c', R a c' -> triple (eq (c' :: rest)) (k a) ok Q) ->
  triple (eq (c :: rest)) (bindA (on_chunk 0 m) k) ok Q.
Proof.
  intros Hm Hk.
  eapply step_bind with (R := fun a d => exists c', d = c' :: rest /\ R a c').
  - apply triple_on_chunk. intros d c1 <- E. injection E as <-.
    eapply triple_conseq; [exact Hm | auto |].
    intros a c' HR. exists c'. now split.
  - intros a d [c' [-> HR]]. now apply Hk.
Qed.

Section Finishing.

Variables S : Type.
Variable ok : Stage -> bool.

Lemma done_ret (A : Type) (s : S) (a : A) (Q : A -> S -> Prop) :
  Q a s -> triple (eq s) (ret a) ok Q.
Proof.
  intros H s' <-. split; [constructor |].
  intros a' s' E. injection E as <- <-. exact H.
Qed.

Lemma done_emit (s : S) (e : Event) (Q : unit -> S -> Prop) :
  ok (stage_of e) = true -> Q tt s -> triple (eq s) (emit e) ok Q.
Proof.
  intros He H s' <-. split; [constructor; [exact He | constructor] |].
  intros [] s' E. injection E as <-. exact H.
Qed.

End Finishing.

Section BuildFacts.

Import ModelHelpers MetashapeTools.

Variable eng : Engine.
Variable w : World.
Variable fuel : nat.
Variables photodir projectname projectdir : string.
Variable config : Photogrammetry.
Variable decimate : bool.
Variable maskoption : Z.
Variable c0 : Chunk.
Variable rest : list Chunk.
Variable ok : Stage -> bool.

Hypothesis project_exists :
  path_exists (fs w) (path_join (fs w) projectdir (projectname ++ ".psx")) = true.
Hypothesis project_content : stored w = c0 :: rest.
Hypothesis has_cameras : cameras c0 <> [].
Hypothesis has_cloud : point_cloud c0 <> None.
Hypothesis has_textures : Forall textured (c0 :: rest).

Hypothesis ok_log : ok StLog = true.
Hypothesis ok_project : ok StProject = true.
Hypothesis ok_cleanup : ok StCleanup = true.
Hypothesis ok_holes : ok StHoles = true.
Hypothesis ok_reorient : ok StReorient = true.
Hypothesis ok_export : ok StExport = true.
Hypothesis ok_markers :
  forall name p,
    palette config = Some name -> name <> "None"%string ->
    lookup name (palettes w) = Ok p -> markers c0 = [] ->
    ok StMarkers = true.
Hypothesis ok_scalebars :
  forall name p scheme,
    palette config = Some name -> name <> "None"%string ->
    lookup name (palettes w) = Ok p ->
    palette_scalebars p = Some scheme -> scalebars c0 = [] ->
    ok StScalebars = true.
Hypothesis ok_decimate :
  decimate = true -> (List.length (c0 :: rest) < 2)%nat ->
  ok StDecimate = true /\ ok StTexture = true.

Lemma build_trace :
  triple (fun _ => True)
         (build_basic_model eng w fuel photodir projectname projectdir config
            decimate maskoption)
         ok (fun _ _ => True).
Proof.
  apply step_states. intros d0 _. unfold build_basic_model.
  (* the palette *)
  eapply step_bind with (R := fun po _ => configured w config po).
  { destruct (palette config) as [name |] eqn:Ep.
    - destruct (negb (name =? "None")%string) eqn:En.
      + intros s _. unfold bindA, lift, ret, load_palettes. cbn [Py.bind].
        destruct (lookup name (palettes w)) as [p | e] eqn:El; cbn [fst snd app].
        * split; [constructor |].
          intros a s' H. injection H as <- _. intros p' Hp'. injection Hp' as <-.
          exists name. split; [exact Ep |]. split; [| exact El].
          apply negb_true_iff in En. now apply String.eqb_neq.
        * split; [constructor | discriminate].
      + apply done_ret. intros p Hp. discriminate.
    - apply done_ret. intros p Hp. discriminate. }
  intros po d1 Hpo.
  (* open the project *)
  apply step_modify. rewrite project_exists.
  eapply step_bind with (R := fun _ d => d = c0 :: rest).
  { apply step_emit; [exact ok_project |].
    apply triple_modify. intros s _. exact project_content. }
  intros [] d2 ->.
  apply step_emit; [exact ok_project |].
  apply step_get. cbn [List.length Nat.eqb]. apply step_ret.
  (* photos *)
  eapply step_first_chunk with (R := fun _ c' => c' = c0).
  { apply step_get. destruct (cameras c0) eqn:E; [congruence |].
    cbn [List.length Nat.eqb]. now apply done_ret. }
  intros [] c' ->.
  (* matching and alignment *)
  eapply step_first_chunk with (R := fun _ c' => c' = c0).
  { apply step_get. destruct (point_cloud c0); [| congruence].
    now apply done_ret. }
  intros [] c' ->.
  (* markers *)
  eapply step_first_chunk
    with (R := fun _ c' => keeps_artifacts c0 c' /\ scalebars c' = scalebars c0).
  { destruct po as [p |].
    - apply step_get. destruct (markers c0) eqn:Em.
      + destruct (Hpo p eq_refl) as [name [H1 [H2 H3]]].
        eapply step_bind.
        * apply detect_markers_frame. eapply ok_markers; eauto.
        * intros [] c' Hc'. now apply done_emit.
      + apply done_ret. split; [apply keeps_refl | reflexivity].
    - apply done_ret. split; [apply keeps_refl | reflexivity]. }
  intros [] c1 [Hkeep Hbars].
  assert (Hm1 : exists m, model c1 = Some m).
  { inversion has_textures as [| ? ? [m [Hm _]] _]; subst.
    exists m. destruct Hkeep as [_ [_ ->]]. exact Hm. }
  assert (Hp1 : exists pc, point_cloud c1 = Some pc).
  { destruct Hkeep as [_ [-> _]]. destruct (point_cloud c0) as [pc |];
      [now exists pc | congruence]. }
  destruct Hm1 as [m1 Hm1]. destruct Hp1 as [pc1 Hp1].
  (* refinement *)
  eapply step_first_chunk with (R := fun _ c' => c' = c1).
  { apply step_get. rewrite Hp1, Hm1. now apply done_ret. }
  intros [] c' ->.
  (* mesh *)
  eapply step_first_chunk with (R := fun _ c' => c' = c1).
  { apply step_get. rewrite Hm1. now apply done_ret. }
  intros [] c' ->.
  (* scale bars *)
  eapply step_first_chunk with (R := fun _ c' => keeps_artifacts c0 c').
  { destruct po as [p |]; [| now apply done_ret].
    apply step_get.
    destruct (palette_scalebars p) as [scheme |] eqn:Es; [| now apply done_ret].
    destruct (scalebars c1) eqn:Eb; [| now apply done_ret].
    destruct (Hpo p eq_refl) as [name [H1 [H2 H3]]].
    assert (Hok : ok StScalebars = true).
    { eapply ok_scalebars; eauto; congruence. }
    eapply step_bind with (R := fun _ c' => keeps_artifacts c0 c').
    - destruct (scheme_type scheme =? "explicit")%string.
      + eapply triple_conseq with (P' := eq c1);
          [now apply build_scalebars_from_list_frame | auto |].
        intros a s Hs. eapply keeps_trans; eauto.
      + destruct (scheme_type scheme =? "sequential")%string.
        * eapply triple_conseq with (P' := eq c1);
            [now apply sequential_scalebars_frame | auto |].
          intros a s Hs. eapply keeps_trans; eauto.
        * now apply done_ret.
    - intros [] c' Hc'. now apply done_emit. }
  intros [] c2 Hkeep2.
  assert (Ht2 : textured c2).
  { eapply keeps_textured; [exact Hkeep2 |]. now inversion has_textures. }
  (* blobs *)
  eapply step_first_chunk with (R := fun _ c' => textured c').
  { eapply triple_conseq with (P' := eq c2);
      [now apply cleanup_blobs_frame | auto |].
    intros a s Hs. now apply Hs. }
  intros [] c3 Ht3.
  apply step_emit; [exact ok_project |].
  (* holes *)
  eapply step_first_chunk with (R := fun _ c' => textured c').
  { eapply triple_conseq with (P' := eq c3);
      [now apply close_holes_frame | auto |].
    intros a s Hs. now apply Hs. }
  intros [] c4 Ht4.
  apply step_emit; [exact ok_project |].
  apply step_get.
  (* decimation and textures *)
  destruct (decimate && (List.length (c4 :: rest) <? 2)%nat) eqn:Ed.
  - apply andb_true_iff in Ed. destruct Ed as [Hdec Hlen].
    apply Nat.ltb_lt in Hlen.
    destruct (ok_decimate Hdec Hlen) as [Hok1 Hok2].
    eapply triple_conseq with (P' := fun _ => True) (Q' := fun _ _ => True);
      [apply eo_triple | auto | auto].
    apply eo_bind.
    { apply eo_bind; [apply eo_on_chunk, eo_get | intros cur].
      apply eo_bind; [now apply eo_emit | intros u1].
      apply eo_bind; [apply eo_modify | intros u2].
      apply eo_on_chunk. apply eo_bind; [now apply eo_emit | intros u3].
      apply eo_bind; [apply eo_get | intros c].
      destruct (model c); [apply eo_modify | apply eo_raise]. }
    intros u. apply eo_bind.
    { now apply eo_for_each_chunk, eo_texture_chunk. }
    intros u'. now apply eo_for_each_chunk, eo_export_chunk.
  - apply step_ret.
    eapply step_bind with (R := fun _ _ => True).
    { intros s <-. rewrite texture_all_skips.
      - split; [constructor | trivial].
      - constructor; [exact Ht4 | now inversion has_textures]. }
    intros [] d6 _.
    apply eo_triple. now apply eo_for_each_chunk, eo_export_chunk.
Qed.

End BuildFacts.

Import MetashapeTools.

(** C2, as amended.  Re-running [build_basic_model] on a stored project whose
    first chunk has photos, a point cloud and a mesh, and whose chunks all
    carry a texture:
    - never loads photos or masks, matches, aligns, refines the sparse cloud,
      or builds depth maps or a mesh;
    - when decimation is not requested or the project already has two
      chunks, it also duplicates and decimates no chunk and builds no UV
      atlas or texture;
    - when, besides, no palette is configured, or the first chunk already has
      markers and (where the palette defines scale bars) scale bars, only
      project open/save, blob cleanup, hole closing, reorientation and
      export calls are made, besides the warnings those log. *)
Theorem build_basic_model_stage_skip :
  forall (eng : Engine) (w : World) (fuel : nat)
         (photodir projectname projectdir : string) (config : Photogrammetry)
         (decimate : bool) (maskoption : Z) (c0 : Chunk) (rest : list Chunk),
    path_exists (fs w) (path_join (fs w) projectdir (projectname ++ ".psx")) = true ->
    stored w = c0 :: rest ->
    cameras c0 <> [] -> point_cloud c0 <> None ->
    Forall textured (c0 :: rest) ->
    let trace :=
      fst (build_basic_model eng w fuel photodir projectname projectdir config
             decimate maskoption []) in
    confined_to no_rebuild trace
    /\ (decimate = false \/ (2 <= List.length (c0 :: rest))%nat ->
        confined_to no_rebuild_no_texture trace)
    /\ (decimate = false \/ (2 <= List.length (c0 :: rest))%nat ->
        (forall name p,
            palette config = Some name -> name <> "None"%string ->
            lookup name (palettes w) = Ok p ->
            markers c0 <> []
            /\ (palette_scalebars p = None \/ scalebars c0 <> [])) ->
        confined_to rerun_only trace).
Proof.
  intros eng w fuel photodir projectname projectdir config decimate maskoption
         c0 rest Hex Hst Hcam Hpc Htex trace.
  assert (Hgen : forall ok : Stage -> bool,
             ok StLog = true ->
             ok StProject = true -> ok StCleanup = true -> ok StHoles = true ->
             ok StReorient = true -> ok StExport = true ->
             (forall name p,
                 palette config = Some name -> name <> "None"%string ->
                 lookup name (palettes w) = Ok p -> markers c0 = [] ->
                 ok StMarkers = true) ->
             (forall name p scheme,
                 palette config = Some name -> name <> "None"%string ->
                 lookup name (palettes w) = Ok p ->
                 palette_scalebars p = Some scheme -> scalebars c0 = [] ->
                 ok StScalebars = true) ->
             (decimate = true -> (List.length (c0 :: rest) < 2)%nat ->
              ok StDecimate = true /\ ok StTexture = true) ->
             confined_to ok trace).
  { intros ok H0 H1 H2 H3 H4 H5 H6 H7 H8.
    exact (proj1 (@build_trace eng w fuel photodir projectname projectdir config
                    decimate maskoption c0 rest ok Hex Hst Hcam Hpc Htex
                    H0 H1 H2 H3 H4 H5 H6 H7 H8 [] I)). }
  split; [| split].
  - apply Hgen; try reflexivity; intros; now repeat split.
  - intros Hdec. apply Hgen; try reflexivity; intros; try now repeat split.
    destruct Hdec as [Hd | Hd]; [congruence | lia].
  - intros Hdec Hpal. apply Hgen; try reflexivity.
    + intros name p E1 E2 E3 Em. destruct (Hpal name p E1 E2 E3) as [Hm _].
      congruence.
    + intros name p scheme E1 E2 E3 Es Eb.
      destruct (Hpal name p E1 E2 E3) as [_ [Hn | Hb]]; congruence.
    + intros Hd Hl. destruct Hdec as [Hd' | Hd']; [congruence | lia].
Qed.

Lemma built_chunk_textured (name : string) : textured (built_chunk name).
Proof. eexists. split; [reflexivity | discriminate]. Qed.

Lemma build_basic_model_stage_skip_witness :
  confined_to rerun_only
    (fst (build_basic_model demo_engine
            (demo_world [built_chunk "job"; built_chunk "job lowpoly 50K"])
            0 "photos" "job" "proj" (demo_config None) true 0 [])).
Proof.
  refine (proj2 (proj2 (@build_basic_model_stage_skip demo_engine
            (demo_world [built_chunk "job"; built_chunk "job lowpoly 50K"])
            0 "photos" "job" "proj" (demo_config None) true 0%Z
            (built_chunk "job") [built_chunk "job lowpoly 50K"]
            eq_refl eq_refl _ _ _)) _ _).
  - discriminate.
  - discriminate.
  - repeat constructor; apply built_chunk_textured.
  - right. simpl. lia.
  - intros name p H. discriminate.
Defined.

(** One built, textured chunk and decimation requested: the chunk is
    duplicated and the duplicate decimated. *)
Lemma build_basic_model_decimates_single_chunk :
  cameras (built_chunk "job") <> []
  /\ point_cloud (built_chunk "job") <> None
  /\ Forall textured [built_chunk "job"]
  /\ fst (build_basic_model demo_engine (demo_world [built_chunk "job"])
            0 "photos" "job" "proj" (demo_config None) true 0 [])
     = [EvOpen "proj/job.psx"; EvSave; EvRemoveComponents 600; EvSave;
        EvCloseHoles; EvSave; EvCopyChunk; EvDecimateModel 50000].
Proof.
  repeat split; try discriminate.
  - repeat constructor. apply built_chunk_textured.
Qed.

(** C4.  On a chunk with the markers "target 1" and "target 2": building the
    bar (1, 2) and building it again leaves one scale bar, but building the
    same pair with its end points swapped, (2, 1), adds a second scale bar on
    the same two markers.  The test for an existing bar compares [point0]
    where [point1] was meant. *)
Theorem build_scalebars_from_list_reversed_pair :
  forall eng : Engine,
    exists c1 c2 c3 : Chunk,
      snd (ModelHelpers.build_scalebars_from_list eng [bar_1_2] two_markers)
      = Ok (tt, c1)
      /\ bar_ends c1 = [(1, 2)]%nat
      /\ snd (ModelHelpers.build_scalebars_from_list eng [bar_1_2] c1) = Ok (tt, c2)
      /\ bar_ends c2 = [(1, 2)]%nat
      /\ snd (ModelHelpers.build_scalebars_from_list eng [bar_2_1] c1) = Ok (tt, c3)
      /\ bar_ends c3 = [(1, 2); (2, 1)]%nat.
Proof.
  intros eng. do 3 eexists.
  split; [reflexivity |]. split; [reflexivity |].
  split; [reflexivity |]. split; [reflexivity |].
  split; reflexivity.
Qed.

(** C6.  On a chunk without markers [find_axes_from_markers] returns [None],
    and [reorient_model] raises [TypeError] at [len(axes)]: no warning is
    logged and the call does not return normally (the transform is not
    touched before the exception). *)
Theorem reorient_model_without_markers :
  forall (eng : Engine) (w : MetashapeTools.World) (config : Photogrammetry)
         (chunk : Chunk) (name : string) (pal : Palette),
    palette config = Some name ->
    lookup name (MetashapeTools.palettes w) = Ok pal ->
    markers chunk = [] ->
    MetashapeTools.reorient_model eng w config chunk = ([], Raise TypeError).
Proof.
  intros eng w config chunk name pal Hname Hpal Hmarkers.
  unfold MetashapeTools.reorient_model, ModelHelpers.find_axes_from_markers,
    ModelHelpers.load_palettes, bindA, lift, get, ret.
  rewrite Hname. cbn [of_option Py.bind]. rewrite Hpal, Hmarkers.
  reflexivity.
Qed.

Lemma reorient_model_without_markers_witness :
  MetashapeTools.reorient_model demo_engine (demo_world [])
    (demo_config (Some "demo"%string)) empty_chunk
  = ([], Raise TypeError).
Proof.
  apply (@reorient_model_without_markers demo_engine (demo_world [])
           (demo_config (Some "demo"%string)) empty_chunk "demo" demo_palette);
    reflexivity.
Defined.

(* ================================================================== *)
(** * Further properties *)
(* ================================================================== *)

(** ** Rules for [calls_only], and inversion of a sequence that returned *)

Section CallRules.

Variable S : Type.
Variable P : Event -> Prop.

Lemma co_ret (A : Type) (a : A) : calls_only P (ret (S := S) a).
Proof. intros s. constructor. Qed.

Lemma co_get : calls_only P (get (S := S)).
Proof. intros s. constructor. Qed.

Lemma co_modify (f : S -> S) : calls_only P (modify f).
Proof. intros s. constructor. Qed.

Lemma co_raise (A : Type) (e : PyError) : calls_only P (raise (S := S) (A := A) e).
Proof. intros s. constructor. Qed.

Lemma co_lift (A : Type) (r : result A) : calls_only P (lift (S := S) r).
Proof. intros s. destruct r; constructor. Qed.

Lemma co_emit (e : Event) : P e -> calls_only P (emit (S := S) e).
Proof. intros H s. constructor; [exact H | constructor]. Qed.

Lemma co_bind (A B : Type) (m : Act S A) (k : A -> Act S B) :
  calls_only P m -> (forall a, calls_only P (k a)) -> calls_only P (bindA m k).
Proof.
  intros Hm Hk s. unfold bindA. specialize (Hm s).
  destruct (m s) as [ev [[a s'] | e]]; cbn [fst] in *; [| exact Hm].
  specialize (Hk a s'). destruct (k a s') as [ev' r]; cbn [fst] in *.
  now apply Forall_app.
Qed.

Lemma co_for_each (A : Type) (l : list A) (body : A -> Act S unit) :
  (forall x, calls_only P (body x)) -> calls_only P (ModelHelpers.for_each l body).
Proof.
  intros Hbody. induction l as [| x r IH]; cbn [ModelHelpers.for_each].
  - apply co_ret.
  - apply co_bind; [apply Hbody | intros u; exact IH].
Qed.

(** A sequence that returned: both parts returned, and the calls are those
    of the first part followed by those of the second. *)
Lemma bindA_returned (A B : Type) (m : Act S A) (k : A -> Act S B) (s : S)
      (tr : list Event) (b : B) (s' : S) :
  bindA m k s = (tr, Ok (b, s')) ->
  exists t1 a s1 t2,
    m s = (t1, Ok (a, s1)) /\ k a s1 = (t2, Ok (b, s')) /\ tr = (t1 ++ t2)%list.
Proof.
  unfold bindA. destruct (m s) as [t1 [[a s1] | e]]; [| discriminate].
  destruct (k a s1) as [t2 r] eqn:E. intros H. injection H as <- ->.
  now exists t1, a, s1, t2.
Qed.

Lemma co_for_each_in (A : Type) (l : list A) (body : A -> Act S unit) :
  (forall x, In x l -> calls_only P (body x)) ->
  calls_only P (ModelHelpers.for_each l body).
Proof.
  induction l as [| x r IH]; intros Hbody; cbn [ModelHelpers.for_each].
  - apply co_ret.
  - apply co_bind; [apply Hbody; now left | intros u].
    apply IH. intros y Hy. apply Hbody. now right.
Qed.

End CallRules.

Lemma co_weaken (S A : Type) (P Q : Event -> Prop) (m : Act S A) :
  (forall e, P e -> Q e) -> calls_only P m -> calls_only Q m.
Proof.
  intros H Hm s. eapply Forall_impl; [exact H | apply Hm].
Qed.

Lemma bindA_lift_ok (S A B : Type) (a : A) (k : A -> Act S B) (s : S) :
  bindA (lift (Ok a)) k s = k a s.
Proof.
  unfold bindA, lift. now destruct (k a s).
Qed.

Lemma bindA_known (S A B : Type) (m : Act S A) (k : A -> Act S B) (s s' : S)
      (tr : list Event) (a : A) :
  m s = (tr, Ok (a, s')) ->
  bindA m k s = ((tr ++ fst (k a s'))%list, snd (k a s')).
Proof.
  intros H. unfold bindA. rewrite H. now destruct (k a s').
Qed.

Lemma bindA_raised (S A B : Type) (m : Act S A) (k : A -> Act S B) (s : S)
      (tr : list Event) (e : PyError) :
  m s = (tr, Raise e) -> bindA m k s = (tr, Raise e).
Proof.
  intros H. unfold bindA. now rewrite H.
Qed.

Lemma lookup_missing (A : Type) (key : string) (d : list (string * A)) :
  ~ In key (map fst d) -> lookup key d = Raise KeyError.
Proof.
  induction d as [| [k v] d IH]; intros Hn; simpl; [reflexivity |].
  destruct (String.eqb k key) eqn:E.
  - apply String.eqb_eq in E. subst k. exfalso. apply Hn. now left.
  - apply IH. intros H. apply Hn. now right.
Qed.


Lemma co_stage (S A : Type) (ok : Stage -> bool) (m : Act S A) :
  emits_only ok m -> calls_only (fun e => ok (stage_of e) = true) m.
Proof. intros H. exact H. Qed.

(* ================================================================== *)
(** * Further properties: image processing *)
(* ================================================================== *)

Section ConversionFacts.

Import ImageProcessing.

Variable env : FsEnv.

Lemma in_made (output : string) (acts : list FsAction) (a : FsAction) :
  (forall p, a <> Mkdir p) ->
  In a ((if path_exists env output then [] else [Mkdir output]) ++ acts) ->
  In a acts.
Proof.
  intros Hne Hin. apply in_app_or in Hin. destruct Hin as [Hin | Hin]; [| exact Hin].
  destruct (path_exists env output); [destruct Hin |].
  destruct Hin as [<- | []]. now destruct (Hne output).
Qed.

(** X1.  The path [process_image] returns names the file it wrote only for
    a conversion to TIF.  For a conversion to JPG the file written is the
    returned path with ".jpg" appended: the returned path has no
    extension. *)
Theorem process_image_returned_path :
  forall (filepath output : string) (config : ProcessingConfig)
         (acts : list FsAction) (processedpath : string),
    process_image env filepath output config = (acts, Ok processedpath) ->
    (forall i o, In (RawToTif i o) acts -> i = filepath /\ o = processedpath)
    /\ (forall i o, In (RawToJpg i o) acts \/ In (ImageToJpg i o) acts ->
          i = filepath /\ o = (processedpath ++ ".jpg")%string).
Proof.
  intros filepath output config acts processedpath H.
  unfold process_image, convert_CR2_to_TIF, convertToJPG in H.
  assert (Hcases :
    (acts = (if path_exists env output then [] else [Mkdir output]) ++ []
     /\ processedpath = ""%string)
    \/ (acts = (if path_exists env output then [] else [Mkdir output])
               ++ [RawToTif filepath processedpath])
    \/ (acts = (if path_exists env output then [] else [Mkdir output])
               ++ [RawToJpg filepath (processedpath ++ ".jpg")])
    \/ (acts = (if path_exists env output then [] else [Mkdir output])
               ++ [ImageToJpg filepath (processedpath ++ ".jpg")])).
  { repeat match type of H with
           | context [if ?b then _ else _] => destruct b
           end;
      cbn in H; try discriminate; injection H as <- <-; auto. }
  assert (Hsolve : forall a : FsAction,
             (forall p, a <> Mkdir p) -> In a acts ->
             a = RawToTif filepath processedpath
             \/ a = RawToJpg filepath (processedpath ++ ".jpg")
             \/ a = ImageToJpg filepath (processedpath ++ ".jpg")).
  { intros a Hne Hin.
    destruct Hcases as [[-> _] | [-> | [-> | ->]]];
      apply (in_made _ _ Hne) in Hin;
      simpl in Hin; intuition. }
  split.
  - intros i o Hin.
    assert (Hne : forall p, RawToTif i o <> Mkdir p) by discriminate.
    destruct (Hsolve _ Hne Hin) as [E | [E | E]]; try discriminate.
    now injection E as -> ->.
  - intros i o [Hin | Hin].
    + assert (Hne : forall p, RawToJpg i o <> Mkdir p) by discriminate.
      destruct (Hsolve _ Hne Hin) as [E | [E | E]]; try discriminate.
      now injection E as -> ->.
    + assert (Hne : forall p, ImageToJpg i o <> Mkdir p) by discriminate.
      destruct (Hsolve _ Hne Hin) as [E | [E | E]]; try discriminate.
      now injection E as -> ->.
Qed.

End ConversionFacts.

Lemma process_image_returned_path_witness :
  ImageProcessing.process_image demo_fs "shot.CR2" "out"
    (ImageProcessing.Build_ProcessingConfig ".jpg")
  = ([ImageProcessing.ImageToJpg "shot.CR2" "out/shot.CR2.jpg"], Ok "out/shot.CR2"%string)
  /\ (forall i o,
        In (ImageProcessing.RawToJpg i o)
           [ImageProcessing.ImageToJpg "shot.CR2" "out/shot.CR2.jpg"]
        \/ In (ImageProcessing.ImageToJpg i o)
              [ImageProcessing.ImageToJpg "shot.CR2" "out/shot.CR2.jpg"] ->
        i = "shot.CR2"%string /\ o = ("out/shot.CR2" ++ ".jpg")%string).
Proof.
  split; [reflexivity |].
  apply (@process_image_returned_path demo_fs "shot.CR2" "out"
           (ImageProcessing.Build_ProcessingConfig ".jpg")
           [ImageProcessing.ImageToJpg "shot.CR2" "out/shot.CR2.jpg"]
           "out/shot.CR2" eq_refl).
Defined.

Section ExifKeyFacts.

Import ImageProcessing ExifSpec.

Variable V : Type.
Variable tables : ExifTags.

Lemma initial_keys_hold_codes (l : list (Z * V)) (code : Z) (val : V) :
  In (code, val) l ->
  dict_has (map (fun cv => (KCode (fst cv), snd cv)) l) (KCode code) = true.
Proof.
  intros Hin. unfold dict_has. apply existsb_exists.
  exists (KCode code, val). split.
  - apply in_map_iff. now exists (code, val).
  - apply Z.eqb_refl.
Qed.

(** X2.  Flattening only adds keys.  Every top-level tag code of the image
    is still a key of the mapping [get_exif_data] returns; and when the code
    is no directory pointer, the mapping also has the tag under the name
    [TAGS] gives it (under the code itself when [TAGS] has no name). *)
Theorem get_exif_data_keeps_codes :
  forall (e : ExifObject V) (code : Z) (val : V),
    In (code, val) (items e) ->
    dict_has (get_exif_data tables e) (KCode code) = true
    /\ (IFD tables code = None ->
        dict_has (get_exif_data tables e) (tagname tables code) = true).
Proof.
  intros e code val Hin. unfold get_exif_data. split.
  - rewrite dict_has_flatten_items.
    now rewrite (initial_keys_hold_codes _ _ _ Hin).
  - intros Hifd. rewrite dict_has_flatten_items.
    apply orb_true_iff. right. apply existsb_exists.
    exists (code, val). split; [exact Hin |].
    unfold contributes. cbn [fst]. rewrite Hifd. apply key_eqb_refl.
Qed.

End ExifKeyFacts.

Lemma get_exif_data_keeps_codes_witness :
  ImageProcessing.dict_has
    (ImageProcessing.get_exif_data demo_tables demo_exif)
    (ImageProcessing.KCode 271) = true
  /\ (ImageProcessing.IFD demo_tables 271 = None ->
      ImageProcessing.dict_has
        (ImageProcessing.get_exif_data demo_tables demo_exif)
        (ImageProcessing.tagname demo_tables 271) = true).
Proof.
  apply (@get_exif_data_keeps_codes string demo_tables demo_exif 271%Z "Canon"%string).
  right. right. left. reflexivity.
Defined.

Section ColorCardFacts.

Import ImageProcessing.

Variable Pixel : Type.

(** X3.  [findGray] uses the horizontal offset as the row index: the pixel
    it reads sits at row [w/2 + 3(w/8)] and column [h/2 - 3(w/8)] (counted
    from the right edge when negative).  So on an image whose width exceeds
    its height by more than a seventh (8h + 25 <= 7w suffices) the row is
    out of range and the call raises [IndexError]. *)
Theorem findGray_row_is_horizontal_offset :
  forall (img : Image Pixel),
    let h := Z.of_nat (height img) in
    let w := Z.of_nat (width img) in
    ((8 * h + 25 <= 7 * w)%Z -> findGray img = Raise IndexError)
    /\ (forall px, findGray img = Ok px ->
          (w / 2 + 3 * (w / 8) < h)%Z
          /\ px = pixel img (w / 2 + 3 * (w / 8))%Z ((h / 2 - 3 * (w / 8)) mod w)%Z).
Proof.
  intros img h w.
  assert (Hh : (0 <= h)%Z) by apply Nat2Z.is_nonneg.
  assert (Hw : (0 <= w)%Z) by apply Nat2Z.is_nonneg.
  pose proof (Z.div_mod w 2 ltac:(lia)) as D2.
  pose proof (Z.mod_pos_bound w 2 ltac:(lia)) as M2.
  pose proof (Z.div_mod w 8 ltac:(lia)) as D8.
  pose proof (Z.mod_pos_bound w 8 ltac:(lia)) as M8.
  pose proof (Z.div_mod h 2 ltac:(lia)) as E2.
  pose proof (Z.mod_pos_bound h 2 ltac:(lia)) as N2.
  unfold findGray, axis_index. cbn [fst snd]. fold h. fold w.
  set (row := (w / 2 + 3 * (w / 8))%Z) in *.
  set (col := (h / 2 - 3 * (w / 8))%Z) in *.
  split.
  - intros Hwide.
    assert (R1 : ((0 <=? row) && (row <? h))%Z = false).
    { apply andb_false_iff. right. apply Z.ltb_ge. unfold row. lia. }
    assert (R2 : ((- h <=? row) && (row <? 0))%Z = false).
    { apply andb_false_iff. right. apply Z.ltb_ge. unfold row. lia. }
    now rewrite R1, R2.
  - intros px H.
    destruct ((0 <=? row) && (row <? h))%Z eqn:R1.
    + apply andb_true_iff in R1. destruct R1 as [_ R1]. apply Z.ltb_lt in R1.
      split; [exact R1 |].
      cbn [bind] in H.
      destruct ((0 <=? col) && (col <? w))%Z eqn:C1.
      * apply andb_true_iff in C1. destruct C1 as [C0 C1].
        apply Z.leb_le in C0. apply Z.ltb_lt in C1.
        cbn [bind] in H. injection H as <-.
        now rewrite Z.mod_small by lia.
      * destruct ((- w <=? col) && (col <? 0))%Z eqn:C2; [| discriminate].
        apply andb_true_iff in C2. destruct C2 as [C0 C2].
        apply Z.leb_le in C0. apply Z.ltb_lt in C2.
        cbn [bind] in H. injection H as <-.
        f_equal. apply Z.mod_unique with (q := (-1)%Z); lia.
    + destruct ((- h <=? row) && (row <? 0))%Z eqn:R2; [| discriminate].
      apply andb_true_iff in R2. destruct R2 as [_ R2]. apply Z.ltb_lt in R2.
      unfold row in R2. lia.
Qed.

Lemma marker_corner_raises (d : Detection) (ids : list Z) (id : Z) (k : nat)
      (e : PyError) :
  marker_corner d ids id k = Raise e -> e = TypeError \/ e = IndexError.
Proof.
  unfold marker_corner.
  destruct (where_eq ids id 0) as [| idindex [| ? ?]];
    try (intros H; injection H as <-; now left).
  destruct (nth_error (det_corners d) idindex) as [quad |]; cbn [of_option bind].
  - destruct (nth_error quad k); cbn [of_option]; [discriminate |].
    intros H. injection H as <-. now right.
  - intros H. injection H as <-. now right.
Qed.

(** X4.  [get_color_card_from_image] never returns a card.  When the
    detector finds no marker, [ids] is [None] and [ids.flatten()] raises
    [AttributeError] before the [try] block; otherwise whatever happens in
    the block ends in the handler, which returns [None]: once the four
    corners are found the block looks up [processingTools.perspective_transform],
    a name the module does not bind. *)
Theorem get_color_card_from_image_never_returns_card :
  forall (Card : Type) (warp : list ProcessingTools.Point -> Card) (d : Detection),
    get_color_card_from_image warp d
    = match det_ids d with
      | None => Raise AttributeError
      | Some _ => Ok None
      end.
Proof.
  intros Card warp d. unfold get_color_card_from_image.
  destruct (det_ids d) as [ids |]; [| reflexivity].
  cbn [of_option bind].
  destruct (marker_corner d ids 2 0) as [tl | e] eqn:E0;
    [| destruct (marker_corner_raises _ _ _ _ E0) as [-> | ->]; reflexivity].
  destruct (marker_corner d ids 3 1) as [tr | e] eqn:E1;
    [| destruct (marker_corner_raises _ _ _ _ E1) as [-> | ->]; reflexivity].
  destruct (marker_corner d ids 0 2) as [br | e] eqn:E2;
    [| destruct (marker_corner_raises _ _ _ _ E2) as [-> | ->]; reflexivity].
  destruct (marker_corner d ids 1 3) as [bl | e] eqn:E3;
    [| destruct (marker_corner_raises _ _ _ _ E3) as [-> | ->]; reflexivity].
  reflexivity.
Qed.

End ColorCardFacts.

Lemma findGray_row_is_horizontal_offset_witness :
  ImageProcessing.findGray landscape_image = Raise IndexError.
Proof.
  apply (proj1 (@findGray_row_is_horizontal_offset nat landscape_image)).
  vm_compute. discriminate.
Defined.

Section RectangleFacts.

Import ProcessingTools.
Local Open Scope Q_scope.

(** X5.  On the four corners of an axis-aligned rectangle, listed in any
    order, [ptsToClockwiseRect] returns top-left, top-right, bottom-right,
    bottom-left (image coordinates: [y] grows downwards). *)
Theorem ptsToClockwiseRect_rectangle :
  forall (x0 y0 x1 y1 : Q) (pts : list Point),
    x0 < x1 -> y0 < y1 ->
    Permutation pts [(x0, y0); (x1, y0); (x1, y1); (x0, y1)] ->
    ptsToClockwiseRect pts = Ok [(x0, y0); (x1, y0); (x1, y1); (x0, y1)].
Proof.
  intros x0 y0 x1 y1 pts Hx Hy Hperm.
  set (rect := [(x0, y0); (x1, y0); (x1, y1); (x0, y1)]) in *.
  destruct pts as [| p pts].
  { apply Permutation_length in Hperm. discriminate. }
  assert (Hin : forall q, In q (p :: pts) <-> In q rect).
  { intros q. split; apply Permutation_in;
      [exact Hperm | now apply Permutation_sym]. }
  assert (A : In (x0, y0) (p :: pts)) by (apply Hin; simpl; auto).
  assert (B : In (x1, y0) (p :: pts)) by (apply Hin; simpl; auto).
  assert (C : In (x1, y1) (p :: pts)) by (apply Hin; simpl; auto).
  assert (D : In (x0, y1) (p :: pts)) by (apply Hin; simpl; auto).
  destruct (argmin_picks row_sum p pts) as [i0 [E0 [I0 M0]]].
  destruct (argmax_picks row_sum p pts) as [i2 [E2 [I2 M2]]].
  destruct (argmin_picks row_diff p pts) as [i1 [E1 [I1 M1]]].
  destruct (argmax_picks row_diff p pts) as [i3 [E3 [I3 M3]]].
  unfold ptsToClockwiseRect. rewrite E0, E2, E1, E3. cbn [bind].
  pose proof (M0 _ A) as M0a. pose proof (M0 _ B) as M0b.
  pose proof (M0 _ C) as M0c. pose proof (M0 _ D) as M0d.
  pose proof (M2 _ A) as M2a. pose proof (M2 _ B) as M2b.
  pose proof (M2 _ C) as M2c. pose proof (M2 _ D) as M2d.
  pose proof (M1 _ A) as M1a. pose proof (M1 _ B) as M1b.
  pose proof (M1 _ C) as M1c. pose proof (M1 _ D) as M1d.
  pose proof (M3 _ A) as M3a. pose proof (M3 _ B) as M3b.
  pose proof (M3 _ C) as M3c. pose proof (M3 _ D) as M3d.
  apply Hin in I0, I1, I2, I3.
  clear M0 M1 M2 M3 E0 E1 E2 E3 Hin A B C D Hperm.
  unfold rect in *. clear rect.
  unfold row_sum, row_diff in *.
  assert (T0 : nth i0 (p :: pts) origin = (x0, y0)).
  { destruct I0 as [<- | [E | [E | [E | []]]]]; [reflexivity | | |];
      rewrite <- E in *; cbn [fst snd] in *; exfalso; lra. }
  assert (T2 : nth i2 (p :: pts) origin = (x1, y1)).
  { destruct I2 as [E | [E | [<- | [E | []]]]]; [| | reflexivity |];
      rewrite <- E in *; cbn [fst snd] in *; exfalso; lra. }
  assert (T1 : nth i1 (p :: pts) origin = (x1, y0)).
  { destruct I1 as [E | [<- | [E | [E | []]]]]; [| reflexivity | |];
      rewrite <- E in *; cbn [fst snd] in *; exfalso; lra. }
  assert (T3 : nth i3 (p :: pts) origin = (x0, y1)).
  { destruct I3 as [E | [E | [E | [<- | []]]]]; [| | | reflexivity];
      rewrite <- E in *; cbn [fst snd] in *; exfalso; lra. }
  now rewrite T0, T1, T2, T3.
Qed.

End RectangleFacts.

Lemma ptsToClockwiseRect_rectangle_witness :
  ProcessingTools.ptsToClockwiseRect [(10, 10); (0, 10); (0, 0); (10, 0)]%Q
  = Ok [(0, 0); (10, 0); (10, 10); (0, 10)]%Q.
Proof.
  apply (@ptsToClockwiseRect_rectangle 0 0 10 10 [(10, 10); (0, 10); (0, 0); (10, 0)]%Q).
  - reflexivity.
  - reflexivity.
  - apply Permutation_sym.
    apply perm_trans with (l' := [(10, 0); (0, 0); (10, 10); (0, 10)]%Q).
    + apply perm_swap.
    + apply perm_trans with (l' := [(10, 0); (10, 10); (0, 0); (0, 10)]%Q).
      * apply perm_skip, perm_swap.
      * apply perm_trans with (l' := [(10, 10); (10, 0); (0, 0); (0, 10)]%Q).
        -- apply perm_swap.
        -- apply perm_skip.
           apply perm_trans with (l' := [(0, 0); (10, 0); (0, 10)]%Q).
           ++ apply perm_swap.
           ++ apply perm_trans with (l' := [(0, 0); (0, 10); (10, 0)]%Q).
              ** apply perm_skip, perm_swap.
              ** apply perm_swap.
Defined.

(* ================================================================== *)
(** * Further properties: the model helpers *)
(* ================================================================== *)

Section CleanupFacts.

Import ModelHelpers.

Lemma threshold_below (n s : nat) :
  (Qfloor (inject_Z (Z.of_nat n) * (6 # 10)) <? Z.of_nat s)%Z = true
  <-> (6 * n < 10 * s)%nat.
Proof.
  unfold Qfloor, Qmult, inject_Z. cbn [Qnum Qden].
  rewrite Z.ltb_lt. change (Z.pos (1 * 10)) with 10%Z.
  split; intros H.
  - assert (Z.of_nat n * 6 < 10 * Z.of_nat s)%Z; [| lia].
    pose proof (Z.div_mod (Z.of_nat n * 6) 10 ltac:(lia)) as D.
    pose proof (Z.mod_pos_bound (Z.of_nat n * 6) 10 ltac:(lia)) as M. lia.
  - apply Z.div_lt_upper_bound; lia.
Qed.

Lemma list_sum_filter (g : nat -> bool) (l : list nat) :
  (list_sum (filter g l) <= list_sum l)%nat.
Proof.
  induction l as [| a l IH]; simpl; [lia |].
  destruct (g a); simpl; lia.
Qed.

Lemma dominant_unique (n : nat) (l : list nat) :
  (list_sum l <= n)%nat -> Forall (fun s => (6 * n < 10 * s)%nat) l ->
  (List.length l <= 1)%nat.
Proof.
  intros Hsum Hall.
  destruct l as [| a [| b r]]; simpl; try lia.
  inversion Hall as [| ? ? Ha Hall']; subst.
  inversion Hall' as [| ? ? Hb _]; subst.
  simpl in Hsum. lia.
Qed.

(** X6.  [cleanup_blobs] on a chunk with a mesh keeps exactly the connected
    components that hold more than 60% of the faces, so at most one
    component is left (none when no component is that large); the textures
    are untouched.  ([removeComponents(t)] removes the components of at
    most [t] faces.) *)
Theorem cleanup_blobs_keeps_dominant_component :
  forall (c : Chunk) (m : Model),
    model c = Some m ->
    exists (threshold : Z) (m' : Model),
      cleanup_blobs c
      = ([EvRemoveComponents threshold], Ok (tt, set_model (Some m') c))
      /\ textures m' = textures m
      /\ (forall s, In s (components m')
                    <-> In s (components m) /\ (6 * face_count m < 10 * s)%nat)
      /\ (List.length (components m') <= 1)%nat.
Proof.
  intros c m Hm.
  set (threshold := Qfloor (inject_Z (Z.of_nat (face_count m)) * (6 # 10))).
  exists threshold, (remove_components threshold m).
  assert (Hin : forall s, In s (components (remove_components threshold m))
                          <-> In s (components m) /\ (6 * face_count m < 10 * s)%nat).
  { intros s. unfold remove_components. cbn [components].
    rewrite filter_In. unfold threshold. now rewrite threshold_below. }
  split; [| split; [reflexivity | split; [exact Hin |]]].
  - unfold cleanup_blobs, bindA, get. rewrite Hm. reflexivity.
  - apply (dominant_unique (n := face_count m)).
    + unfold remove_components, face_count. cbn [components].
      apply list_sum_filter.
    + apply Forall_forall. intros s Hs. now apply Hin.
Qed.

End CleanupFacts.

Lemma cleanup_blobs_keeps_dominant_component_witness :
  exists (threshold : Z) (m' : Model),
    ModelHelpers.cleanup_blobs (built_chunk "vase")
    = ([EvRemoveComponents threshold],
       Ok (tt, set_model (Some m') (built_chunk "vase")))
    /\ textures m' = textures (Build_Model [900%nat; 100%nat] [4096%Z])
    /\ (forall s, In s (components m')
                  <-> In s (components (Build_Model [900%nat; 100%nat] [4096%Z]))
                      /\ (6 * face_count (Build_Model [900%nat; 100%nat] [4096%Z])
                          < 10 * s)%nat)
    /\ (List.length (components m') <= 1)%nat.
Proof.
  apply (@cleanup_blobs_keeps_dominant_component (built_chunk "vase")
           (Build_Model [900%nat; 100%nat] [4096%Z])).
  reflexivity.
Defined.

Section DetectionFacts.

Import ModelHelpers.

(** X7.  [detect_markers] with a marker type that is none of the six keys
    of [targetTypes] raises [KeyError] without detecting or refining
    anything; by then the markers the chunk had have been removed. *)
Theorem detect_markers_unknown_type :
  forall (eng : Engine) (markertype : string) (c : Chunk),
    ~ In markertype (map fst targetTypes) ->
    detect_markers eng markertype c
    = (match markers c with [] => [] | _ :: _ => [EvRemoveMarkers] end,
       Raise KeyError).
Proof.
  intros eng markertype c Hn.
  unfold detect_markers, set_chunk_accuracy, bindA, modify, get, lift, emit, ret.
  rewrite (lookup_missing _ _ Hn).
  cbn [markers set_chunk_accuracy_field].
  destruct (markers c); reflexivity.
Qed.

End DetectionFacts.

Lemma detect_markers_unknown_type_witness :
  ModelHelpers.detect_markers demo_engine "12Bit" two_markers
  = ([EvRemoveMarkers], Raise KeyError).
Proof.
  apply (@detect_markers_unknown_type demo_engine "12Bit" two_markers).
  simpl. intros H.
  repeat (destruct H as [H | H]; [discriminate |]). exact H.
Defined.

Section ScanOutcome.

Import ModelHelpers.
Local Open Scope Q_scope.

Variable filtertype : Criterion.
Variables max_error max_removal : Q.

(** How a scan ends: past the last value, or at a value [v] reached by
    passing only values above the bound, within the budget. *)
Lemma scan_outcome (rest pre : list Q) (c : Chunk) :
  Forall (fun x => max_error < x) pre ->
  (pre = [] \/ inject_Z (Z.of_nat (List.length pre)) <= max_removal) ->
  exists tr b c',
    scan_errorvals filtertype max_error max_removal rest (List.length pre) c
    = (tr, Ok (b, c'))
    /\ ((tr = [] /\ b = false /\ c' = c)
        \/ exists v pre' rest',
             (pre ++ rest = pre' ++ v :: rest')%list
             /\ Forall (fun x => max_error < x) pre'
             /\ (pre' = [] \/ inject_Z (Z.of_nat (List.length pre')) <= max_removal)
             /\ tr = [EvSelectPoints filtertype v; EvRemoveSelectedPoints]
             /\ b = Qle_bool v max_error
             /\ c' = set_tie_points (remove_selected filtertype v (tie_points c)) c).
Proof.
  revert pre. induction rest as [| v r IH]; intros pre Hpre Hb.
  - exists [], false, c. split; [reflexivity |]. now left.
  - destruct (Qgtb v max_error
              && Qle_bool (inject_Z (Z.of_nat (List.length pre) + 1)) max_removal)
      eqn:E.
    + apply andb_true_iff in E. destruct E as [Ev Ei].
      apply Qgtb_true in Ev. apply Qle_bool_iff in Ei.
      assert (Hlen : List.length (pre ++ [v]) = S (List.length pre)).
      { rewrite length_app. simpl. lia. }
      destruct (IH (pre ++ [v])%list) as [tr [b [c' [Hrun Hcase]]]].
      * apply Forall_app. split; [exact Hpre |]. now constructor.
      * right. rewrite Hlen.
        replace (Z.of_nat (S (List.length pre)))
          with (Z.of_nat (List.length pre) + 1)%Z by lia.
        exact Ei.
      * exists tr, b, c'. split.
        -- cbn [scan_errorvals].
           assert (Ev' : Qgtb v max_error = true) by now apply Qgtb_true.
           assert (Ei' : Qle_bool (inject_Z (Z.of_nat (List.length pre) + 1))
                           max_removal = true) by now apply Qle_bool_iff.
           rewrite Ev', Ei'. cbn [andb]. rewrite <- Hlen. exact Hrun.
        -- destruct Hcase as [Hcase | [v' [pre' [rest' [Hsplit Hrest]]]]];
             [now left | right].
           exists v', pre', rest'. split; [| exact Hrest].
           rewrite <- Hsplit, <- app_assoc. reflexivity.
    + exists [EvSelectPoints filtertype v; EvRemoveSelectedPoints],
             (Qle_bool v max_error),
             (set_tie_points (remove_selected filtertype v (tie_points c)) c).
      split; [now apply scan_stops |].
      right. exists v, pre, r. repeat split; assumption.
Qed.

End ScanOutcome.

Section RemovalInvariants.

Import ModelHelpers.
Local Open Scope Q_scope.

Variable f : Criterion.
Variables max_error max_points : Q.
Variable c : Chunk.

Let vals := sort_desc (values f c).
Let budget := inject_Z (Z.of_nat (List.length (tie_points c))) * max_points.

(** The outcome of a call, read on the sorted values. *)
Lemma removal_outcome :
  exists tr b c',
    remove_above_error_threshold f max_error max_points c = (tr, Ok (b, c'))
    /\ ((tr = [] /\ b = false /\ c' = c)
        \/ exists v pre rest,
             vals = (pre ++ v :: rest)%list
             /\ Forall (fun x => max_error < x) pre
             /\ (pre = [] \/ inject_Z (Z.of_nat (List.length pre)) <= budget)
             /\ Forall (fun x => x <= v) (v :: rest)
             /\ tr = [EvSelectPoints f v; EvRemoveSelectedPoints]
             /\ b = Qle_bool v max_error
             /\ c' = set_tie_points
                       (filter (fun p => Qle_bool (tp_value p f) v) (tie_points c)) c).
Proof.
  rewrite run_remove.
  destruct (@scan_outcome f max_error budget vals [] c
              (Forall_nil _) (or_introl eq_refl))
    as [tr [b [c' [Hrun Hcase]]]].
  exists tr, b, c'. split; [exact Hrun |].
  destruct Hcase as [Hcase | [v [pre [rest [Hsplit [Hpre [Hb [-> [-> ->]]]]]]]]];
    [now left | right].
  cbn [app] in Hsplit.
  exists v, pre, rest. repeat split; try assumption.
  - apply Forall_forall. intros x Hx.
    apply (sorted_head_max (v := v) (l := rest)); [| exact Hx].
    apply (sorted_app_tail pre). rewrite <- Hsplit. apply sort_desc_sorted.
  - now rewrite remove_selected_keeps.
Qed.

End RemovalInvariants.

(** X8.  Whatever the bound and the budget, [remove_above_error_threshold]
    returns; it deletes no tie point whose error is at most [max_error] and
    adds none; and when it returns [True], no tie point above [max_error]
    is left. *)
Theorem remove_above_error_threshold_spares_good_points :
  forall (chunk : Chunk) (filtertype : Criterion) (max_error max_points : Q),
    exists (b : bool) (chunk' : Chunk),
      snd (ModelHelpers.remove_above_error_threshold filtertype max_error max_points chunk)
      = Ok (b, chunk')
      /\ (forall p, In p (tie_points chunk') -> In p (tie_points chunk))
      /\ (forall p, In p (tie_points chunk) ->
                    (tp_value p filtertype <= max_error)%Q ->
                    In p (tie_points chunk'))
      /\ (b = true ->
          forall p, In p (tie_points chunk') -> (tp_value p filtertype <= max_error)%Q).
Proof.
  intros chunk filtertype max_error max_points.
  destruct (removal_outcome filtertype max_error max_points chunk)
    as [tr [b [c' [Hrun Hcase]]]].
  exists b, c'. rewrite Hrun. split; [reflexivity |].
  destruct Hcase as [[_ [-> ->]] | [v [pre [rest [Hsplit [Hpre [_ [Hrest [_ [-> ->]]]]]]]]]].
  - repeat split; try tauto. discriminate.
  - cbn [tie_points set_tie_points]. split; [| split].
    + intros p Hp. apply filter_In in Hp. tauto.
    + intros p Hp Hle. apply filter_In. split; [exact Hp |].
      apply Qle_bool_iff.
      pose proof (value_in_sorted filtertype chunk p Hp) as Hin.
      rewrite Hsplit in Hin. apply in_app_or in Hin. destruct Hin as [Hin | Hin].
      * rewrite Forall_forall in Hpre. specialize (Hpre _ Hin).
        exfalso. apply (Qlt_not_le _ _ Hpre Hle).
      * rewrite Forall_forall in Hrest. now apply Hrest.
    + intros Hb p Hp. apply filter_In in Hp. destruct Hp as [_ Hp].
      apply Qle_bool_iff in Hp. apply Qle_bool_iff in Hb.
      eapply Qle_trans; eassumption.
Qed.

Lemma filter_length_complement (A : Type) (g : A -> bool) (l : list A) :
  (List.length (filter g l) + List.length (filter (fun x => negb (g x)) l)
   = List.length l)%nat.
Proof.
  induction l as [| a l IH]; simpl; [reflexivity |].
  destruct (g a); simpl; lia.
Qed.

(** X9.  [remove_above_error_threshold] never deletes more tie points than
    the budget [num_points * max_points] allows: it deletes none, or a
    number that is at most the budget. *)
Theorem remove_above_error_threshold_respects_budget :
  forall (chunk : Chunk) (filtertype : Criterion) (max_error max_points : Q),
    exists (b : bool) (chunk' : Chunk),
      snd (ModelHelpers.remove_above_error_threshold filtertype max_error max_points chunk)
      = Ok (b, chunk')
      /\ (List.length (tie_points chunk') <= List.length (tie_points chunk))%nat
      /\ let removed :=
           (List.length (tie_points chunk) - List.length (tie_points chunk'))%nat in
         removed = 0%nat
         \/ (inject_Z (Z.of_nat removed)
             <= inject_Z (Z.of_nat (List.length (tie_points chunk))) * max_points)%Q.
Proof.
  intros chunk filtertype max_error max_points.
  destruct (removal_outcome filtertype max_error max_points chunk)
    as [tr [b [c' [Hrun Hcase]]]].
  exists b, c'. rewrite Hrun. split; [reflexivity |].
  destruct Hcase as [[_ [-> ->]] | [v [pre [rest [Hsplit [Hpre [Hb [Hrest [_ [-> ->]]]]]]]]]].
  - split; [lia |]. left. lia.
  - cbn [tie_points set_tie_points].
    set (pts := tie_points chunk).
    set (kept := filter (fun p => Qle_bool (tp_value p filtertype) v) pts).
    assert (Hkept : (List.length kept
                     + List.length (filter (fun p => ModelHelpers.Qgtb (tp_value p filtertype) v) pts)
                     = List.length pts)%nat).
    { unfold kept. rewrite <- (filter_length_complement
                                (fun p => Qle_bool (tp_value p filtertype) v) pts).
      reflexivity. }
    assert (Hcount : (List.length (filter (fun p => ModelHelpers.Qgtb (tp_value p filtertype) v) pts)
                      <= List.length pre)%nat).
    { unfold pts. rewrite count_above, Hsplit, filter_app, length_app.
      rewrite (filter_none (fun x => ModelHelpers.Qgtb x v) (l := v :: rest)).
      - simpl. rewrite Nat.add_0_r. apply filter_length_le.
      - eapply Forall_impl; [| exact Hrest]. intros x Hx. now apply Qgtb_false. }
    split; [lia |].
    cbv zeta.
    destruct Hb as [-> | Hb].
    + left. simpl in Hcount. lia.
    + right. eapply Qle_trans; [| exact Hb].
      rewrite <- Zle_Qle. lia.
Qed.

Section StallFacts.

Import ModelHelpers.
Local Open Scope Q_scope.

Lemma set_tie_points_same (c : Chunk) : set_tie_points (tie_points c) c = c.
Proof. now destruct c. Qed.

Lemma filter_keeps_all (A : Type) (g : A -> bool) (l : list A) :
  filter (fun x => negb (g x)) l = [] -> filter g l = l.
Proof.
  induction l as [| a l IH]; simpl; [reflexivity |].
  destruct (g a); simpl; [| discriminate].
  intros H. now rewrite IH.
Qed.

(** A call whose budget is below one point, on a cloud whose worst point is
    above the bound, selects at the largest value: nothing lies above it. *)
Lemma removal_stalls (f : Criterion) (max_error max_points : Q) (c : Chunk) :
  (exists p, In p (tie_points c) /\ max_error < tp_value p f) ->
  inject_Z (Z.of_nat (List.length (tie_points c))) * max_points < 1 ->
  exists v,
    remove_above_error_threshold f max_error max_points c
    = ([EvSelectPoints f v; EvRemoveSelectedPoints], Ok (false, c)).
Proof.
  intros [p [Hp Hgt]] Hbudget.
  assert (Hk : (0 < List.length
                      (filter (fun q => Qgtb (tp_value q f) max_error) (tie_points c)))%nat).
  { assert (Hin : In p (filter (fun q => Qgtb (tp_value q f) max_error) (tie_points c))).
    { apply filter_In. split; [exact Hp | now apply Qgtb_true]. }
    destruct (filter (fun q => Qgtb (tp_value q f) max_error) (tie_points c));
      [destruct Hin | simpl; lia]. }
  destruct (@budget_stop f max_error max_points c 0 (or_introl eq_refl) Hbudget Hk)
    as [_ [Hrun [Hle _]]].
  exists (nth 0 (sort_desc (values f c)) 0). rewrite Hrun.
  replace (filter (fun q => Qle_bool (tp_value q f) (nth 0 (sort_desc (values f c)) 0))
             (tie_points c)) with (tie_points c).
  - now rewrite set_tie_points_same.
  - symmetry. apply filter_keeps_all.
    apply length_zero_iff_nil.
    match type of Hle with (List.length ?l <= 0)%nat =>
      assert (E : List.length l = 0%nat) by lia end.
    exact E.
Qed.

(** X10.  The reprojection loop of [refine_sparse_cloud] makes no progress
    by itself when the per-iteration budget is below one point
    ([num_points * reprojection_max_selection_per_iteration < 1]) while some
    point is above [reprojection_error]: each pass selects at the largest
    error, deletes nothing and reports [False].  If camera optimisation
    leaves the tie points as they are, the loop never ends. *)
Theorem reprojection_loop_stalls :
  forall (fuel : nat) (eng : Engine) (thresholds : ErrorThresholds)
         (min_remaining_points : Q) (c : Chunk),
    eng_optimized eng c false = tie_points c ->
    (exists p, In p (tie_points c)
               /\ reprojection_error thresholds < tp_value p ReprojectionError) ->
    inject_Z (Z.of_nat (List.length (tie_points c)))
    * reprojection_max_selection_per_iteration thresholds < 1 ->
    min_remaining_points < inject_Z (Z.of_nat (List.length (tie_points c))) ->
    snd (reprojection_loop eng fuel thresholds min_remaining_points false c)
    = Raise Nontermination.
Proof.
  intros fuel eng thresholds min_remaining_points c Hopt Hbad Hbudget Hmin.
  destruct (@removal_stalls ReprojectionError _ _ c Hbad Hbudget) as [v Hrun].
  assert (Hcond : Qgtb (inject_Z (Z.of_nat (List.length (tie_points c))))
                    min_remaining_points && negb false = true).
  { apply andb_true_iff. split; [now apply Qgtb_true | reflexivity]. }
  induction fuel as [| fuel IH].
  - cbn [reprojection_loop]. unfold bindA at 1, get at 1.
    rewrite Hcond. reflexivity.
  - cbn [reprojection_loop]. unfold bindA at 1, get at 1.
    rewrite Hcond. cbn [fst snd].
    unfold bindA at 1. rewrite Hrun.
    unfold bindA at 1, optimize_cameras, bindA at 1, emit, modify.
    rewrite Hopt, set_tie_points_same.
    destruct (reprojection_loop eng fuel thresholds min_remaining_points false c)
      as [tr r] eqn:E.
    cbn [snd] in IH. subst r. reflexivity.
Qed.

End StallFacts.

Lemma reprojection_loop_stalls_witness :
  snd (ModelHelpers.reprojection_loop demo_engine 5 demo_thresholds (27 # 10) false
         (population [7; 8; 9]%Q))
  = Raise Nontermination.
Proof.
  apply (@reprojection_loop_stalls 5 demo_engine demo_thresholds (27 # 10)
           (population [7; 8; 9]%Q)).
  - reflexivity.
  - exists (point_with 0 7). split; [left; reflexivity | reflexivity].
  - reflexivity.
  - reflexivity.
Defined.


Section RefineFacts.

Import ModelHelpers.
Local Open Scope Q_scope.

Variable eng : Engine.

(** Neither a save nor the final optimisation. *)
Let quiet (e : Event) : Prop :=
  is_save e = false /\ is_final_optimization e = false.

Lemma co_remove_above (f : Criterion) (max_error max_points : Q) :
  calls_only quiet (remove_above_error_threshold f max_error max_points).
Proof.
  intros c.
  destruct (removal_outcome f max_error max_points c) as [tr [b [c' [Hrun Hcase]]]].
  rewrite Hrun. cbn [fst].
  destruct Hcase as [[-> _] | [v [pre [rest [_ [_ [_ [_ [-> _]]]]]]]]].
  - constructor.
  - repeat constructor.
Qed.

Lemma co_reprojection_loop (fuel : nat) (thresholds : ErrorThresholds)
      (min_remaining_points : Q) (reachedgoal : bool) :
  calls_only quiet (reprojection_loop eng fuel thresholds min_remaining_points reachedgoal).
Proof.
  revert reachedgoal. induction fuel as [| fuel IH]; intros reachedgoal;
    cbn [reprojection_loop];
    (apply co_bind; [apply co_get | intros chunk]);
    match goal with |- context [if ?b then _ else _] => destruct b end;
    try apply co_ret; try apply co_raise.
  apply co_bind; [apply co_remove_above | intros goal].
  apply co_bind; [| intros u; apply IH].
  unfold optimize_cameras.
  apply co_bind; [apply co_emit; now split | intros u; apply co_modify].
Qed.

Lemma quiet_filters (tr : list Event) :
  Forall quiet tr ->
  filter is_save tr = [] /\ filter is_final_optimization tr = [].
Proof.
  induction 1 as [| e tr [He1 He2] _ [IH1 IH2]]; simpl; [now split |].
  now rewrite He1, He2.
Qed.

(** X11.  A run of [refine_sparse_cloud] that returns saves the project
    exactly four times and optimises the cameras with the final parameter
    set ([final_optimization=True]) exactly once: as its last engine call,
    followed only by the last save. *)
Theorem refine_sparse_cloud_final_optimization :
  forall (fuel : nat) (config : Photogrammetry) (c c' : Chunk),
    snd (refine_sparse_cloud eng fuel config c) = Ok (tt, c') ->
    exists before,
      fst (refine_sparse_cloud eng fuel config c)
      = (before ++ [EvOptimizeCameras true; EvSave])%list
      /\ filter is_final_optimization before = []
      /\ List.length (filter is_save before) = 3%nat.
Proof.
  intros fuel config c c' Hret.
  destruct (refine_sparse_cloud eng fuel config c) as [tr r] eqn:Hrun.
  cbn [fst snd] in *. subst r.
  unfold refine_sparse_cloud in Hrun.
  apply bindA_returned in Hrun. destruct Hrun as [t1 [u1 [s1 [r1 [H1 [Hrun ->]]]]]].
  apply bindA_returned in Hrun. destruct Hrun as [t2 [u2 [s2 [r2 [H2 [Hrun ->]]]]]].
  apply bindA_returned in Hrun. destruct Hrun as [t3 [u3 [s3 [r3 [H3 [Hrun ->]]]]]].
  apply bindA_returned in Hrun. destruct Hrun as [t4 [u4 [s4 [r4 [H4 [Hrun ->]]]]]].
  apply bindA_returned in Hrun. destruct Hrun as [t5 [u5 [s5 [r5 [H5 [Hrun ->]]]]]].
  apply bindA_returned in Hrun. destruct Hrun as [t6 [u6 [s6 [r6 [H6 [Hrun ->]]]]]].
  apply bindA_returned in Hrun. destruct Hrun as [t7 [u7 [s7 [r7 [H7 [Hrun ->]]]]]].
  apply bindA_returned in Hrun. destruct Hrun as [t8 [u8 [s8 [r8 [H8 [Hrun ->]]]]]].
  apply bindA_returned in Hrun. destruct Hrun as [t9 [u9 [s9 [r9 [H9 [Hrun ->]]]]]].
  apply bindA_returned in Hrun. destruct Hrun as [t10 [u10 [s10 [r10 [H10 [Hrun ->]]]]]].
  apply bindA_returned in Hrun. destruct Hrun as [t11 [u11 [s11 [r11 [H11 [Hrun ->]]]]]].
  injection H1 as <- _ _. injection H2 as <- _ _.
  injection H4 as <- _ _. injection H5 as <- _ _.
  injection H7 as <- _ _. injection H8 as <- _ _.
  injection H9 as <- _ _.
  injection H11 as <- _ _. injection Hrun as <- _.
  assert (Q3 : Forall quiet t3).
  { change t3 with (fst (t3, Ok (u3, s3))). rewrite <- H3. apply co_remove_above. }
  assert (Q6 : Forall quiet t6).
  { change t6 with (fst (t6, Ok (u6, s6))). rewrite <- H6. apply co_remove_above. }
  assert (Q10 : Forall quiet t10).
  { change t10 with (fst (t10, Ok (u10, s10))). rewrite <- H10.
    apply co_reprojection_loop. }
  apply quiet_filters in Q3, Q6, Q10.
  destruct Q3 as [S3 F3], Q6 as [S6 F6], Q10 as [S10 F10].
  exists ([EvOptimizeCameras false] ++ [EvSave] ++ t3 ++ [EvOptimizeCameras false]
          ++ [EvSave] ++ t6 ++ [EvOptimizeCameras false] ++ [EvSave] ++ [] ++ t10)%list.
  split; [| split].
  - repeat rewrite <- app_assoc. reflexivity.
  - repeat rewrite filter_app. rewrite F3, F6, F10. reflexivity.
  - repeat rewrite filter_app. rewrite S3, S6, S10. reflexivity.
Qed.

End RefineFacts.

Lemma refine_sparse_cloud_final_optimization_witness :
  exists before,
    fst (ModelHelpers.refine_sparse_cloud demo_engine 3 (demo_config None)
           (population [(1 # 10); (2 # 10)]%Q))
    = (before ++ [EvOptimizeCameras true; EvSave])%list
    /\ filter is_final_optimization before = []
    /\ List.length (filter is_save before) = 3%nat.
Proof.
  apply (@refine_sparse_cloud_final_optimization demo_engine 3 (demo_config None)
           (population [(1 # 10); (2 # 10)]%Q)
           (population [(1 # 10); (2 # 10)]%Q)).
  vm_compute. reflexivity.
Defined.

(* ================================================================== *)
(** * Further properties: scale bars *)
(* ================================================================== *)

Section ScalebarFacts.

Import ModelHelpers.

Lemma bar_ends_map (c : Chunk) : bar_ends c = map ends (scalebars c).
Proof. reflexivity. Qed.

Lemma bar_matches_ends (b : Scalebar) (m1 m2 : Marker) :
  bar_matches b m1 m2 = ends_match m1 m2 (ends b).
Proof. reflexivity. Qed.

Lemma ends_modify_nth (i : nat) (d : Q) (bs : list Scalebar) :
  map ends (modify_nth i (set_reference d) bs) = map ends bs.
Proof.
  revert i. induction bs as [| b bs IH]; intros [| i]; simpl; try reflexivity.
  now rewrite IH.
Qed.

Lemma find_bar_listed (bs : list Scalebar) (m1 m2 : Marker) (i : nat) :
  find_bar bs m1 m2 i = None
  <-> existsb (ends_match m1 m2) (map ends bs) = false.
Proof.
  revert i. induction bs as [| b bs IH]; intros i; simpl.
  - tauto.
  - rewrite <- bar_matches_ends.
    destruct (bar_matches b m1 m2); simpl.
    + split; discriminate.
    + apply IH.
Qed.

Lemma ends_match_new (m1 m2 : Marker) :
  ends_match m1 m2 (marker_key m1, marker_key m2) = true.
Proof.
  unfold ends_match. cbn [fst snd]. now rewrite !Nat.eqb_refl, !orb_true_r.
Qed.

(** One definition: at most one bar is appended, none when the definition
    finds a bar to reuse; afterwards the definition finds one. *)
Lemma apply_definition_step (d : ScalebarDefinition) (c : Chunk) :
  exists c' added,
    apply_definition d c = (add_calls added, Ok (tt, c'))
    /\ bar_ends c' = (bar_ends c ++ added)%list
    /\ (List.length added <= 1)%nat
    /\ markers c' = markers c
    /\ covered c' d
    /\ (covered c d -> added = [])
    /\ (named_markers c d = None -> c' = c).
Proof.
  unfold covered, named_markers, apply_definition, bindA, get.
  fold (target_name (fst (points d))). fold (target_name (snd (points d))).
  destruct (find_markers (markers c) (target_name (fst (points d)))
              (target_name (snd (points d))) None None) as [[m1 |] [m2 |]] eqn:Hfm;
    try (exists c, []; rewrite app_nil_r, Hfm;
         split; [reflexivity |]; split; [reflexivity |];
         split; [simpl; lia |]; split; [reflexivity |]; now repeat split).
  destruct (find_bar (scalebars c) m1 m2 0) as [i |] eqn:Hfb.
  - eexists. exists []. cbn [ret modify fst snd app add_calls map].
    split; [reflexivity |].
    cbn [markers set_scalebars]. rewrite Hfm.
    rewrite app_nil_r, !bar_ends_map. cbn [scalebars set_scalebars].
    rewrite ends_modify_nth.
    split; [reflexivity |]. split; [simpl; lia |]. split; [reflexivity |].
    split; [| split; [reflexivity | discriminate]].
    destruct (existsb (ends_match m1 m2) (map ends (scalebars c))) eqn:E;
      [reflexivity |].
    apply find_bar_listed with (i := 0%nat) in E. congruence.
  - eexists. exists [(marker_key m1, marker_key m2)].
    cbn [ret modify emit fst snd app add_calls map].
    split; [reflexivity |].
    cbn [markers set_scalebars]. rewrite Hfm.
    rewrite !bar_ends_map. cbn [scalebars set_scalebars].
    rewrite ends_modify_nth, map_app. cbn [map ends new_scalebar point0 point1].
    split; [reflexivity |]. split; [simpl; lia |]. split; [reflexivity |].
    split; [| split; [| discriminate]].
    + rewrite existsb_app. cbn [existsb].
      now rewrite ends_match_new, orb_true_r.
    + intros Hc. apply (find_bar_listed _ _ _ 0) in Hfb. congruence.
Qed.

Lemma covered_grows (c c' : Chunk) (added : list (nat * nat)) (d : ScalebarDefinition) :
  markers c' = markers c -> bar_ends c' = (bar_ends c ++ added)%list ->
  covered c d -> covered c' d.
Proof.
  unfold covered, named_markers. intros -> ->.
  destruct (find_markers _ _ _ None None) as [[m1 |] [m2 |]]; trivial.
  rewrite existsb_app. intros ->. reflexivity.
Qed.

(** The loop over the definitions. *)
Lemma definitions_run (defs : list ScalebarDefinition) :
  forall c,
    exists c' added,
      for_each defs apply_definition c = (add_calls added, Ok (tt, c'))
      /\ bar_ends c' = (bar_ends c ++ added)%list
      /\ (List.length added <= List.length defs)%nat
      /\ markers c' = markers c
      /\ (forall d, In d defs -> covered c' d)
      /\ ((forall d, In d defs -> covered c d) -> added = [])
      /\ ((forall d, In d defs -> named_markers c d = None) -> c' = c).
Proof.
  induction defs as [| d defs IH]; intros c.
  - exists c, []. cbn [for_each ret add_calls map]. rewrite app_nil_r.
    split; [reflexivity |]. split; [reflexivity |]. split; [simpl; lia |].
    split; [reflexivity |]. split; [intros d [] |]. now split.
  - destruct (apply_definition_step d c)
      as [c1 [a1 [Hrun1 [He1 [Hl1 [Hm1 [Hc1 [Hn1 Hs1]]]]]]]].
    destruct (IH c1) as [c2 [a2 [Hrun2 [He2 [Hl2 [Hm2 [Hc2 [Hn2 Hs2]]]]]]]].
    exists c2, (a1 ++ a2)%list.
    cbn [for_each]. unfold bindA. rewrite Hrun1, Hrun2.
    split; [unfold add_calls; now rewrite map_app |].
    split; [now rewrite He2, He1, app_assoc |].
    split; [rewrite length_app; simpl; lia |].
    split; [congruence |].
    split; [| split].
    + intros d' [<- | Hd'].
      * now apply (@covered_grows c1 c2 a2 d).
      * now apply Hc2.
    + intros Hall.
      rewrite (Hn1 (Hall d (or_introl eq_refl))) in *.
      rewrite Hn2; [reflexivity |].
      intros d' Hd'. apply (@covered_grows c c1 [] d'); trivial.
      apply Hall. now right.
    + intros Hall.
      rewrite (Hs1 (Hall d (or_introl eq_refl))) in *.
      apply Hs2. intros d' Hd'. apply Hall. now right.
Qed.

Variable eng : Engine.

(** The whole function, from the loop. *)
Lemma build_scalebars_run (defs : list ScalebarDefinition) (c : Chunk) :
  let c0 := set_chunk_accuracy_field
              (Some (Build_Accuracy (25 # 100) (5 # 10)
                       (mkVector (5 # 100000) (5 # 100000) (5 # 100000)))) c in
  forall c1 added,
    for_each defs apply_definition c0 = (add_calls added, Ok (tt, c1)) ->
    build_scalebars_from_list eng defs c
    = ((add_calls added ++ [EvUpdateTransform])%list,
       Ok (tt, set_transform (eng_solved_transform eng c1) c1)).
Proof.
  intros c0 c1 added Hrun.
  unfold build_scalebars_from_list, set_chunk_accuracy, update_transform.
  unfold bindA at 1. unfold modify at 1. fold c0.
  unfold bindA at 1. rewrite Hrun. reflexivity.
Qed.

End ScalebarFacts.

(** X12.  [build_scalebars_from_list] always returns.  It keeps the scale
    bars the chunk has, in place, and appends at most one bar per
    definition; its engine calls are one [addScalebar] per appended bar,
    followed by exactly one [updateTransform].  The markers are untouched. *)
Theorem build_scalebars_from_list_only_appends :
  forall (eng : Engine) (scalebardefinitions : list ScalebarDefinition) (chunk : Chunk),
    exists (chunk' : Chunk) (added : list (nat * nat)),
      ModelHelpers.build_scalebars_from_list eng scalebardefinitions chunk
      = ((add_calls added ++ [EvUpdateTransform])%list, Ok (tt, chunk'))
      /\ bar_ends chunk' = (bar_ends chunk ++ added)%list
      /\ (List.length added <= List.length scalebardefinitions)%nat
      /\ markers chunk' = markers chunk.
Proof.
  intros eng defs c.
  set (c0 := set_chunk_accuracy_field
               (Some (Build_Accuracy (25 # 100) (5 # 10)
                        (mkVector (5 # 100000) (5 # 100000) (5 # 100000)))) c).
  destruct (definitions_run defs c0) as [c1 [added [Hrun [He [Hl [Hm _]]]]]].
  exists (set_transform (eng_solved_transform eng c1) c1), added.
  split; [now apply (@build_scalebars_run eng defs c c1 added) |].
  split; [exact He |]. split; [exact Hl | exact Hm].
Qed.

(** X13.  Running [build_scalebars_from_list] a second time with the same
    definitions adds no scale bar: every definition finds the bar the first
    run left for it, and the only engine call is [updateTransform]. *)
Theorem build_scalebars_from_list_rerun_adds_nothing :
  forall (eng : Engine) (scalebardefinitions : list ScalebarDefinition) (chunk : Chunk),
    exists chunk1 chunk2 : Chunk,
      snd (ModelHelpers.build_scalebars_from_list eng scalebardefinitions chunk)
      = Ok (tt, chunk1)
      /\ ModelHelpers.build_scalebars_from_list eng scalebardefinitions chunk1
         = ([EvUpdateTransform], Ok (tt, chunk2))
      /\ bar_ends chunk2 = bar_ends chunk1.
Proof.
  intros eng defs c.
  set (acc := Some (Build_Accuracy (25 # 100) (5 # 10)
                      (mkVector (5 # 100000) (5 # 100000) (5 # 100000)))).
  destruct (definitions_run defs (set_chunk_accuracy_field acc c))
    as [c1 [added [Hrun [He [Hl [Hm [Hcov _]]]]]]].
  set (chunk1 := set_transform (eng_solved_transform eng c1) c1).
  destruct (definitions_run defs (set_chunk_accuracy_field acc chunk1))
    as [c2 [added2 [Hrun2 [He2 [Hl2 [Hm2 [_ [Hnone _]]]]]]]].
  assert (Hadded2 : added2 = []).
  { apply Hnone. intros d Hd.
    apply (@covered_grows c1 (set_chunk_accuracy_field acc chunk1) [] d); trivial.
    - now rewrite app_nil_r.
    - now apply Hcov. }
  subst added2. rewrite app_nil_r in He2.
  exists chunk1, (set_transform (eng_solved_transform eng c2) c2).
  split; [| split].
  - now rewrite (@build_scalebars_run eng defs c c1 added Hrun).
  - now rewrite (@build_scalebars_run eng defs chunk1 c2 [] Hrun2).
  - exact He2.
Qed.

Section UnusableDefinitions.

Import ModelHelpers.

Lemma find_markers_second_none (name1 name2 : string) (ms : list Marker) :
  name1 = name2 \/ ~ In name2 (map marker_label ms) ->
  forall marker1, snd (find_markers ms name1 name2 marker1 None) = None.
Proof.
  induction ms as [| m ms IH]; intros H marker1; cbn [find_markers];
    [reflexivity |].
  assert (IH' : forall marker1, snd (find_markers ms name1 name2 marker1 None) = None).
  { apply IH. destruct H as [H | H]; [now left | right].
    intros Hin. apply H. now right. }
  destruct (marker_label m =? name1)%string eqn:E1.
  - apply IH'.
  - assert (E2 : (marker_label m =? name2)%string = false).
    { destruct H as [<- | H]; [exact E1 |].
      apply String.eqb_neq. intros Heq. apply H. left. exact Heq. }
    rewrite E2. destruct marker1; apply IH'.
Qed.

Lemma find_markers_first_none (name1 name2 : string) (ms : list Marker) :
  ~ In name1 (map marker_label ms) ->
  forall marker2, fst (find_markers ms name1 name2 None marker2) = None.
Proof.
  induction ms as [| m ms IH]; intros H marker2; cbn [find_markers];
    [reflexivity |].
  assert (E1 : (marker_label m =? name1)%string = false).
  { apply String.eqb_neq. intros Heq. apply H. left. exact Heq. }
  rewrite E1.
  assert (IH' : forall marker2, fst (find_markers ms name1 name2 None marker2) = None).
  { apply IH. intros Hin. apply H. now right. }
  destruct (marker_label m =? name2)%string; apply IH'.
Qed.

Lemma unusable_names_nothing (c : Chunk) (d : ScalebarDefinition) :
  unusable c d -> named_markers c d = None.
Proof.
  unfold unusable, named_markers. intros H.
  destruct (find_markers (markers c) (target_name (fst (points d)))
              (target_name (snd (points d))) None None) as [o1 o2] eqn:E.
  destruct H as [H | [H | H]].
  - pose proof (@find_markers_second_none (target_name (fst (points d)))
                  (target_name (snd (points d))) (markers c)
                  (or_introl (f_equal target_name H)) None) as Hs.
    rewrite E in Hs. cbn [snd] in Hs. subst o2. now destruct o1.
  - pose proof (@find_markers_first_none (target_name (fst (points d)))
                  (target_name (snd (points d))) (markers c) H None) as Hf.
    rewrite E in Hf. cbn [fst] in Hf. now subst o1.
  - pose proof (@find_markers_second_none (target_name (fst (points d)))
                  (target_name (snd (points d))) (markers c)
                  (or_intror H) None) as Hs.
    rewrite E in Hs. cbn [snd] in Hs. subst o2. now destruct o1.
Qed.

End UnusableDefinitions.

(** X14.  A definition whose two points are the same target, or that names
    a target the chunk has no marker for, is skipped without an error: with
    only such definitions [build_scalebars_from_list] leaves the scale bars
    as they are and calls nothing but [updateTransform]. *)
Theorem build_scalebars_from_list_skips_unusable :
  forall (eng : Engine) (scalebardefinitions : list ScalebarDefinition) (chunk : Chunk),
    Forall (unusable chunk) scalebardefinitions ->
    exists chunk' : Chunk,
      ModelHelpers.build_scalebars_from_list eng scalebardefinitions chunk
      = ([EvUpdateTransform], Ok (tt, chunk'))
      /\ scalebars chunk' = scalebars chunk.
Proof.
  intros eng defs c Hall.
  set (acc := Some (Build_Accuracy (25 # 100) (5 # 10)
                      (mkVector (5 # 100000) (5 # 100000) (5 # 100000)))).
  destruct (definitions_run defs (set_chunk_accuracy_field acc c))
    as [c1 [added [Hrun [He [Hl [Hm [_ [_ Hsame]]]]]]]].
  assert (Hc1 : c1 = set_chunk_accuracy_field acc c).
  { apply Hsame. intros d Hd. apply unusable_names_nothing.
    rewrite Forall_forall in Hall. exact (Hall d Hd). }
  assert (Hadded : added = []).
  { rewrite Hc1 in He. apply (f_equal (@List.length _)) in He.
    rewrite length_app in He. apply length_zero_iff_nil. lia. }
  subst added.
  exists (set_transform (eng_solved_transform eng c1) c1).
  split.
  - now rewrite (@build_scalebars_run eng defs c c1 [] Hrun).
  - now rewrite Hc1.
Qed.

Lemma build_scalebars_from_list_skips_unusable_witness :
  exists chunk' : Chunk,
    ModelHelpers.build_scalebars_from_list demo_engine
      [Build_ScalebarDefinition (1, 1)%Z 10 "cm";
       Build_ScalebarDefinition (1, 5)%Z 10 "cm"] two_markers
    = ([EvUpdateTransform], Ok (tt, chunk'))
    /\ scalebars chunk' = scalebars two_markers.
Proof.
  apply (@build_scalebars_from_list_skips_unusable demo_engine
           [Build_ScalebarDefinition (1, 1)%Z 10 "cm";
            Build_ScalebarDefinition (1, 5)%Z 10 "cm"] two_markers).
  constructor; [left; reflexivity |].
  constructor; [| constructor].
  right. right. simpl. intros [H | [H | []]]; discriminate.
Defined.

(* ================================================================== *)
(** * Further properties: axes and reorientation *)
(* ================================================================== *)

Section AxesFacts.

Import ModelHelpers.

Variable eng : Engine.
Variable pals : Palettes.

Lemma collect_axes_bound (a : Axes) (ms : list Marker) :
  forall (numbers : list Z) (xaxis zaxis : list Vector),
    map label_number ms = map Ok numbers ->
    exists xaxis' zaxis',
      collect_axes ms a xaxis zaxis = Ok (xaxis', zaxis')
      /\ (List.length xaxis'
          <= List.length xaxis + List.length (filter (on_x_axis a) numbers))%nat
      /\ (List.length zaxis'
          <= List.length zaxis + List.length (filter (on_z_axis a) numbers))%nat.
Proof.
  induction ms as [| m ms IH]; intros numbers xaxis zaxis Hnum.
  - exists xaxis, zaxis. cbn [collect_axes]. repeat split; lia.
  - destruct numbers as [| n numbers]; [discriminate |].
    cbn [map] in Hnum. injection Hnum as Hm Hrest.
    unfold label_number in Hm.
    cbn [collect_axes].
    destruct (nth_error (split (marker_label m)) 1) as [word |];
      cbn [of_option bind] in *; [| discriminate].
    rewrite Hm. cbn [bind].
    unfold on_z_axis, on_x_axis. cbn [filter].
    destruct (mem_Z n (xpos a) || mem_Z n (xneg a)) eqn:Ex; cbn [negb andb].
    + destruct ((2 <=? List.length (xaxis ++ [marker_position m]))%nat
                && (2 <=? List.length zaxis)%nat) eqn:Estop.
      * exists (xaxis ++ [marker_position m])%list, zaxis.
        split; [reflexivity |]. rewrite length_app. simpl. lia.
      * destruct (IH numbers (xaxis ++ [marker_position m])%list zaxis Hrest)
          as [xs [zs [Hrun [Hx Hz]]]].
        exists xs, zs. split; [exact Hrun |].
        rewrite length_app in Hx. unfold on_z_axis, on_x_axis in *. simpl in *. lia.
    + destruct (mem_Z n (zpos a) || mem_Z n (zneg a)) eqn:Ez.
      * destruct ((2 <=? List.length xaxis)%nat
                  && (2 <=? List.length (zaxis ++ [marker_position m]))%nat) eqn:Estop.
        -- exists xaxis, (zaxis ++ [marker_position m])%list.
           split; [reflexivity |]. rewrite length_app. simpl. lia.
        -- destruct (IH numbers xaxis (zaxis ++ [marker_position m])%list Hrest)
             as [xs [zs [Hrun [Hx Hz]]]].
           exists xs, zs. split; [exact Hrun |].
           rewrite length_app in Hz. unfold on_z_axis, on_x_axis in *. simpl in *. lia.
      * destruct ((2 <=? List.length xaxis)%nat && (2 <=? List.length zaxis)%nat)
          eqn:Estop.
        -- exists xaxis, zaxis. split; [reflexivity |]. lia.
        -- destruct (IH numbers xaxis zaxis Hrest) as [xs [zs [Hrun [Hx Hz]]]].
           exists xs, zs. split; [exact Hrun |].
           unfold on_z_axis, on_x_axis in *. lia.
Qed.

(** X15.  [find_axes_from_markers] needs two markers on the palette's x
    axis and two on its z axis.  On a chunk with markers (labelled
    "target n") of which fewer than two are listed on the x axis, or fewer
    than two on the z axis, it raises [IndexError]. *)
Theorem find_axes_from_markers_needs_two_per_axis :
  forall (palette : string) (pal : Palette) (chunk : Chunk) (numbers : list Z),
    lookup palette pals = Ok pal ->
    markers chunk <> [] ->
    map label_number (markers chunk) = map Ok numbers ->
    (List.length (filter (on_x_axis (axes pal)) numbers) < 2)%nat
    \/ (List.length (filter (on_z_axis (axes pal)) numbers) < 2)%nat ->
    find_axes_from_markers eng pals palette chunk = ([], Raise IndexError).
Proof.
  intros palette pal chunk numbers Hpal Hne Hnum Hfew.
  unfold find_axes_from_markers, load_palettes. cbn [bind].
  rewrite Hpal. unfold bindA, lift, get.
  destruct (markers chunk) as [| m ms] eqn:Hms; [congruence |].
  destruct (collect_axes_bound (axes pal) (m :: ms) numbers [] [] Hnum)
    as [xs [zs [Hrun [Hx Hz]]]].
  rewrite Hrun. cbn [List.length] in Hx, Hz.
  destruct xs as [| x0 [| x1 xs]]; try reflexivity.
  destruct zs as [| z0 [| z1 zs]]; try reflexivity.
  simpl in Hx, Hz. lia.
Qed.

(** What [find_axes_from_markers] can give: an exception, [None], or three
    axes; it calls nothing and leaves the chunk alone. *)
Lemma find_axes_outcome (palette : string) (c : Chunk) :
  (exists e, find_axes_from_markers eng pals palette c = ([], Raise e))
  \/ find_axes_from_markers eng pals palette c = ([], Ok (None, c))
  \/ (exists ux yaxis uz,
        find_axes_from_markers eng pals palette c
        = ([], Ok (Some [ux; yaxis; uz], c))).
Proof.
  unfold find_axes_from_markers, load_palettes. cbn [bind].
  unfold bindA, lift, get.
  destruct (lookup palette pals) as [pal | e]; [| left; now exists e].
  destruct (markers c) as [| m ms]; [right; now left |].
  destruct (collect_axes (m :: ms) (axes pal) [] []) as [[xs zs] | e];
    [| left; now exists e].
  destruct xs as [| x0 [| x1 xs]]; try (left; now exists IndexError).
  destruct zs as [| z0 [| z1 zs]]; try (left; now exists IndexError).
  right. right. cbn. eauto.
Qed.

End AxesFacts.

Lemma find_axes_from_markers_needs_two_per_axis_witness :
  ModelHelpers.find_axes_from_markers demo_engine [("demo"%string, demo_palette)]
    "demo" two_markers
  = ([], Raise IndexError).
Proof.
  apply (@find_axes_from_markers_needs_two_per_axis demo_engine
           [("demo"%string, demo_palette)] "demo" demo_palette two_markers
           [1%Z; 2%Z]).
  - reflexivity.
  - discriminate.
  - reflexivity.
  - right. simpl. lia.
Defined.

Section ReorientFacts.

Import ModelHelpers.
Local Open Scope Q_scope.

Variable eng : Engine.
Variable w : World.

(** The two ways a reorientation ends. *)
Lemma reorient_outcome (config : Photogrammetry) (c : Chunk) :
  (exists e, reorient_model eng w config c = ([], Raise e))
  \/ (exists (scale : Q) (a0 a1 a2 : Vector) (c' : Chunk),
        reorient_model eng w config c
        = ([EvSetTransform; EvResetRegion; EvSetTransform; EvResetRegion],
           Ok (tt, c'))
        /\ transform c'
           = mat_mul
               (mat_mul
                  [[scale; 0; 0; 0]; [0; scale; 0; 0]; [0; 0; scale; 0]; [0; 0; 0; 1]]
                  [[vx a0; vy a0; vz a0; 0]; [vx a1; vy a1; vz a1; 0];
                   [vx a2; vy a2; vz a2; 0]; [0; 0; 0; 1]])
               (translation_inv (region_center c))).
Proof.
  set (run := reorient_model eng w config c).
  assert (Hrun : run = reorient_model eng w config c) by reflexivity.
  clearbody run. unfold reorient_model in Hrun. rewrite Hrun. clear Hrun run.
  destruct (palette config) as [name |]; [| left; now exists KeyError].
  cbn [of_option]. rewrite bindA_lift_ok.
  destruct (find_axes_outcome eng (palettes w) name c)
    as [[e H] | [H | [ux [yaxis [uz H]]]]].
  - left. exists e. now rewrite (@bindA_raised _ _ _ _ _ _ _ _ H).
  - left. exists TypeError. now rewrite (@bindA_known _ _ _ _ _ _ _ _ _ H).
  - right. rewrite (@bindA_known _ _ _ _ _ _ _ _ _ H).
    eexists. exists ux, yaxis, uz. eexists.
    split; reflexivity.
Qed.

(** X16.  [reorient_model] never logs its "No axes on which to orient"
    warning: [find_axes_from_markers] gives [None] or exactly three axes,
    never an empty list.  A call either raises before any engine call, or
    sets the transform, resets the region, sets the transform again, resets
    the region again and returns. *)
Theorem reorient_model_never_warns :
  forall (config : Photogrammetry) (chunk : Chunk),
    (exists e, reorient_model eng w config chunk = ([], Raise e))
    \/ (exists chunk',
          reorient_model eng w config chunk
          = ([EvSetTransform; EvResetRegion; EvSetTransform; EvResetRegion],
             Ok (tt, chunk'))).
Proof.
  intros config chunk.
  destruct (reorient_outcome config chunk)
    as [H | [scale [a0 [a1 [a2 [c' [H _]]]]]]]; [now left | right].
  now exists c'.
Qed.

(** X17.  After a reorientation that returns, the chunk's transform sends
    the centre the region had before the call to the world origin. *)
Theorem reorient_model_centres_region :
  forall (config : Photogrammetry) (chunk chunk' : Chunk),
    snd (reorient_model eng w config chunk) = Ok (tt, chunk') ->
    Veq (transform_point (transform chunk') (region_center chunk)) (mkVector 0 0 0).
Proof.
  intros config chunk chunk' Hret.
  destruct (reorient_outcome config chunk)
    as [[e H] | [scale [a0 [a1 [a2 [c' [H Ht]]]]]]];
    rewrite H in Hret; cbn [snd] in Hret; [discriminate |].
  injection Hret as <-. rewrite Ht.
  unfold Veq, transform_point, mat_mul, translation_inv, dot, column.
  cbn. repeat split; ring.
Qed.

End ReorientFacts.

Lemma reorient_model_centres_region_witness :
  Veq (transform_point
         [[2000; 0; 0; -2000]; [0; 10000; 0; -20000]; [0; 0; 5000; -15000];
          [0; 0; 0; 1]]%Q
         (region_center axis_markers))
      (mkVector 0 0 0).
Proof.
  assert (E : transform
                (match snd (reorient_model demo_engine (demo_world [])
                              (demo_config (Some "demo"%string)) axis_markers) with
                 | Ok (_, c') => c'
                 | Raise _ => axis_markers
                 end)
              = [[2000; 0; 0; -2000]; [0; 10000; 0; -20000]; [0; 0; 5000; -15000];
                 [0; 0; 0; 1]]%Q).
  { vm_compute. reflexivity. }
  rewrite <- E.
  apply (@reorient_model_centres_region demo_engine (demo_world [])
           (demo_config (Some "demo"%string)) axis_markers).
  vm_compute. reflexivity.
Defined.

(* ================================================================== *)
(** * Further properties: the orchestrator *)
(* ================================================================== *)

Section OrchestratorFacts.

Variable eng : Engine.
Variable w : World.

Lemma set_cameras_same (c : Chunk) : set_cameras (cameras c) c = c.
Proof. now destruct c. Qed.

Lemma load_photos_loop (photodir : string) (images : list string) :
  forall c,
    ModelHelpers.for_each images
      (fun i =>
         if is_photo (fs w) i
         then
           emit (EvAddPhotos (path_join (fs w) photodir i)) ;;;
           modify (fun c => set_cameras
                              (cameras c ++ [path_join (fs w) photodir i])%list c)
         else ret tt) c
    = (map EvAddPhotos
         (map (path_join (fs w) photodir) (filter (is_photo (fs w)) images)),
       Ok (tt,
           set_cameras
             (cameras c
              ++ map (path_join (fs w) photodir) (filter (is_photo (fs w)) images))%list
             c)).
Proof.
  induction images as [| i images IH]; intros c; cbn [ModelHelpers.for_each].
  - cbn. now rewrite app_nil_r, set_cameras_same.
  - cbn [filter]. unfold bindA at 1.
    destruct (is_photo (fs w) i).
    + unfold bindA at 1. cbn [emit modify].
      rewrite IH. cbn [map app cameras set_cameras]. rewrite <- app_assoc.
      reflexivity.
    + cbn [ret]. rewrite IH. reflexivity.
Qed.

(** X18.  When [os.listdir] gives the entries of the photo directory,
    [load_photos] adds to the chunk exactly those whose extension is .jpg,
    .tiff or .tif in any letter case, in directory order, after the photos
    the chunk already has, with one [addPhotos] call each; entries with
    another extension are never added.  When [os.listdir] raises (a missing
    directory: FileNotFoundError), [load_photos] raises the same error,
    with no [addPhotos] call made. *)
Theorem load_photos_adds_photo_files :
  forall (projectdir photodir : string) (chunk : Chunk),
    load_photos w projectdir photodir chunk
    = match listdir (fs w) photodir with
      | Ok images =>
          let paths :=
            map (path_join (fs w) photodir) (filter (is_photo (fs w)) images) in
          (map EvAddPhotos paths,
           Ok (tt, set_cameras (cameras chunk ++ paths)%list chunk))
      | Raise err => ([], Raise err)
      end.
Proof.
  intros projectdir photodir chunk. unfold load_photos, bindA at 1, lift.
  destruct (listdir (fs w) photodir) as [images | err]; [| reflexivity].
  cbn [fst snd app].
  change (fun i : string =>
            if existsb (String.eqb (upper (path_ext (fs w) i))) photo_extensions
            then _ else _)
    with (fun i : string =>
            if is_photo (fs w) i
            then
              emit (EvAddPhotos (path_join (fs w) photodir i)) ;;;
              modify (fun c => set_cameras
                                 (cameras c ++ [path_join (fs w) photodir i])%list c)
            else ret tt).
  now rewrite load_photos_loop.
Qed.

Lemma exports_forall (P : string * bool -> Prop) (trace : list Event) :
  Forall (fun e => match e with
                   | EvExportModel path embed => P (path, embed)
                   | _ => True
                   end) trace ->
  Forall P (exports trace).
Proof.
  induction 1 as [| e trace He _ IH]; [constructor |].
  destruct e; cbn; try exact IH. now constructor.
Qed.

(** X19.  [exportModel] is called with [embed_texture=True] only when the
    configured [export_as] is the string "ply": [extn == "ply"] is compared
    with the extension as configured.  With "all", where the extensions are
    ".ply" and ".obj", and with ".ply", no export embeds the texture. *)
Theorem export_embeds_texture_only_for_ply :
  forall (config : Photogrammetry) (outputpath : string) (chunk : Chunk),
    Forall (fun export => snd export = (export_as config =? "ply")%string)
      (exports (fst (export_chunk eng w config outputpath chunk))).
Proof.
  intros config outputpath chunk.
  apply exports_forall.
  revert chunk.
  change (calls_only
            (fun e => match e with
                      | EvExportModel path embed =>
                          snd (path, embed) = (export_as config =? "ply")%string
                      | _ => True
                      end)
            (export_chunk eng w config outputpath)).
  unfold export_chunk.
  apply co_bind.
  - set (no_export := fun s => match s with StExport => false | _ => true end).
    apply co_weaken with (P := fun e => no_export (stage_of e) = true).
    + intros [] H; trivial; discriminate.
    + destruct (palette config) as [name |]; [| apply co_ret].
      destruct (negb (name =? "None")%string); [| apply co_ret].
      apply (@co_stage _ _ no_export). now apply eo_reorient.
  - intros u. apply co_bind; [apply co_get | intros c].
    destruct (negb (export_as config =? "none")%string); [| apply co_ret].
    apply co_for_each_in. intros extn Hin. apply co_emit. cbn [snd].
    destruct (export_as config =? "all")%string eqn:E.
    + apply String.eqb_eq in E. rewrite E.
      destruct Hin as [<- | [<- | []]]; reflexivity.
    + destruct Hin as [<- | []]. reflexivity.
Qed.

(** X20.  A configured palette that MarkerPalettes.json does not define
    makes [build_basic_model] raise [KeyError] before anything else
    happens: no project is opened or saved and no engine call is made. *)
Theorem build_basic_model_unknown_palette :
  forall (fuel : nat) (photodir projectname projectdir : string)
         (config : Photogrammetry) (decimate : bool) (maskoption : Z)
         (name : string) (doc : Document),
    palette config = Some name ->
    name <> "None"%string ->
    ~ In name (map fst (palettes w)) ->
    build_basic_model eng w fuel photodir projectname projectdir config
      decimate maskoption doc
    = ([], Raise KeyError).
Proof.
  intros fuel photodir projectname projectdir config decimate maskoption name doc
         Hpal Hname Hmissing.
  unfold build_basic_model.
  apply bindA_raised.
  rewrite Hpal.
  assert (E : negb (name =? "None")%string = true).
  { apply negb_true_iff. now apply String.eqb_neq. }
  rewrite E.
  apply bindA_raised.
  unfold ModelHelpers.load_palettes. cbn [bind].
  now rewrite (lookup_missing _ _ Hmissing).
Qed.

End OrchestratorFacts.

Lemma build_basic_model_unknown_palette_witness :
  build_basic_model demo_engine (demo_world []) 3 "photos" "vase" "projects"
    (demo_config (Some "plate"%string)) true 0 []
  = ([], Raise KeyError).
Proof.
  apply (@build_basic_model_unknown_palette demo_engine (demo_world []) 3
           "photos" "vase" "projects" (demo_config (Some "plate"%string)) true 0%Z
           "plate" []).
  - reflexivity.
  - discriminate.
  - simpl. intros [H | []]. discriminate.
Defined.

(* ================================================================== *)
(** * Further properties: marker labels and axis lists *)
(* ================================================================== *)

Section AxisSignFacts.

Import ModelHelpers.

Lemma collect_axes_sign (a a' : Axes) (ms : list Marker) :
  xpos a' = xneg a -> xneg a' = xpos a ->
  zpos a' = zneg a -> zneg a' = zpos a ->
  forall xaxis zaxis,
    collect_axes ms a' xaxis zaxis = collect_axes ms a xaxis zaxis.
Proof.
  intros Hxp Hxn Hzp Hzn.
  induction ms as [| m ms IH]; intros xaxis zaxis; cbn [collect_axes];
    [reflexivity |].
  destruct (nth_error (split (marker_label m)) 1) as [word |];
    cbn [of_option bind]; [| reflexivity].
  destruct (int_of_str word) as [n | e]; cbn [bind]; [| reflexivity].
  rewrite Hxp, Hxn, Hzp, Hzn.
  rewrite (orb_comm (mem_Z n (xneg a))), (orb_comm (mem_Z n (zneg a))).
  destruct (mem_Z n (xpos a) || mem_Z n (xneg a)).
  - destruct ((2 <=? List.length (xaxis ++ [marker_position m]))%nat
              && (2 <=? List.length zaxis)%nat); [reflexivity | apply IH].
  - destruct (mem_Z n (zpos a) || mem_Z n (zneg a)).
    + destruct ((2 <=? List.length xaxis)%nat
                && (2 <=? List.length (zaxis ++ [marker_position m]))%nat);
        [reflexivity | apply IH].
    + destruct ((2 <=? List.length xaxis)%nat && (2 <=? List.length zaxis)%nat);
        [reflexivity | apply IH].
Qed.

(** X21.  [find_axes_from_markers] does not tell the positive from the
    negative marker list of an axis: exchanging [xpos] with [xneg] and
    [zpos] with [zneg] in the palette changes nothing.  The direction of an
    axis comes from the order of the markers in the chunk. *)
Theorem find_axes_from_markers_ignores_axis_sign :
  forall (eng : Engine) (pals pals' : Palettes) (palette : string)
         (pal pal' : Palette) (chunk : Chunk),
    lookup palette pals = Ok pal ->
    lookup palette pals' = Ok pal' ->
    xpos (axes pal') = xneg (axes pal) -> xneg (axes pal') = xpos (axes pal) ->
    zpos (axes pal') = zneg (axes pal) -> zneg (axes pal') = zpos (axes pal) ->
    find_axes_from_markers eng pals' palette chunk
    = find_axes_from_markers eng pals palette chunk.
Proof.
  intros eng pals pals' palette pal pal' chunk Hp Hp' Hxp Hxn Hzp Hzn.
  unfold find_axes_from_markers, load_palettes. cbn [bind].
  rewrite Hp, Hp'. unfold bindA, lift, get.
  destruct (markers chunk) as [| m ms]; [reflexivity |].
  now rewrite (collect_axes_sign (axes pal) (axes pal') (m :: ms) Hxp Hxn Hzp Hzn).
Qed.

End AxisSignFacts.

Lemma find_axes_from_markers_ignores_axis_sign_witness :
  ModelHelpers.find_axes_from_markers demo_engine
    [("demo"%string, mirrored_palette)] "demo" axis_markers
  = ModelHelpers.find_axes_from_markers demo_engine
      [("demo"%string, demo_palette)] "demo" axis_markers.
Proof.
  apply (@find_axes_from_markers_ignores_axis_sign demo_engine
           [("demo"%string, demo_palette)] [("demo"%string, mirrored_palette)]
           "demo" demo_palette mirrored_palette axis_markers);
    reflexivity.
Defined.

Section LabelFacts.

Lemma digits_not_blank (d : Decimal.uint) :
  Forall (fun c => is_space c = false)
         (list_ascii_of_string (NilEmpty.string_of_uint d)).
Proof.
  induction d; cbn [NilEmpty.string_of_uint list_ascii_of_string];
    constructor; trivial.
Qed.

Lemma number_not_blank (n : Z) :
  Forall (fun c => is_space c = false) (list_ascii_of_string (str_of_Z n))
  /\ str_of_Z n <> ""%string
  /\ (forall r, str_of_Z n <> String "+" r).
Proof.
  unfold str_of_Z, NilZero.string_of_int, NilZero.string_of_uint.
  destruct (Z.to_int n) as [d | d].
  - destruct d; cbn [NilEmpty.string_of_uint list_ascii_of_string];
      (split; [constructor; trivial; try apply digits_not_blank; constructor
              | split; [discriminate | intros r; discriminate]]).
  - destruct d; cbn [NilEmpty.string_of_uint list_ascii_of_string];
      (split; [repeat (constructor; trivial); try apply digits_not_blank
              | split; [discriminate | intros r; discriminate]]).
Qed.

Lemma split_word (l cur : list ascii) :
  Forall (fun c => is_space c = false) l ->
  (cur ++ l)%list <> [] ->
  split_from cur l = [string_of_list_ascii (rev cur ++ l)].
Proof.
  revert cur. induction l as [| c l IH]; intros cur Hall Hne.
  - cbn [split_from]. rewrite app_nil_r in *.
    destruct cur; [congruence | reflexivity].
  - inversion Hall as [| ? ? Hc Hl]; subst.
    cbn [split_from]. rewrite Hc. rewrite IH; [| exact Hl | discriminate].
    cbn [rev]. now rewrite <- app_assoc.
Qed.

Lemma list_ascii_of_string_app (a b : string) :
  list_ascii_of_string (a ++ b)
  = (list_ascii_of_string a ++ list_ascii_of_string b)%list.
Proof.
  induction a as [| c a IH]; cbn; [reflexivity | now rewrite IH].
Qed.

Lemma int_of_str_of_Z (n : Z) : int_of_str (str_of_Z n) = Ok n.
Proof.
  destruct (number_not_blank n) as [_ [Hne Hplus]].
  unfold int_of_str.
  assert (E : NilZero.int_of_string (str_of_Z n) = Some (Z.to_int n)).
  { unfold str_of_Z. apply NilZero.isi.
    - destruct n as [| p | p]; try discriminate.
      intros H. injection H. apply DecimalPos.Unsigned.to_uint_nonnil.
    - destruct n as [| p | p]; try discriminate.
      intros H. injection H. apply DecimalPos.Unsigned.to_uint_nonnil. }
  destruct (str_of_Z n) as [| c r] eqn:Es; [congruence |].
  destruct c as [[] [] [] [] [] [] [] []];
    try (rewrite E; f_equal; apply DecimalZ.of_to).
  exfalso. apply (Hplus r). reflexivity.
Qed.

(** X22.  The label [build_scalebars_from_list] looks a target up by,
    "target n", is read back by [find_axes_from_markers] as the number [n]:
    [int(label.split()[1])] undoes [f"target {n}"], for every integer [n]. *)
Theorem target_label_round_trip :
  forall (n : Z) (m : Marker),
    marker_label m = target_name n -> label_number m = Ok n.
Proof.
  intros n m Hlabel. unfold label_number. rewrite Hlabel.
  unfold target_name, split. rewrite list_ascii_of_string_app.
  destruct (number_not_blank n) as [Hall [Hne _]].
  cbn [list_ascii_of_string app split_from is_space].
  change (is_space "t") with false. change (is_space "a") with false.
  change (is_space "r") with false. change (is_space "g") with false.
  change (is_space "e") with false. change (is_space " ") with true.
  cbv iota. cbn [rev app string_of_list_ascii].
  rewrite split_word; [| exact Hall |].
  - cbn [rev app nth_error of_option bind].
    rewrite string_of_list_ascii_of_string. apply int_of_str_of_Z.
  - cbn [app]. intros H. apply Hne.
    rewrite <- (string_of_list_ascii_of_string (str_of_Z n)). now rewrite H.
Qed.

End LabelFacts.

Lemma target_label_round_trip_witness :
  label_number (target 12) = Ok 12%Z.
Proof.
  apply (@target_label_round_trip 12%Z (target 12)). reflexivity.
Defined.

(* ================================================================== *)
(** * Further properties: masks *)
(* ================================================================== *)

Lemma co_on_chunk (A : Type) (P : Event -> Prop) (i : nat) (m : Act Chunk A) :
  calls_only P m -> calls_only P (on_chunk i m).
Proof.
  intros H d. unfold on_chunk. destruct (nth_error d i) as [c |]; [| constructor].
  specialize (H c). now destruct (m c) as [ev [[a c'] | e]].
Qed.

Section MaskFacts.

Import ModelHelpers.

Variable eng : Engine.
Variable w : World.

(** A property of calls that holds of every call but, possibly, mask
    generation and photo matching. *)
Variable P : Event -> Prop.
Hypothesis P_other :
  forall e, match e with
            | EvGenerateMasks _ | EvMatchPhotos _ _ => True
            | _ => P e
            end.

Ltac other := apply co_emit; match goal with |- P ?e => exact (P_other e) end.

Ltac calls_other :=
  repeat first
    [ apply co_ret | apply co_get | apply co_modify | apply co_raise
    | apply co_lift | other
    | apply co_bind; [| intro] | apply co_for_each; intro
    | apply co_on_chunk
    | match goal with
      | |- calls_only _ (match ?x with _ => _ end) => destruct x
      | |- calls_only _ (if ?x then _ else _) => destruct x
      | |- calls_only _ (let '(_, _) := ?x in _) => destruct x
      end ].

Lemma co_scan (f : Criterion) (max_error max_removal : Q) (errorvals : list Q) :
  forall i, calls_only P (scan_errorvals f max_error max_removal errorvals i).
Proof.
  induction errorvals as [| v rest IH]; intros i; cbn [scan_errorvals].
  - apply co_ret.
  - destruct (Qgtb v max_error && Qle_bool (inject_Z (Z.of_nat i + 1)) max_removal);
      [apply IH | calls_other].
Qed.

Lemma co_remove (f : Criterion) (max_error max_points : Q) :
  calls_only P (remove_above_error_threshold f max_error max_points).
Proof.
  unfold remove_above_error_threshold.
  apply co_bind; [apply co_get | intros chunk]. apply co_scan.
Qed.

Lemma co_loop (fuel : nat) (thresholds : ErrorThresholds)
      (min_remaining_points : Q) :
  forall reachedgoal,
    calls_only P (reprojection_loop eng fuel thresholds min_remaining_points reachedgoal).
Proof.
  induction fuel as [| fuel IH]; intros reachedgoal; cbn [reprojection_loop];
    (apply co_bind; [apply co_get | intros chunk]);
    match goal with |- context [if ?b then _ else _] => destruct b end;
    try apply co_ret; try apply co_raise.
  apply co_bind; [apply co_remove | intros goal].
  apply co_bind; [| intros u; apply IH].
  unfold optimize_cameras. calls_other.
Qed.

Lemma co_refine (fuel : nat) (config : Photogrammetry) :
  calls_only P (refine_sparse_cloud eng fuel config).
Proof.
  unfold refine_sparse_cloud, optimize_cameras.
  repeat first
    [ apply co_remove | apply co_loop | apply co_get | apply co_modify | other
    | apply co_bind; [| intro] ].
Qed.

Lemma co_detect (markertype : string) :
  calls_only P (detect_markers eng markertype).
Proof. unfold detect_markers, set_chunk_accuracy. calls_other. Qed.

Lemma co_scalebars (defs : list ScalebarDefinition) :
  calls_only P (build_scalebars_from_list eng defs).
Proof.
  unfold build_scalebars_from_list, set_chunk_accuracy, update_transform,
    apply_definition.
  calls_other.
Qed.

Lemma co_reorient (config : Photogrammetry) :
  calls_only P (reorient_model eng w config).
Proof.
  unfold reorient_model, find_axes_from_markers, align_markers_to_axes,
    move_model_to_world_origin, reset_region.
  calls_other.
Qed.

Lemma co_export (config : Photogrammetry) (outputpath : string) :
  calls_only P (export_chunk eng w config outputpath).
Proof.
  unfold export_chunk.
  apply co_bind; [| intro; calls_other].
  destruct (palette config) as [name |]; [| apply co_ret].
  destruct (negb (name =? "None")%string); [apply co_reorient | apply co_ret].
Qed.

Lemma co_texture (config : Photogrammetry) :
  calls_only P (texture_chunk eng config).
Proof. unfold texture_chunk. calls_other. Qed.

Lemma co_load_photos (projectdir photodir : string) :
  calls_only P (load_photos w projectdir photodir).
Proof. unfold load_photos. calls_other. Qed.

(** The build, given what loading masks and matching photos may call. *)
Lemma co_build (fuel : nat) (photodir projectname projectdir : string)
      (config : Photogrammetry) (decimate : bool) (maskoption : Z) :
  calls_only P
    (load_masks w (if negb (maskoption =? 0)%Z then Some (mask_path config) else None)
       projectdir) ->
  P (EvMatchPhotos (sparse_cloud_quality config)
       (match (if negb (maskoption =? 0)%Z then Some (mask_path config) else None) with
        | Some _ => true
        | None => false
        end)) ->
  calls_only P
    (build_basic_model eng w fuel photodir projectname projectdir config
       decimate maskoption).
Proof.
  intros Hmasks Hmatch.
  unfold build_basic_model, for_each_chunk, load_palettes,
    close_holes, cleanup_blobs, build_scalebars_from_sequential_targets.
  repeat first
    [ apply co_ret | apply co_get | apply co_modify | apply co_raise
    | apply co_lift | apply co_refine | apply co_detect | apply co_scalebars
    | apply co_export | apply co_texture | apply co_load_photos
    | exact Hmasks
    | apply co_emit; exact Hmatch
    | other
    | apply co_bind; [| intro] | apply co_for_each; intro
    | apply co_on_chunk
    | match goal with
      | |- calls_only _ (match ?x with _ => _ end) => destruct x
      | |- calls_only _ (if ?x then _ else _) => destruct x
      end ].
Qed.

End MaskFacts.

(** X23.  [build_basic_model] generates masks only when [maskoption] is
    not 0 and the mask directory exists, but it matches photos with
    [filter_mask=True] whenever [maskoption] is not 0: also when the mask
    directory is missing and loading the masks only logged a warning. *)
Theorem build_basic_model_mask_use :
  forall (eng : Engine) (w : World) (fuel : nat)
         (photodir projectname projectdir : string) (config : Photogrammetry)
         (decimate : bool) (maskoption : Z),
    calls_only
      (mask_use maskoption
         (path_exists (fs w) (path_join (fs w) projectdir (mask_path config))))
      (build_basic_model eng w fuel photodir projectname projectdir config
         decimate maskoption).
Proof.
  intros eng w fuel photodir projectname projectdir config decimate maskoption.
  apply co_build.
  - intros []; exact I.
  - destruct (maskoption =? 0)%Z eqn:E; cbn [negb]; unfold load_masks.
    + now apply co_emit.
    + apply Z.eqb_neq in E.
      destruct (path_exists (fs w) (path_join (fs w) projectdir (mask_path config)));
        cbn [negb]; rewrite ?orb_true_r, ?orb_false_r.
      * destruct (mask_path config =? "")%string; [now apply co_emit |].
        apply co_bind; [apply co_lift | intros files].
        destruct files; [apply co_ret |].
        apply co_bind; [apply co_emit; now split | intros u; apply co_modify].
      * now apply co_emit.
  - cbn [mask_use]. now destruct (maskoption =? 0)%Z.
Qed.

(* ================================================================== *)
(** * Further properties: the reprojection phase *)
(* ================================================================== *)

Section ReprojectionOff.

Import ModelHelpers.
Local Open Scope Q_scope.

Variable eng : Engine.

(** With nothing left to remove the loop ends at once, whatever its fuel. *)
Lemma reprojection_loop_skipped (fuel : nat) (thresholds : ErrorThresholds)
      (min_remaining_points : Q) (c : Chunk) :
  inject_Z (Z.of_nat (List.length (tie_points c))) <= min_remaining_points ->
  reprojection_loop eng fuel thresholds min_remaining_points false c
  = ([], Ok (tt, c)).
Proof.
  intros Hmin.
  assert (E : Qgtb (inject_Z (Z.of_nat (List.length (tie_points c))))
                min_remaining_points = false) by now apply Qgtb_false.
  destruct fuel; cbn [reprojection_loop]; unfold bindA, get; now rewrite E.
Qed.

Lemma removal_calls (f : Criterion) (max_error max_points : Q) (c : Chunk) :
  exists tr b c',
    remove_above_error_threshold f max_error max_points c = (tr, Ok (b, c'))
    /\ (f <> ReprojectionError -> filter selects_by_reprojection tr = [])
    /\ filter is_optimization tr = [].
Proof.
  destruct (removal_outcome f max_error max_points c) as [tr [b [c' [Hrun Hcase]]]].
  exists tr, b, c'. split; [exact Hrun |].
  destruct Hcase as [[-> _] | [v [pre [rest [_ [_ [_ [_ [-> _]]]]]]]]].
  - now split.
  - split; [| reflexivity]. intros Hf. destruct f; try reflexivity. congruence.
Qed.

(** X24.  With [reprojection_max_selection] at 0 (or below),
    [refine_sparse_cloud] skips its reprojection-error phase altogether: it
    returns, whatever the engine does, without ever selecting tie points by
    reprojection error, after exactly four camera optimisations. *)
Theorem refine_sparse_cloud_reprojection_off :
  forall (fuel : nat) (config : Photogrammetry) (c : Chunk),
    reprojection_max_selection (error_thresholds config) <= 0 ->
    exists c',
      snd (refine_sparse_cloud eng fuel config c) = Ok (tt, c')
      /\ filter selects_by_reprojection (fst (refine_sparse_cloud eng fuel config c)) = []
      /\ List.length
           (filter is_optimization (fst (refine_sparse_cloud eng fuel config c)))
         = 4%nat.
Proof.
  intros fuel config c Hoff.
  set (th := error_thresholds config) in *.
  set (c1 := set_tie_points (eng_optimized eng c false) c).
  destruct (removal_calls ReconstructionUncertainty (reconstruction_uncertainty th)
              (reconstruction_uncertainty_max_selection th) c1)
    as [t1 [b1 [c2 [H1 [S1 O1]]]]].
  set (c3 := set_tie_points (eng_optimized eng c2 false) c2).
  destruct (removal_calls ProjectionAccuracy (projection_accuracy th)
              (projection_accuracy_max_selection th) c3)
    as [t2 [b2 [c4 [H2 [S2 O2]]]]].
  set (c5 := set_tie_points (eng_optimized eng c4 false) c4).
  assert (Hloop : forall m,
             m = inject_Z (Z.of_nat (List.length (tie_points c5)))
                 - inject_Z (Z.of_nat (List.length (tie_points c5)))
                   * reprojection_max_selection th ->
             reprojection_loop eng fuel th m false c5 = ([], Ok (tt, c5))).
  { intros m ->. apply reprojection_loop_skipped.
    assert (Hn : 0 <= inject_Z (Z.of_nat (List.length (tie_points c5)))).
    { change 0 with (inject_Z 0). rewrite <- Zle_Qle. lia. }
    nra. }
  assert (Hrun : exists tr,
             refine_sparse_cloud eng fuel config c
             = (tr, Ok (tt, set_tie_points (eng_optimized eng c5 true) c5))
             /\ filter selects_by_reprojection tr = []
             /\ List.length (filter is_optimization tr) = 4%nat).
  { unfold refine_sparse_cloud, optimize_cameras. fold th.
    unfold bindA at 1. unfold bindA at 1. cbn [emit modify].
    unfold bindA at 1. cbn [emit].
    unfold bindA at 1. fold c1. rewrite H1.
    unfold bindA at 1. unfold bindA at 1. cbn [emit modify]. fold c3.
    unfold bindA at 1. cbn [emit].
    unfold bindA at 1. rewrite H2.
    unfold bindA at 1. unfold bindA at 1. cbn [emit modify]. fold c5.
    unfold bindA at 1. cbn [emit].
    unfold bindA at 1. cbn [get].
    unfold bindA at 1. rewrite (Hloop _ eq_refl).
    unfold bindA. cbn [emit modify fst snd app].
    eexists. split; [reflexivity |]. split.
    - cbn [filter selects_by_reprojection app]. rewrite !filter_app.
      rewrite S1 by discriminate. cbn [filter selects_by_reprojection app].
      rewrite filter_app, S2 by discriminate. reflexivity.
    - cbn [filter is_optimization app]. rewrite !filter_app.
      rewrite O1. cbn [filter is_optimization app List.length].
      rewrite filter_app, O2. reflexivity. }
  destruct Hrun as [tr [Hrun [Hs Ho]]].
  exists (set_tie_points (eng_optimized eng c5 true) c5).
  rewrite Hrun. now repeat split.
Qed.

End ReprojectionOff.

Lemma refine_sparse_cloud_reprojection_off_witness :
  exists c',
    snd (ModelHelpers.refine_sparse_cloud demo_engine 0
           (Build_Photogrammetry "out" "masks" None 1 4 None 50000 1 4096 "none"
              no_reprojection_thresholds)
           (population [7; 8; 9]%Q))
    = Ok (tt, c')
    /\ filter selects_by_reprojection
         (fst (ModelHelpers.refine_sparse_cloud demo_engine 0
                 (Build_Photogrammetry "out" "masks" None 1 4 None 50000 1 4096 "none"
                    no_reprojection_thresholds)
                 (population [7; 8; 9]%Q))) = []
    /\ List.length
         (filter is_optimization
            (fst (ModelHelpers.refine_sparse_cloud demo_engine 0
                    (Build_Photogrammetry "out" "masks" None 1 4 None 50000 1 4096 "none"
                       no_reprojection_thresholds)
                    (population [7; 8; 9]%Q))))
       = 4%nat.
Proof.
  apply (@refine_sparse_cloud_reprojection_off demo_engine 0
           (Build_Photogrammetry "out" "masks" None 1 4 None 50000 1 4096 "none"
              no_reprojection_thresholds)
           (population [7; 8; 9]%Q)).
  vm_compute. discriminate.
Defined.
